(** * goledger: transport framing, status words, checksummed base-58 and
      BIP-32 path codecs of the Ledger client library.

    A shallow embedding of [apdu.go], [crypto.go], the BIP path codec,
    [SetBipPath], and the signing handshake and the queries of
    [ledger-apps/tezos], followed by the theorems that settle the
    properties stated about them and by further properties of the code.

    Conventions.
    - A Go [int] is a [Z]; none of the quantities below comes near the
      64-bit limits, so no wrap-around is written for [int].  [uint16] and
      [uint8] conversions are written out ([uint16], [byte_of_Z]).
    - A [[]byte] and a Go [string] are [list byte].  A slice expression
      [s[lo:hi]] is [slice s lo hi]; it panics unless [0 <= lo <= hi <= len s]
      (the capacity of a slice is taken equal to its length).
    - A function returning [(T, error)] returns an [outcome T]; a run-time
      panic is the outcome [Panic].  Loops whose termination is not
      structural take a [fuel]; [OutOfFuel] is an artefact of the model. *)

From Stdlib Require Import String Ascii ZArith NArith List Lia Bool.
From Stdlib Require Import Init.Byte Strings.Byte DecimalString DecimalN.
Import ListNotations.

Local Open Scope Z_scope.

(* ================================================================= *)
(** * Part I. Definitions *)
(* ================================================================= *)

(* ----------------------------------------------------------------- *)
(** ** Bytes, slices, outcomes *)

Definition Z_of_byte (b : byte) : Z := Z.of_N (Byte.to_N b).

(** The conversion [byte(v)] of Go: the low eight bits. *)
Definition byte_of_Z (z : Z) : byte :=
  match Byte.of_N (Z.to_N (z mod 256)) with
  | Some b => b
  | None => x00
  end.

Definition uint16 (z : Z) : Z := z mod 65536.
Definition uint32 (z : Z) : Z := z mod 4294967296.

Definition len {A : Type} (l : list A) : Z := Z.of_nat (length l).

Definition bytes_of_string (s : string) : list byte := list_byte_of_string s.

Inductive error : Type :=
| ErrMoreData
| errors_New (msg : string)
| errors_Wrap (e : error) (msg : string)
| Errorf_Unknown_status (code : Z).

Inductive outcome (A : Type) : Type :=
| Ok (a : A)
| Err (e : error)
| Panic
| OutOfFuel.

Arguments Ok {A} a.
Arguments Err {A} e.
Arguments Panic {A}.
Arguments OutOfFuel {A}.

Definition bind {A B : Type} (m : outcome A) (k : A -> outcome B) : outcome B :=
  match m with
  | Ok a => k a
  | Err e => Err e
  | Panic => Panic
  | OutOfFuel => OutOfFuel
  end.

Notation "x <- m ;; k" := (bind m (fun x => k))
  (at level 61, m at next level, right associativity).

(** [s[lo:hi]]. *)
Definition slice {A : Type} (s : list A) (lo hi : Z) : outcome (list A) :=
  if (0 <=? lo) && (lo <=? hi) && (hi <=? len s)
  then Ok (firstn (Z.to_nat (hi - lo)) (skipn (Z.to_nat lo) s))
  else Panic.

(** [s[i]]. *)
Definition index {A : Type} (s : list A) (i : Z) : outcome A :=
  if (0 <=? i) && (i <? len s)
  then match nth_error s (Z.to_nat i) with
       | Some a => Ok a
       | None => Panic
       end
  else Panic.

Fixpoint bytes_Equal (a b : list byte) : bool :=
  match a, b with
  | [], [] => true
  | x :: a', y :: b' => Byte.eqb x y && bytes_Equal a' b'
  | _, _ => false
  end.

(** [binary.BigEndian.PutUint16] into a fresh two-byte slice. *)
Definition PutUint16 (v : Z) : list byte :=
  [byte_of_Z (Z.shiftr v 8); byte_of_Z v].

(** [binary.BigEndian.Uint16]; it indexes [b[1]] first. *)
Definition Uint16 (b : list byte) : outcome Z :=
  b1 <- index b 1 ;;
  b0 <- index b 0 ;;
  Ok (Z.lor (Z_of_byte b1) (Z.shiftl (Z_of_byte b0) 8)).

(* ----------------------------------------------------------------- *)
(** ** apdu.go *)

Definition extraHeaderSize : Z := 2.

(** [checkFailure]; [None] is the [nil] error.  A Go [switch] does not
    fall through: the empty [case 0x6a84:] leaves the switch, and control
    reaches the final [return nil]. *)
Definition checkFailure (code : Z) : option error :=
  if negb (code =? 0x9000) && negb (Z.land code 0xFF00 =? 0x6100) then
    match code with
    | 0x6484 => Some (errors_New "Are you using the correct targetId?")
    | 0x6982 => Some (errors_New "Have you uninstalled the existing CA with resetCustomCA first?")
    | 0x6985 => Some (errors_New "Operation denied by the user")
    | 0x6a80 => Some (errors_New "Level is below safety watermark")
    | 0x6a84 => None
    | 0x6a85 => Some (errors_New "Not enough space?")
    | 0x6a83 => Some (errors_New "Maybe this app requires a library to be installed first?")
    | 0x6b00 => Some (errors_New "Incorrect parameters received P1/P2")
    | 0x6c00 => Some (errors_New "Wrong length")
    | 0x6c66 => Some (errors_New "Operation not allowed")
    | 0x6d00 => Some (errors_New "Unsupported Instruction")
    | 0x6e00 => Some (errors_New "Unexpected state of device: verify that the right application is opened?")
    | 0x6f00 => Some (errors_New "Internal technical problem")
    | 0x917e => Some (errors_New "Length of command string invalid")
    | 0x9405 => Some (errors_New "Parse error")
    | _ => Some (Errorf_Unknown_status code)
    end
  else None.

(** The continuation loop of [wrapCommandAPDU]:
    [for ; offset != len(command); { ... }]. *)
Fixpoint wrap_loop (fuel : nat) (channel command : list byte) (packetSize : Z)
    (sequenceIdx offset : Z) (result : list byte) : outcome (list byte) :=
  if offset =? len command then Ok result
  else
    match fuel with
    | O => OutOfFuel
    | S fuel' =>
        let result := result ++ channel in
        let result := result ++ [x05] in
        let result := result ++ PutUint16 sequenceIdx in
        let sequenceIdx := uint16 (sequenceIdx + 1) in
        let blockSize :=
          if len command - offset >? packetSize - 3 - extraHeaderSize
          then packetSize - 3 - extraHeaderSize
          else len command - offset in
        chunk <- slice command offset (offset + blockSize) ;;
        wrap_loop fuel' channel command packetSize sequenceIdx
                  (offset + blockSize) (result ++ chunk)
    end.

(** The padding loop: [for ; (len(result) % packetSize) != 0; { ... }]. *)
Fixpoint pad_loop (fuel : nat) (packetSize : Z) (result : list byte)
  : outcome (list byte) :=
  if Z.rem (len result) packetSize =? 0 then Ok result
  else
    match fuel with
    | O => OutOfFuel
    | S fuel' => pad_loop fuel' packetSize (result ++ [x00])
    end.

Definition wrapCommandAPDU (fuel : nat) (channel command : list byte)
    (packetSize : Z) : outcome (list byte) :=
  if packetSize <? 3 then Err (errors_New "Can't handle less than 3 bytes")
  else
    let sequenceIdx := 0 in
    let offset := 0 in
    let result := [] ++ channel in
    let result := result ++ [x05] in
    let result := result ++ PutUint16 sequenceIdx in
    let result := result ++ PutUint16 (uint16 (len command)) in
    let sequenceIdx := uint16 (sequenceIdx + 1) in
    let blockSize :=
      if len command >? packetSize - 5 - extraHeaderSize
      then packetSize - 5 - extraHeaderSize
      else len command in
    chunk <- slice command offset (offset + blockSize) ;;
    let result := result ++ chunk in
    let offset := offset + blockSize in
    result <- wrap_loop fuel channel command packetSize sequenceIdx offset result ;;
    pad_loop fuel packetSize result.

(** The reassembly loop of [unwrapResponseAPDU]:
    [for ; len(result) < responseLength; { ... }].  It returns the
    reassembled bytes.  ([result] starts as a window of [data] and is
    appended to in place; the bytes it overwrites lie behind every later
    read, so the value returned is that of the copy modelled here.) *)
Fixpoint unwrap_loop (fuel : nat) (channel data : list byte)
    (packetSize responseLength : Z) (sequenceIdx offset : Z)
    (result : list byte) : outcome (list byte) :=
  if len result <? responseLength then
    match fuel with
    | O => OutOfFuel
    | S fuel' =>
        let sequenceIdx := sequenceIdx + 1 in
        if offset =? len data then Err (errors_New "No data")
        else
          packedChan <- slice data offset (offset + 2) ;;
          if negb (bytes_Equal packedChan channel)
          then Err (errors_New "Invalid channel")
          else
            let offset := offset + 2 in
            tag <- index data offset ;;
            if negb (bytes_Equal [tag] [x05])
            then Err (errors_New "Invalid tag")
            else
              let offset := offset + 1 in
              seqBytes <- slice data offset (offset + 2) ;;
              packedSeq <- Uint16 seqBytes ;;
              if negb (packedSeq =? sequenceIdx)
              then Err (errors_New "Invalid sequence")
              else
                let offset := offset + 2 in
                let blockSize :=
                  if responseLength - len result >? packetSize - 3 - extraHeaderSize
                  then packetSize - 3 - extraHeaderSize
                  else responseLength - len result in
                chunk <- slice data offset (offset + blockSize) ;;
                unwrap_loop fuel' channel data packetSize responseLength
                            sequenceIdx (offset + blockSize) (result ++ chunk)
    end
  else Ok result.

Definition unwrapResponseAPDU (fuel : nat) (channel data : list byte)
    (packetSize : Z) : outcome (list byte) :=
  let sequenceIdx := 0 in
  let offset := 0 in
  if (len data =? 0) || (len data <? 5 + extraHeaderSize + 5)
  then Err (errors_New "No data")
  else
    packedChannel <- slice data offset (offset + 2) ;;
    if negb (bytes_Equal packedChannel channel)
    then Err (errors_New "Invalid channel")
    else
      let offset := offset + 2 in
      tag <- index data offset ;;
      if negb (bytes_Equal [tag] [x05])
      then Err (errors_New "Invalid tag")
      else
        let offset := offset + 1 in
        seqBytes <- slice data offset (offset + 2) ;;
        packedSeq <- Uint16 seqBytes ;;
        if negb (packedSeq =? sequenceIdx)
        then Err (errors_New "Invalid sequence")
        else
          let offset := offset + 2 in
          lenBytes <- slice data offset (offset + 2) ;;
          responseLength <- Uint16 lenBytes ;;
          let offset := offset + 2 in
          if len data <? 5 + extraHeaderSize + responseLength
          then Err ErrMoreData
          else
            let blockSize :=
              if responseLength >? packetSize - 5 - extraHeaderSize
              then packetSize - 5 - extraHeaderSize
              else responseLength in
            result <- slice data offset (offset + blockSize) ;;
            let offset := offset + blockSize in
            result <- unwrap_loop fuel channel data packetSize responseLength
                                  sequenceIdx offset result ;;
            let swOffset := len result - 2 in
            hi <- index result swOffset ;;
            lo <- index result (swOffset + 1) ;;
            let sw := Z.shiftl (Z_of_byte hi) 8 + Z_of_byte lo in
            match checkFailure sw with
            | Some err => Err err
            | None => slice result 0 swOffset
            end.

Definition TEZOS_CHANNEL : list byte := [x01; x01].

(* ----------------------------------------------------------------- *)
(** ** crypto/sha256 (FIPS 180-4), as used by crypto.go *)

Definition w32 (z : Z) : Z := z mod 4294967296.
Definition add32 (a b : Z) : Z := w32 (a + b).
Definition rotr (n x : Z) : Z :=
  Z.lor (Z.shiftr x n) (w32 (Z.shiftl x (32 - n))).
Definition Ch (x y z : Z) : Z :=
  Z.lxor (Z.land x y) (Z.land (Z.lxor x 0xFFFFFFFF) z).
Definition Maj (x y z : Z) : Z :=
  Z.lxor (Z.lxor (Z.land x y) (Z.land x z)) (Z.land y z).
Definition bsig0 (x : Z) : Z := Z.lxor (Z.lxor (rotr 2 x) (rotr 13 x)) (rotr 22 x).
Definition bsig1 (x : Z) : Z := Z.lxor (Z.lxor (rotr 6 x) (rotr 11 x)) (rotr 25 x).
Definition ssig0 (x : Z) : Z := Z.lxor (Z.lxor (rotr 7 x) (rotr 18 x)) (Z.shiftr x 3).
Definition ssig1 (x : Z) : Z := Z.lxor (Z.lxor (rotr 17 x) (rotr 19 x)) (Z.shiftr x 10).

(** The constants are derived as FIPS 180-4 defines them: the first 32
    bits of the fractional parts of the cube roots (round constants) and of
    the square roots (initial hash value) of the first primes. *)
Definition is_prime (n : Z) : bool :=
  (1 <? n)
  && forallb (fun d => negb (n mod d =? 0) || (n <? d * d))
             (map Z.of_nat (seq 2 (Z.to_nat (Z.sqrt n)))).

Definition first_primes (n : nat) : list Z :=
  firstn n (filter is_prime (map Z.of_nat (seq 2 310))).

(** The integer cube root of [n], sought between [lo] and [hi]. *)
Fixpoint cube_root (fuel : nat) (n lo hi : Z) : Z :=
  match fuel with
  | O => lo
  | S fuel' =>
      let mid := (lo + hi) / 2 in
      if mid =? lo then lo
      else if mid * mid * mid <=? n
           then cube_root fuel' n mid hi
           else cube_root fuel' n lo mid
  end.

Definition sha256_K : list Z :=
  map (fun p => w32 (cube_root 64 (p * 2 ^ 96) 0 (2 ^ 36))) (first_primes 64).

Definition sha256_state : Type := (Z * Z * Z * Z * Z * Z * Z * Z)%type.

Definition frac_sqrt (p : Z) : Z := w32 (Z.sqrt (p * 2 ^ 64)).

Definition sha256_init : sha256_state :=
  (frac_sqrt 2, frac_sqrt 3, frac_sqrt 5, frac_sqrt 7,
   frac_sqrt 11, frac_sqrt 13, frac_sqrt 17, frac_sqrt 19).

(** Big-endian bytes of a 32-bit word, and back. *)
Definition be32 (v : Z) : list byte :=
  [byte_of_Z (Z.shiftr v 24); byte_of_Z (Z.shiftr v 16);
   byte_of_Z (Z.shiftr v 8); byte_of_Z v].

Definition be32_word (b : list byte) : Z :=
  fold_left (fun acc x => acc * 256 + Z_of_byte x) (firstn 4 b) 0.

Fixpoint be32_words (n : nat) (b : list byte) : list Z :=
  match n with
  | O => []
  | S n' => be32_word b :: be32_words n' (skipn 4 b)
  end.

(** The message schedule, most recent word first. *)
Fixpoint sha256_schedule (n : nat) (wrev : list Z) : list Z :=
  match n with
  | O => wrev
  | S n' =>
      let wt := add32 (add32 (ssig1 (nth 1 wrev 0)) (nth 6 wrev 0))
                      (add32 (ssig0 (nth 14 wrev 0)) (nth 15 wrev 0)) in
      sha256_schedule n' (wt :: wrev)
  end.

Definition sha256_round (st : sha256_state) (kw : Z * Z) : sha256_state :=
  let '(a, b, c, d, e, f, g, h) := st in
  let t1 := add32 (add32 (add32 h (bsig1 e)) (add32 (Ch e f g) (fst kw))) (snd kw) in
  let t2 := add32 (bsig0 a) (Maj a b c) in
  (add32 t1 t2, a, b, c, add32 d t1, e, f, g).

Definition sha256_block (st : sha256_state) (blk : list byte) : sha256_state :=
  let ws := rev (sha256_schedule 48 (rev (be32_words 16 blk))) in
  let '(a, b, c, d, e, f, g, h) := fold_left sha256_round (combine sha256_K ws) st in
  let '(a0, b0, c0, d0, e0, f0, g0, h0) := st in
  (add32 a0 a, add32 b0 b, add32 c0 c, add32 d0 d,
   add32 e0 e, add32 f0 f, add32 g0 g, add32 h0 h).

Definition sha256_pad (m : list byte) : list byte :=
  let l := len m in
  let k := (55 - l) mod 64 in
  m ++ [x80] ++ repeat x00 (Z.to_nat k)
    ++ be32 (Z.shiftr (8 * l) 32) ++ be32 (w32 (8 * l)).

Fixpoint sha256_blocks (n : nat) (st : sha256_state) (m : list byte) : sha256_state :=
  match n with
  | O => st
  | S n' => sha256_blocks n' (sha256_block st (firstn 64 m)) (skipn 64 m)
  end.

(** [sha256.Sum256]: the 32-byte digest. *)
Definition Sum256 (m : list byte) : list byte :=
  let p := sha256_pad m in
  let '(a, b, c, d, e, f, g, h) :=
    sha256_blocks (length p / 64) sha256_init p in
  be32 a ++ be32 b ++ be32 c ++ be32 d ++ be32 e ++ be32 f ++ be32 g ++ be32 h.

(* ----------------------------------------------------------------- *)
(** ** math/big and btcutil/base58, as used by crypto.go *)

(** [new(big.Int).SetBytes(b)]: the big-endian unsigned value. *)
Definition SetBytes (b : list byte) : Z :=
  fold_left (fun acc x => acc * 256 + Z_of_byte x) b 0.

Fixpoint big_Bytes_aux (fuel : nat) (x : Z) (acc : list byte) : list byte :=
  match fuel with
  | O => acc
  | S fuel' =>
      if 0 <? x
      then big_Bytes_aux fuel' (x / 256) (byte_of_Z (x mod 256) :: acc)
      else acc
  end.

(** [x.Bytes()]: the big-endian bytes of [|x|], without leading zeros.
    One unit of fuel per bit of [x] is more than the loop takes. *)
Definition big_Bytes (x : Z) : list byte :=
  big_Bytes_aux (S (Z.to_nat (Z.log2 (Z.abs x)))) (Z.abs x) [].

Definition alphabet : list byte :=
  bytes_of_string "123456789ABCDEFGHJKLMNPQRSTUVWXYZabcdefghijkmnopqrstuvwxyz".

(** [bytes.IndexByte]. *)
Fixpoint IndexByte (b : list byte) (c : byte) : Z :=
  match b with
  | [] => -1
  | x :: b' =>
      if Byte.eqb x c then 0
      else let i := IndexByte b' c in if i =? -1 then -1 else i + 1
  end.

(** The leading zero bytes of a slice: the loop
    [for _, b := range s { if b == 0 { n++ } else { break } }]. *)
Fixpoint leading_zeros (s : list byte) : nat :=
  match s with
  | x :: s' => if Byte.eqb x x00 then S (leading_zeros s') else O
  | [] => O
  end.

(** The base-58 digits of [x], least significant first: the loop
    [for x.Sign() > 0 { x.DivMod(x, 58, mod); answer = append(answer, alphabet[mod]) }]. *)
Fixpoint base58_digits (fuel : nat) (x : Z) : list byte :=
  match fuel with
  | O => []
  | S fuel' =>
      if 0 <? x
      then nth (Z.to_nat (x mod 58)) alphabet x00 :: base58_digits fuel' (x / 58)
      else []
  end.

(** [base58.Encode] of github.com/btcsuite/btcutil, the package crypto.go
    imports (its source is not part of this repository).  The library
    converts the big-endian number to base-58 digits, appends one ['1']
    (the zero digit) for every leading zero byte of its input, and reverses
    the answer; it handles leading zero bytes itself. *)
Definition base58_Encode (b : list byte) : list byte :=
  let x := SetBytes b in
  let answer := base58_digits (S (Z.to_nat (Z.log2 x))) x in
  let answer := answer ++ repeat "1"%byte (leading_zeros b) in
  rev answer.

(** What the comment in [encode] takes the library to do ("base58 removes
    them"): the bare conversion of the number, leading zero bytes dropped.
    It is used only to state what [encode] was written against. *)
Definition base58_Encode_bare (b : list byte) : list byte :=
  let x := SetBytes b in
  rev (base58_digits (S (Z.to_nat (Z.log2 x))) x).

(* ----------------------------------------------------------------- *)
(** ** Strings: [range] over a string *)

Definition RuneError : Z := 0xFFFD.

Definition in_range (lo hi b : Z) : bool := (lo <=? b) && (b <=? hi).
Definition is_cont (b : Z) : bool := in_range 0x80 0xBF b.
Definition low6 (b : Z) : Z := Z.land b 0x3F.

(** The second byte a three-byte or four-byte lead accepts. *)
Definition accept3 (b0 b1 : Z) : bool :=
  if b0 =? 0xE0 then in_range 0xA0 0xBF b1
  else if b0 =? 0xED then in_range 0x80 0x9F b1
  else in_range 0xE0 0xEF b0 && is_cont b1.
Definition accept4 (b0 b1 : Z) : bool :=
  if b0 =? 0xF0 then in_range 0x90 0xBF b1
  else if b0 =? 0xF4 then in_range 0x80 0x8F b1
  else in_range 0xF0 0xF4 b0 && is_cont b1.

(** The code points [for _, value := range s] yields: UTF-8 decoding, an
    invalid sequence giving U+FFFD and advancing by one byte. *)
Fixpoint utf8_runes (s : list byte) : list Z :=
  match s with
  | [] => []
  | c0 :: t0 =>
      let b0 := Z_of_byte c0 in
      if b0 <? 0x80 then b0 :: utf8_runes t0
      else
        match t0 with
        | [] => [RuneError]
        | c1 :: t1 =>
            let b1 := Z_of_byte c1 in
            if in_range 0xC2 0xDF b0 && is_cont b1
            then (Z.shiftl (Z.land b0 0x1F) 6 + low6 b1) :: utf8_runes t1
            else
              match t1 with
              | [] => RuneError :: utf8_runes t0
              | c2 :: t2 =>
                  let b2 := Z_of_byte c2 in
                  if accept3 b0 b1 && is_cont b2
                  then (Z.shiftl (Z.land b0 0x0F) 12 + Z.shiftl (low6 b1) 6
                        + low6 b2) :: utf8_runes t2
                  else
                    match t2 with
                    | [] => RuneError :: utf8_runes t0
                    | c3 :: t3 =>
                        let b3 := Z_of_byte c3 in
                        if accept4 b0 b1 && is_cont b2 && is_cont b3
                        then (Z.shiftl (Z.land b0 0x07) 18
                              + Z.shiftl (low6 b1) 12 + Z.shiftl (low6 b2) 6
                              + low6 b3) :: utf8_runes t3
                        else RuneError :: utf8_runes t0
                    end
              end
        end
  end.

(* ----------------------------------------------------------------- *)
(** ** crypto.go *)

Definition Prefix : Type := list byte.

(** The checksum both [encode] and [decode] compute: [hash[:4]] of
    SHA-256 applied twice. *)
Definition checksum4 (data : list byte) : list byte :=
  firstn 4 (Sum256 (Sum256 data)).

Definition encode (dataBytes : list byte) : list byte :=
  let checksum := checksum4 dataBytes in
  let dataBytes := dataBytes ++ checksum in
  let zeroCount := leading_zeros dataBytes in
  let encoded := base58_Encode dataBytes in
  Nat.iter zeroCount (fun encoded => "1"%byte :: encoded) encoded.

(** [B58cencode]: the two copy loops fill [n] with [prefix] then [payload]. *)
Definition B58cencode (payload : list byte) (prefix : Prefix) : list byte :=
  let n := prefix ++ payload in
  encode n.

(** The loop of [b58decode] over the code points of its argument;
    [None] when a character is not in the alphabet. *)
Fixpoint b58decode_loop (runes : list Z) (decimalData : Z) : option Z :=
  match runes with
  | [] => Some decimalData
  | value :: rest =>
      let pos := IndexByte alphabet (byte_of_Z value) in
      if pos =? -1 then None
      else b58decode_loop rest (decimalData * 58 + pos)
  end.

(** [b58decode], with both of its results. *)
Definition b58decode (data : list byte) : list byte * option error :=
  match b58decode_loop (utf8_runes data) 0 with
  | None => ([], Some (errors_New "character not found in alphabet"))
  | Some decimalData => (big_Bytes decimalData, None)
  end.

(** The leading ['1'] characters of the text ([encoded[i] == 49]). *)
Fixpoint leading_ones (encoded : list byte) : nat :=
  match encoded with
  | x :: s' => if Z_of_byte x =? 49 then S (leading_ones s') else O
  | [] => O
  end.

(** [decode] returns both of its results, as [B58cdecode] reads the first
    one whatever the second is. *)
Definition decode (encoded : list byte) : list byte * option error :=
  let zeroCount := leading_ones encoded in
  let '(dataBytes, err) := b58decode encoded in
  match err with
  | Some err => ([], Some err)
  | None =>
      if len dataBytes <=? 4
      then ([], Some (errors_New "invalid decode length"))
      else
        let data := firstn (length dataBytes - 4) dataBytes in
        let checksum := skipn (length dataBytes - 4) dataBytes in
        let data := Nat.iter zeroCount (fun data => [x00] ++ data) data in
        if negb (bytes_Equal checksum (checksum4 data))
        then ([], Some (errors_New "data and checksum don't match"))
        else (data, None)
  end.

(** [B58cdecode]: [b58c, _ := decode(payload); return b58c[len(prefix):]]. *)
Definition B58cdecode (payload : list byte) (prefix : list byte)
  : outcome (list byte) :=
  let '(b58c, _) := decode payload in
  slice b58c (len prefix) (len b58c).

(* ----------------------------------------------------------------- *)
(** ** ledger-apps/tezos/tezos-crypto.go: the version prefixes *)

Definition bytes_of (l : list Z) : list byte := map byte_of_Z l.

Definition tz1prefix : Prefix := bytes_of [6; 161; 159].
Definition tz2prefix : Prefix := bytes_of [6; 161; 161].
Definition tz3prefix : Prefix := bytes_of [6; 161; 164].
Definition ktprefix : Prefix := bytes_of [2; 90; 121].
Definition edskprefix : Prefix := bytes_of [43; 246; 78; 7].
Definition edsigprefix : Prefix := bytes_of [9; 245; 205; 134; 18].
Definition sigprefix : Prefix := bytes_of [4; 130; 43].
Definition edsk2prefix : Prefix := bytes_of [13; 15; 58; 7].
Definition edpkprefix : Prefix := bytes_of [13; 15; 37; 217].
Definition edeskprefix : Prefix := bytes_of [7; 90; 60; 179; 41].
Definition branchprefix : Prefix := bytes_of [1; 52].
Definition chainidprefix : Prefix := bytes_of [57; 52; 00].
Definition blockprefix : Prefix := bytes_of [1].
Definition endorsementprefix : Prefix := bytes_of [2].
Definition genericopprefix : Prefix := bytes_of [3].
Definition networkprefix : Prefix := bytes_of [87; 82; 0].

Definition tezos_prefixes : list Prefix :=
  [tz1prefix; tz2prefix; tz3prefix; ktprefix; edskprefix; edsigprefix;
   sigprefix; edsk2prefix; edpkprefix; edeskprefix; branchprefix;
   chainidprefix; blockprefix; endorsementprefix; genericopprefix;
   networkprefix].

(* ----------------------------------------------------------------- *)
(** ** The BIP-32 path codec ([encodeBipPath], [DecodeBipPath]) *)

Definition HARDENED : Z := 0x80000000.

Definition isDigit (c : byte) : bool := in_range 48 57 (Z_of_byte c).

(** The character class [[hH']]. *)
Definition isModifier (c : byte) : bool :=
  Byte.eqb c "h"%byte || Byte.eqb c "H"%byte || Byte.eqb c "'"%byte.

Definition isSlash (c : byte) : bool := Byte.eqb c "/"%byte.

(** One match of the expression: the full match and its two groups. *)
Definition submatch (ds m : list byte) : list (list byte) :=
  ["/"%byte :: ds ++ m; ds; m].

Inductive scan_state : Type :=
| Scan                       (* looking for the next ['/'] *)
| Slash                      (* a ['/'] was read, no digit yet *)
| Digits (ds : list byte).   (* ['/'] and the digits [ds] were read *)

(** [matchSections.FindAllStringSubmatch(path, n)] for the expression
    [/(\d+)([hH']?)]: the successive leftmost matches, digits taken
    greedily, at most [n] of them. *)
Fixpoint scan_sections (s : list byte) (n : nat) (st : scan_state)
  : list (list (list byte)) :=
  match n with
  | O => []
  | S n' =>
      match s with
      | [] =>
          match st with
          | Digits ds => [submatch ds []]
          | _ => []
          end
      | c :: t =>
          match st with
          | Scan => scan_sections t n (if isSlash c then Slash else Scan)
          | Slash =>
              if isDigit c then scan_sections t n (Digits [c])
              else scan_sections t n (if isSlash c then Slash else Scan)
          | Digits ds =>
              if isDigit c then scan_sections t n (Digits (ds ++ [c]))
              else if isModifier c
                   then submatch ds [c] :: scan_sections t n' Scan
                   else submatch ds []
                          :: scan_sections t n' (if isSlash c then Slash else Scan)
          end
      end
  end.

Definition FindAllStringSubmatch (path : list byte) (n : nat)
  : list (list (list byte)) :=
  scan_sections path n Scan.

(** The value of a string of decimal digits. *)
Definition decimal_value (ds : list byte) : Z :=
  fold_left (fun acc c => acc * 10 + (Z_of_byte c - 48)) ds 0.

(** [strconv.Atoi] on a 64-bit platform. *)
Definition Atoi (s : list byte) : outcome Z :=
  let '(neg, ds) :=
    match s with
    | c :: t =>
        if Byte.eqb c "-"%byte then (true, t)
        else if Byte.eqb c "+"%byte then (false, t)
        else (false, s)
    | [] => (false, s)
    end in
  if (len ds =? 0) || negb (forallb isDigit ds)
  then Err (errors_New "strconv.Atoi: invalid syntax")
  else
    let v := if neg then - decimal_value ds else decimal_value ds in
    if (v <? - 2 ^ 63) || (2 ^ 63 - 1 <? v)
    then Err (errors_New "strconv.Atoi: value out of range")
    else Ok v.

Definition hexdigit (d : Z) : byte :=
  nth (Z.to_nat d) (bytes_of_string "0123456789abcdef") x00.

(** The [n] low hexadecimal digits of [v], most significant first. *)
Fixpoint hex_digits (n : nat) (v : Z) : list byte :=
  match n with
  | O => []
  | S k => hexdigit ((v / 16 ^ Z.of_nat k) mod 16) :: hex_digits k v
  end.

(** [fmt.Sprintf("%08x", v)] for [0 <= v]: the hexadecimal digits of [v],
    padded with zeros to eight. *)
Definition Sprintf_08x (v : Z) : list byte :=
  hex_digits (Nat.max 8 (Z.to_nat (Z.log2 v / 4 + 1))) v.

Definition fromHexChar (c : byte) : outcome Z :=
  let z := Z_of_byte c in
  if in_range 48 57 z then Ok (z - 48)
  else if in_range 97 102 z then Ok (z - 97 + 10)
  else if in_range 65 70 z then Ok (z - 65 + 10)
  else Err (errors_New "encoding/hex: invalid byte").

(** [hex.DecodeString]. *)
Fixpoint hex_DecodeString (s : list byte) : outcome (list byte) :=
  match s with
  | [] => Ok []
  | p :: q :: t =>
      a <- fromHexChar p ;;
      b <- fromHexChar q ;;
      rest <- hex_DecodeString t ;;
      Ok (byte_of_Z (Z.lor (Z.shiftl a 4) b) :: rest)
  | [p] =>
      _ <- fromHexChar p ;;
      Err (errors_New "encoding/hex: odd length hex string")
  end.

(** The body of [for _, section := range sections]; [retPath] is the hex
    text built so far. *)
Fixpoint encodeBipPath_loop (sections : list (list (list byte)))
    (retPath : list byte) : outcome (list byte) :=
  match sections with
  | [] => Ok retPath
  | section :: rest =>
      if negb (len section =? 3) then Err (errors_New "Not enough sections")
      else
        s1 <- index section 1 ;;
        val <- Atoi s1 ;;
        if val >=? HARDENED then Err (errors_New "Invalid child index")
        else
          s2 <- index section 2 ;;
          val <- (if bytes_Equal s2 (bytes_of_string "h")
                     || bytes_Equal s2 (bytes_of_string "H")
                     || bytes_Equal s2 (bytes_of_string "'")
                  then Ok (val + HARDENED)
                  else if negb (len s2 =? 0)
                       then Err (errors_New "Invalid modifier")
                       else Ok val) ;;
          encodeBipPath_loop rest (retPath ++ Sprintf_08x val)
  end.

Definition encodeBipPath (path : list byte) : outcome (list byte) :=
  let sections := FindAllStringSubmatch path 4 in
  let retPath := bytes_of_string "04" in
  retPath <- encodeBipPath_loop sections retPath ;;
  hex_DecodeString retPath.

(** [binary.BigEndian.Uint32]; it indexes [b[3]] first. *)
Definition Uint32 (b : list byte) : outcome Z :=
  b3 <- index b 3 ;;
  b2 <- index b 2 ;;
  b1 <- index b 1 ;;
  b0 <- index b 0 ;;
  Ok (Z.lor (Z.lor (Z.lor (Z_of_byte b3) (Z.shiftl (Z_of_byte b2) 8))
                   (Z.shiftl (Z_of_byte b1) 16))
            (Z.shiftl (Z_of_byte b0) 24)).

(** [fmt.Sprintf("%d", v)] for [0 <= v]. *)
Definition Sprintf_d (v : Z) : list byte :=
  bytes_of_string (DecimalString.NilZero.string_of_uint (N.to_uint (Z.to_N v))).

(** The loop [for i := 1; i < length * 4; i += 4] of [DecodeBipPath]. *)
Fixpoint DecodeBipPath_loop (fuel : nat) (pathBytes : list byte)
    (length i : Z) (path : list byte) : outcome (list byte) :=
  if i <? length * 4 then
    match fuel with
    | O => OutOfFuel
    | S fuel' =>
        word <- slice pathBytes i (i + 4) ;;
        v <- Uint32 word ;;
        top <- index pathBytes i ;;
        let '(h, v) :=
          if Z_of_byte top =? 0x80
          then (bytes_of_string "'", uint32 (v - HARDENED))
          else ([], v) in
        DecodeBipPath_loop fuel' pathBytes length (i + 4)
          (path ++ bytes_of_string "/" ++ Sprintf_d v ++ h)
    end
  else Ok path.

Definition DecodeBipPath (fuel : nat) (pathBytes : list byte)
  : outcome (list byte) :=
  first <- index pathBytes 0 ;;
  let length := Z_of_byte first in
  if len pathBytes <? 1 + length * 4
  then Err (errors_New "Invalid Bip Path Length")
  else DecodeBipPath_loop fuel pathBytes length 1 [].

(* ----------------------------------------------------------------- *)
(** ** The device, [Ledger.Write] and [Ledger.Read] *)

(** The HID handle [l.Dev] as the library sees it: the mode of the
    channel, and what the device answers to the calls still to come.
    - [write_replies]: the [(b, err)] of the next calls of [Dev.Write];
      when none is left the write succeeds with the whole buffer.
    - [read_replies]: what the next calls of [readData] end with, a
      64-byte report or an error (the waiting inside [readData] is not
      modelled); when none is left the wait ends with the timeout.
    - [setnb_replies]: the [(r, err)] of the next calls of
      [Dev.SetNonBlocking]; when none is left the call succeeds.  The
      mode changes unless [r] is [-1]. *)
Record Device : Type := mkDevice {
  nonblocking : bool;
  write_replies : list (Z * option error);
  read_replies : list (outcome (list byte));
  setnb_replies : list (Z * option error)
}.

(** Computations on the device: state passing, with the outcome. *)
Definition dev (A : Type) : Type := Device -> outcome A * Device.

Definition dret {A : Type} (a : A) : dev A := fun d => (Ok a, d).
Definition dlift {A : Type} (o : outcome A) : dev A := fun d => (o, d).

Definition dbind {A B : Type} (m : dev A) (k : A -> dev B) : dev B :=
  fun d =>
    match m d with
    | (Ok a, d') => k a d'
    | (Err e, d') => (Err e, d')
    | (Panic, d') => (Panic, d')
    | (OutOfFuel, d') => (OutOfFuel, d')
    end.

Notation "x <~ m ;; k" := (dbind m (fun x => k))
  (at level 61, m at next level, right associativity).

(** [return zero, errors.Wrap(err, msg)]: [errors.Wrap] of a [nil] error
    is [nil]. *)
Definition return_Wrap {A : Type} (zero : A) (err : option error)
    (msg : string) : outcome A :=
  match err with
  | Some e => Err (errors_Wrap e msg)
  | None => Ok zero
  end.

(** [m], its error wrapped with [msg]:
    [if err != nil { return zero, errors.Wrap(err, msg) }]. *)
Definition wrapping {A : Type} (m : dev A) (msg : string) : dev A :=
  fun d =>
    match m d with
    | (Err e, d') => (Err (errors_Wrap e msg), d')
    | r => r
    end.

Definition Dev_Write (buffer : list byte) : dev (Z * option error) :=
  fun d =>
    match write_replies d with
    | r :: rest =>
        (Ok r, mkDevice (nonblocking d) rest (read_replies d) (setnb_replies d))
    | [] => (Ok (len buffer, None), d)
    end.

Definition Dev_SetNonBlocking (b : bool) : dev (Z * option error) :=
  fun d =>
    match setnb_replies d with
    | (r, err) :: rest =>
        (Ok (r, err),
         mkDevice (if r =? -1 then nonblocking d else b)
                  (write_replies d) (read_replies d) rest)
    | [] =>
        (Ok (0, None),
         mkDevice b (write_replies d) (read_replies d) (setnb_replies d))
    end.

(** The helper [readData] of [Ledger.Read]. *)
Definition readData : dev (list byte) :=
  fun d =>
    match read_replies d with
    | r :: rest =>
        (r, mkDevice (nonblocking d) (write_replies d) rest (setnb_replies d))
    | [] => (Err (errors_New "Timeout Expired"), d)
    end.

Record TzApdu : Type := mkTzApdu {
  INS : byte;
  P1 : byte;
  P2 : byte;
  CDATA : list byte
}.

Definition CLA : byte := x80.
Definition INS_SignBytes : byte := x04.

Definition MarshalBinary (a : TzApdu) : outcome (list byte) :=
  Ok ([CLA; INS a; P1 a; P2 a; byte_of_Z (len (CDATA a))] ++ CDATA a).

Definition Ledger_Write (fuel : nat) (apdu : TzApdu) (channel : list byte)
  : dev Z :=
  let prefix := [x00] in
  apduBytes <~ dlift (match MarshalBinary apdu with
                      | Err _ => Err (errors_New "Unable to marshal APDU instruction")
                      | r => r
                      end) ;;
  bufferBytes <~ wrapping (dlift (wrapCommandAPDU fuel channel apduBytes 64))
                          "Unable to wrap APDU instruction" ;;
  let bufferBytes := prefix ++ bufferBytes in
  r <~ Dev_Write bufferBytes ;;
  if fst r <=? 0 then dlift (return_Wrap 0 (snd r) "Failed to write")
  else dret (fst r).

(** The loop [for moreData := true; moreData; { ... }] of [Ledger.Read]. *)
Fixpoint Ledger_Read_loop (fuel : nat) (channel result : list byte)
  : dev (list byte) :=
  match fuel with
  | O => dlift OutOfFuel
  | S fuel' =>
      match unwrapResponseAPDU fuel channel result 64 with
      | Ok unwrappedResult => dret unwrappedResult
      | Err ErrMoreData =>
          moreBytes <~ readData ;;
          Ledger_Read_loop fuel' channel (result ++ moreBytes)
      | Err err => dlift (Err (errors_Wrap err "Failed to decode response"))
      | Panic => dlift Panic
      | OutOfFuel => dlift OutOfFuel
      end
  end.

Definition Ledger_Read (fuel : nat) (channel : list byte) : dev (list byte) :=
  firstBytes <~ readData ;;
  Ledger_Read_loop fuel channel ([] ++ firstBytes).

(* ----------------------------------------------------------------- *)
(** ** ledger-apps/tezos/ledger-app-tezos.go: [SignBytes] *)

(** [SignBytes]; [BipPath] is the field [l.BipPath]. *)
Definition SignBytes (fuel : nat) (BipPath bytesToSign : list byte)
  : dev (list byte) :=
  if len BipPath =? 0
  then dlift (Err (errors_New "No BIP Path is set; Use SetBipPath()"))
  else
    let signingApdu := mkTzApdu INS_SignBytes x00 x00 BipPath in
    _ <~ wrapping (Ledger_Write fuel signingApdu TEZOS_CHANNEL)
                  "Unable to sign bytes (1)" ;;
    resp <~ wrapping (Ledger_Read fuel TEZOS_CHANNEL)
                     "Unable to read bytes signature (1)" ;;
    let signBytesApdu := mkTzApdu INS_SignBytes x81 x00 bytesToSign in
    r <~ Dev_SetNonBlocking false ;;
    if fst r =? -1
    then dlift (return_Wrap [] (snd r) "Could not set non-blocking")
    else
      _ <~ wrapping (Ledger_Write fuel signBytesApdu TEZOS_CHANNEL)
                    "Unable to sign bytes (2)" ;;
      resp <~ wrapping (Ledger_Read fuel TEZOS_CHANNEL)
                       "Unable to read bytes signature" ;;
      r <~ Dev_SetNonBlocking true ;;
      if fst r =? -1
      then dlift (return_Wrap [] (snd r) "Could not set non-blocking")
      else dret (B58cencode resp edsigprefix).

(** A 64-byte report carrying a whole response: the frame header, the
    response and its padding. *)
Definition report (response : list byte) : list byte :=
  let body := TEZOS_CHANNEL ++ [x05] ++ PutUint16 0
              ++ PutUint16 (len response) ++ response in
  body ++ repeat x00 (64 - length body).

(* ----------------------------------------------------------------- *)
(** ** ledger-apps/tezos/ledger-app-tezos.go: the queries *)

Definition Version : byte := x00.
Definition GetAuthKey : byte := x07.
Definition GetBakingHLW : byte := x0b.

(** [GetVersion]: the text [fmt.Sprintf("%s %d.%d.%d", class, resp[1],
    resp[2], resp[3])], [class] being "Baking" when [resp[0] == 1]. *)
Definition GetVersion (fuel : nat) : dev (list byte) :=
  let apdu := mkTzApdu Version x00 x00 [] in
  _ <~ wrapping (Ledger_Write fuel apdu TEZOS_CHANNEL) "Unable to get version" ;;
  resp <~ wrapping (Ledger_Read fuel TEZOS_CHANNEL) "Unable to get version" ;;
  r0 <~ dlift (index resp 0) ;;
  let class := if Z_of_byte r0 =? 1
               then bytes_of_string "Baking" else bytes_of_string "Wallet" in
  r1 <~ dlift (index resp 1) ;;
  r2 <~ dlift (index resp 2) ;;
  r3 <~ dlift (index resp 3) ;;
  dret (class ++ bytes_of_string " " ++ Sprintf_d (Z_of_byte r1)
          ++ bytes_of_string "." ++ Sprintf_d (Z_of_byte r2)
          ++ bytes_of_string "." ++ Sprintf_d (Z_of_byte r3)).

(** [GetBakingSetup]: the two watermarks and the chain id. *)
Definition GetBakingSetup (fuel : nat) : dev (Z * Z * list byte) :=
  let apdu := mkTzApdu GetBakingHLW x00 x00 [] in
  _ <~ Ledger_Write fuel apdu TEZOS_CHANNEL ;;
  resp <~ wrapping (Ledger_Read fuel TEZOS_CHANNEL) "Unable to read HLW reply" ;;
  if len resp <? 12 then dlift (Err (errors_New "Not enough data returned"))
  else
    mainBytes <~ dlift (slice resp 0 4) ;;
    mainWM <~ dlift (Uint32 mainBytes) ;;
    testBytes <~ dlift (slice resp 4 8) ;;
    testWM <~ dlift (Uint32 testBytes) ;;
    chainBytes <~ dlift (slice resp 8 12) ;;
    let chainId := B58cencode chainBytes networkprefix in
    dret (mainWM, testWM, chainId).

(** [GetAuthorizedKeyPath]: the reply handed to [DecodeBipPath]. *)
Definition GetAuthorizedKeyPath (fuel : nat) : dev (list byte) :=
  let apdu := mkTzApdu GetAuthKey x00 x00 [] in
  _ <~ Ledger_Write fuel apdu TEZOS_CHANNEL ;;
  resp <~ wrapping (Ledger_Read fuel TEZOS_CHANNEL) "Unable to read auth request" ;;
  dlift (DecodeBipPath fuel resp).

(* ----------------------------------------------------------------- *)
(** ** ledger.go: [SetBipPath] *)

(** [SetBipPath] of ledger.go; the field [l.BipPath] is passed and
    returned, and is left as it was when the path is refused. *)
Definition SetBipPath (BipPath : list byte) (bipPath : list byte)
  : outcome unit * list byte :=
  match encodeBipPath bipPath with
  | Ok encodedBP => (Ok tt, encodedBP)
  | Err err => (Err err, BipPath)
  | Panic => (Panic, BipPath)
  | OutOfFuel => (OutOfFuel, BipPath)
  end.

(* ----------------------------------------------------------------- *)
(** ** Notions used to state the theorems *)

(** The size of the continuation chunk both loops take when [done] bytes
    of the command are through ([blockSize] in the loop bodies). *)
Definition cont_size (command : list byte) (packetSize done : Z) : Z :=
  if len command - done >? packetSize - 3 - extraHeaderSize
  then packetSize - 3 - extraHeaderSize
  else len command - done.

(** A byte string is in normal form when it does not start with zero. *)
Definition no_leading_zero (bs : list byte) : Prop :=
  match bs with
  | [] => True
  | b :: _ => b <> x00
  end.

(** A segment of a path: its digits and its marker. *)
Definition segment : Type := (list byte * list byte)%type.

Definition render_segment (s : segment) : list byte :=
  "/"%byte :: fst s ++ snd s.

(** The path string of a list of segments. *)
Definition render (segs : list segment) : list byte :=
  concat (map render_segment segs).

Definition is_marker (m : list byte) : bool :=
  match m with
  | [] => true
  | [c] => isModifier c
  | _ => false
  end.

(** A well-formed segment: at least one digit, a value below
    [0x80000000], and no marker or one of [h], [H], [']. *)
Definition well_formed (s : segment) : bool :=
  negb (len (fst s) =? 0) && forallb isDigit (fst s)
  && (decimal_value (fst s) <? HARDENED) && is_marker (snd s).

(** The 32-bit value of a segment. *)
Definition segment_value (s : segment) : Z :=
  match snd s with
  | [] => decimal_value (fst s)
  | _ => Z.lor (decimal_value (fst s)) HARDENED
  end.

(** The number of packets [wrapCommandAPDU] writes for a command of [n]
    bytes: the first packet carries [packetSize - 7] bytes of it, every
    further one [packetSize - 5]. *)
Definition packet_count (n packetSize : Z) : Z :=
  if n <=? packetSize - 7 then 1
  else 1 + (n - (packetSize - 7) + (packetSize - 6)) / (packetSize - 5).

(** A frame as the device delivers it: cut into [n] reports of 64 bytes. *)
Fixpoint reports (n : nat) (frame : list byte) : list (list byte) :=
  match n with
  | O => []
  | S n' => firstn 64 frame :: reports n' (skipn 64 frame)
  end.

(** The text [DecodeBipPath] writes for one 32-bit word [v]: the mark
    ['] and the index [v - HARDENED] when the first byte of the word is
    [0x80], the plain number otherwise. *)
Definition path_word (v : Z) : list byte :=
  if Z.shiftr v 24 =? 0x80
  then bytes_of_string "/" ++ Sprintf_d (v - HARDENED) ++ bytes_of_string "'"
  else bytes_of_string "/" ++ Sprintf_d v.


(** What the scanner returns for one match: digits, at least one, and no
    marker or one of [h], [H], [']. *)
Definition scanned (section : list (list byte)) : Prop :=
  exists ds m, section = submatch ds m /\ negb (len ds =? 0) = true /\
               forallb isDigit ds = true /\ is_marker m = true.

(* ----------------------------------------------------------------- *)
(** ** Scenarios *)

(** A response of 120 bytes: 118 bytes and the status word [0x9000]. *)
Definition response120 : list byte := repeat x07 118 ++ [x90; x00].

(** Its frame: three 64-byte packets carrying 57, 59 and 4 bytes. *)
Definition frame120 : list byte :=
  match wrapCommandAPDU 64 TEZOS_CHANNEL response120 64 with
  | Ok frame => frame
  | _ => []
  end.

(** The derivation path [/44'/1729'/0'/0'], as [SetBipPath] stores it. *)
Definition tezos_path : list byte :=
  bytes_of [4; 128; 0; 0; 44; 128; 0; 6; 193; 128; 0; 0; 0; 128; 0; 0; 0].

(** A device in non-blocking mode that acknowledges the first command and
    answers the second with the status word [0x6985]: the user refused. *)
Definition device_user_refuses : Device :=
  mkDevice true [] [Ok (report [x90; x00]); Ok (report [x69; x85])] [].

(** A device whose second write fails. *)
Definition device_write_fails : Device :=
  mkDevice true [(64, None); (-1, Some (errors_New "hid: write failed"))]
           [Ok (report [x90; x00])] [].

(** A device that signs: the second answer is a 64-byte signature. *)
Definition device_signs : Device :=
  mkDevice true []
    [Ok (report [x90; x00]);
     Ok (firstn 64 (match wrapCommandAPDU 64 TEZOS_CHANNEL (repeat x2a 64 ++ [x90; x00]) 64
                    with Ok f => f | _ => [] end));
     Ok (skipn 64 (match wrapCommandAPDU 64 TEZOS_CHANNEL (repeat x2a 64 ++ [x90; x00]) 64
                   with Ok f => f | _ => [] end))] [].

(* ================================================================= *)
(** * Part II. Theorems *)
(* ================================================================= *)

Arguments byte_of_Z : simpl never.
Arguments Z_of_byte : simpl never.
Arguments len : simpl never.
Arguments checksum4 : simpl never.

(* ----------------------------------------------------------------- *)
(** ** Bytes and slices *)

Lemma Z_of_byte_range (b : byte) : 0 <= Z_of_byte b < 256.
Proof.
  unfold Z_of_byte. pose proof (Byte.to_N_bounded b). lia.
Qed.

Lemma Z_of_byte_of_Z (z : Z) : Z_of_byte (byte_of_Z z) = z mod 256.
Proof.
  unfold byte_of_Z, Z_of_byte.
  pose proof (Z.mod_pos_bound z 256 eq_refl) as Hr.
  destruct (Byte.of_N (Z.to_N (z mod 256))) as [b|] eqn:E.
  - apply Byte.to_of_N in E. rewrite E. lia.
  - apply Byte.of_N_None_iff in E. lia.
Qed.

Lemma byte_of_Z_of_byte (b : byte) : byte_of_Z (Z_of_byte b) = b.
Proof.
  unfold byte_of_Z.
  rewrite Z.mod_small by apply Z_of_byte_range.
  unfold Z_of_byte. rewrite N2Z.id, Byte.of_to_N. reflexivity.
Qed.

Lemma Z_of_byte_inj (a b : byte) : Z_of_byte a = Z_of_byte b -> a = b.
Proof.
  intros H. rewrite <- (byte_of_Z_of_byte a), <- (byte_of_Z_of_byte b), H.
  reflexivity.
Qed.

Lemma byte_eqb_eq (a b : byte) : Byte.eqb a b = true <-> a = b.
Proof.
  split.
  - apply Byte.byte_dec_bl.
  - apply Byte.byte_dec_lb.
Qed.

Lemma bytes_Equal_refl (a : list byte) : bytes_Equal a a = true.
Proof.
  induction a as [|x a IH]; simpl; [reflexivity|].
  rewrite IH, andb_true_r. apply byte_eqb_eq. reflexivity.
Qed.

Lemma bytes_Equal_eq (a b : list byte) : bytes_Equal a b = true <-> a = b.
Proof.
  split.
  - revert b. induction a as [|x a IH]; intros [|y b]; simpl; try discriminate; auto.
    intros H. apply andb_prop in H as [H1 H2].
    apply byte_eqb_eq in H1. apply IH in H2. congruence.
  - intros ->. apply bytes_Equal_refl.
Qed.

Lemma len_app {A : Type} (a b : list A) : len (a ++ b) = len a + len b.
Proof. unfold len. rewrite length_app. lia. Qed.

Lemma len_nonneg {A : Type} (a : list A) : 0 <= len a.
Proof. unfold len. lia. Qed.

Lemma len_cons {A : Type} (x : A) (a : list A) : len (x :: a) = 1 + len a.
Proof. unfold len. simpl length. lia. Qed.

Lemma slice_ok {A : Type} (s : list A) (lo hi : Z) :
  0 <= lo <= hi -> hi <= len s ->
  slice s lo hi = Ok (firstn (Z.to_nat (hi - lo)) (skipn (Z.to_nat lo) s)).
Proof.
  intros H1 H2. unfold slice.
  replace ((0 <=? lo) && (lo <=? hi) && (hi <=? len s)) with true; [reflexivity|].
  symmetry. rewrite !andb_true_iff, !Z.leb_le. lia.
Qed.

Lemma slice_panic {A : Type} (s : list A) (lo hi : Z) :
  hi < lo -> slice s lo hi = Panic.
Proof.
  intros H. unfold slice.
  replace (lo <=? hi) with false by (symmetry; apply Z.leb_gt; lia).
  rewrite andb_false_r. reflexivity.
Qed.

Lemma len_nil {A : Type} : len (@nil A) = 0.
Proof. reflexivity. Qed.

Lemma len_firstn {A : Type} (n : Z) (l : list A) :
  0 <= n <= len l -> len (firstn (Z.to_nat n) l) = n.
Proof.
  unfold len. intros H. rewrite length_firstn. lia.
Qed.

Lemma len_skipn {A : Type} (n : Z) (l : list A) :
  0 <= n <= len l -> len (skipn (Z.to_nat n) l) = len l - n.
Proof.
  unfold len. intros H. rewrite length_skipn. lia.
Qed.

Lemma slice_at {A : Type} (a b c : list A) (lo hi : Z) :
  lo = len a -> hi = lo + len b -> slice (a ++ b ++ c) lo hi = Ok b.
Proof.
  intros -> ->. pose proof (len_nonneg a). pose proof (len_nonneg b).
  rewrite slice_ok; [|lia|rewrite !len_app; pose proof (len_nonneg c); lia].
  f_equal. unfold len.
  match goal with |- context [skipn ?n _] => replace n with (length a) by lia end.
  match goal with |- context [firstn ?n _] => replace n with (length b) by lia end.
  rewrite skipn_app, skipn_all, Nat.sub_diag. simpl.
  rewrite firstn_app, firstn_all, Nat.sub_diag. simpl. apply app_nil_r.
Qed.

Lemma index_at {A : Type} (a : list A) (x : A) (c : list A) (i : Z) :
  i = len a -> index (a ++ x :: c) i = Ok x.
Proof.
  intros ->. unfold index. rewrite len_app, len_cons.
  pose proof (len_nonneg a). pose proof (len_nonneg c).
  replace ((0 <=? len a) && (len a <? len a + (1 + len c))) with true
    by (symmetry; rewrite andb_true_iff, Z.leb_le, Z.ltb_lt; lia).
  unfold len. rewrite Nat2Z.id, nth_error_app2 by lia.
  rewrite Nat.sub_diag. reflexivity.
Qed.

Lemma firstn_plus {A : Type} (n m : nat) (l : list A) :
  firstn n l ++ firstn m (skipn n l) = firstn (n + m) l.
Proof.
  revert l. induction n as [|n IH]; intros l; [reflexivity|].
  destruct l as [|x l]; simpl.
  - rewrite firstn_nil. reflexivity.
  - rewrite IH. reflexivity.
Qed.

Lemma land_shiftl_small (a b n : Z) :
  0 <= n -> 0 <= a < 2 ^ n -> Z.land a (Z.shiftl b n) = 0.
Proof.
  intros Hn Ha. apply Z.bits_inj'. intros i Hi.
  rewrite Z.land_spec, Z.bits_0.
  destruct (Z.lt_ge_cases i n) as [Hlt|Hge].
  - rewrite Z.shiftl_spec_low by assumption. apply andb_false_r.
  - replace a with (a mod 2 ^ n) by (apply Z.mod_small; assumption).
    rewrite Z.mod_pow2_bits_high by lia. reflexivity.
Qed.

Lemma lor_shiftl_add (a b n : Z) :
  0 <= n -> 0 <= a < 2 ^ n -> Z.lor a (Z.shiftl b n) = a + b * 2 ^ n.
Proof.
  intros Hn Ha.
  rewrite <- Z.lxor_lor by (apply land_shiftl_small; assumption).
  rewrite <- Z.add_nocarry_lxor by (apply land_shiftl_small; assumption).
  rewrite Z.shiftl_mul_pow2 by assumption. reflexivity.
Qed.

Lemma Uint16_two (a b : byte) :
  Uint16 [a; b] = Ok (Z.lor (Z_of_byte b) (Z.shiftl (Z_of_byte a) 8)).
Proof. reflexivity. Qed.

Lemma Uint16_PutUint16 (v : Z) :
  0 <= v < 65536 -> Uint16 (PutUint16 v) = Ok v.
Proof.
  intros Hv. unfold PutUint16. rewrite Uint16_two. f_equal.
  rewrite !Z_of_byte_of_Z.
  rewrite lor_shiftl_add by (try lia; apply Z.mod_pos_bound; lia).
  rewrite Z.shiftr_div_pow2 by lia.
  change (2 ^ 8) with 256.
  rewrite (Z.mod_small (v / 256)) by (split; [apply Z.div_pos; lia | apply Z.div_lt_upper_bound; lia]).
  pose proof (Z.div_mod v 256). lia.
Qed.

Lemma len_PutUint16 (v : Z) : len (PutUint16 v) = 2.
Proof. reflexivity. Qed.

Lemma wrap_loop_unfold (fuel : nat) (channel command : list byte)
    (packetSize sequenceIdx offset : Z) (result : list byte) :
  wrap_loop fuel channel command packetSize sequenceIdx offset result =
  if offset =? len command then Ok result
  else
    match fuel with
    | O => OutOfFuel
    | S fuel' =>
        chunk <- slice command offset
                   (offset + (if len command - offset >? packetSize - 3 - extraHeaderSize
                              then packetSize - 3 - extraHeaderSize
                              else len command - offset)) ;;
        wrap_loop fuel' channel command packetSize (uint16 (sequenceIdx + 1))
          (offset + (if len command - offset >? packetSize - 3 - extraHeaderSize
                     then packetSize - 3 - extraHeaderSize
                     else len command - offset))
          ((((result ++ channel) ++ [x05]) ++ PutUint16 sequenceIdx) ++ chunk)
    end.
Proof. destruct fuel; reflexivity. Qed.

Lemma pad_loop_unfold (fuel : nat) (packetSize : Z) (result : list byte) :
  pad_loop fuel packetSize result =
  if Z.rem (len result) packetSize =? 0 then Ok result
  else
    match fuel with
    | O => OutOfFuel
    | S fuel' => pad_loop fuel' packetSize (result ++ [x00])
    end.
Proof. destruct fuel; reflexivity. Qed.

Lemma unwrap_loop_done (fuel : nat) (channel data : list byte)
    (packetSize responseLength sequenceIdx offset : Z) (result : list byte) :
  responseLength <= len result ->
  unwrap_loop fuel channel data packetSize responseLength sequenceIdx offset result
  = Ok result.
Proof.
  intros H. destruct fuel; simpl;
    replace (len result <? responseLength) with false
      by (symmetry; apply Z.ltb_ge; lia); reflexivity.
Qed.

(** The padding loop ends, within [packetSize] steps, on a multiple of the
    packet size. *)
Lemma pad_loop_ok (packetSize : Z) (k : nat) :
  0 < packetSize ->
  forall (fuel : nat) (result : list byte),
    (len result + Z.of_nat k) mod packetSize = 0 -> (k <= fuel)%nat ->
    exists zs, pad_loop fuel packetSize result = Ok (result ++ zs) /\
               len (result ++ zs) mod packetSize = 0.
Proof.
  intros Hp. induction k as [|k IH]; intros fuel result Hk Hf.
  - exists []. rewrite pad_loop_unfold, app_nil_r.
    rewrite Z.add_0_r in Hk.
    rewrite Z.rem_mod_nonneg by (pose proof (len_nonneg result); lia).
    split; [rewrite Hk; reflexivity|assumption].
  - rewrite pad_loop_unfold.
    rewrite Z.rem_mod_nonneg by (pose proof (len_nonneg result); lia).
    destruct (len result mod packetSize =? 0) eqn:E.
    + exists []. rewrite app_nil_r. apply Z.eqb_eq in E. split; [reflexivity|assumption].
    + destruct fuel as [|fuel]; [lia|].
      destruct (IH fuel (result ++ [x00])) as [zs [H1 H2]].
      * rewrite len_app. change (len [x00]) with 1.
        replace (len result + 1 + Z.of_nat k) with (len result + Z.of_nat (S k)) by lia.
        assumption.
      * lia.
      * exists ([x00] ++ zs). rewrite app_assoc. split; assumption.
Qed.

(* ----------------------------------------------------------------- *)
(** ** The model against values the source names *)

(** The constants derived for SHA-256 are those of FIPS 180-4, and the
    digest of "abc" starts as its appendix B.1 gives it. *)
Example sha256_known_values :
  length sha256_K = 64%nat /\
  firstn 2 sha256_K = [0x428a2f98; 0x71374491] /\
  nth 63 sha256_K 0 = 0xc67178f2 /\
  fst sha256_init = (0x6a09e667, 0xbb67ae85, 0x3c6ef372, 0xa54ff53a,
                     0x510e527f, 0x9b05688c, 0x1f83d9ab) /\
  snd sha256_init = 0x5be0cd19 /\
  firstn 4 (Sum256 (bytes_of_string "abc")) = bytes_of [0xba; 0x78; 0x16; 0xbf].
Proof. repeat apply conj; vm_compute; reflexivity. Qed.

(** ledger-app-tezos.go names the main-net chain id both ways:
    [MAINNET_CHAINID = 0x7A06A770] and [NetXdQprcVkpaWU]. *)
Example mainnet_chain_id :
  B58cencode (bytes_of [0x7A; 0x06; 0xA7; 0x70]) networkprefix
  = bytes_of_string "NetXdQprcVkpaWU".
Proof. vm_compute. reflexivity. Qed.

(** The address of the all-zero public key hash, as Tezos publishes it. *)
Example zero_key_hash_address :
  B58cencode (repeat x00 20) tz1prefix
  = bytes_of_string "tz1Ke2h7sDdakHJQh8WX4Z372du1KChsksyU".
Proof. vm_compute. reflexivity. Qed.

(** The path of the comment in [encodeBipPath], and back. *)
Example tezos_path_encoding :
  encodeBipPath (bytes_of_string "/44'/1729'/0'/0'") = Ok tezos_path /\
  DecodeBipPath 4 tezos_path = Ok (bytes_of_string "/44'/1729'/0'/0'").
Proof. split; vm_compute; reflexivity. Qed.

(* ----------------------------------------------------------------- *)
(** ** Status words *)

(** The status words [checkFailure] reports as success are exactly
    [0x9000], the words with high byte [0x61], and [0x6a84]. *)
Lemma checkFailure_success_iff (code : Z) :
  checkFailure code = None <->
  code = 0x9000 \/ Z.land code 0xFF00 = 0x6100 \/ code = 0x6a84.
Proof.
  unfold checkFailure.
  destruct (code =? 0x9000) eqn:E1; simpl.
  { apply Z.eqb_eq in E1. tauto. }
  destruct (Z.land code 0xFF00 =? 0x6100) eqn:E2; simpl.
  { apply Z.eqb_eq in E2. tauto. }
  apply Z.eqb_neq in E1. apply Z.eqb_neq in E2.
  split.
  - intros H. right. right.
    destruct code as [|p|p]; try discriminate.
    repeat (destruct p as [p|p|]; try discriminate H; try reflexivity).
  - intros [H|[H|H]]; try contradiction. subst code. reflexivity.
Qed.

(** C1 (the code departs from the claim).  The status word [0x6a84] is
    neither [0x9000] nor a word with high byte [0x61], yet [checkFailure]
    reports it as success: its [case] has an empty body, and a Go [switch]
    does not fall through to the [case 0x6a85] below it.  A fully
    reassembled response that ends in [6a 84] is therefore returned as a
    successful, empty payload, where the sibling code [0x6a85] gives the
    not-enough-space failure. *)
Theorem checkFailure_0x6a84_is_success :
  0x6a84 <> 0x9000 /\ Z.land 0x6a84 0xFF00 <> 0x6100 /\
  checkFailure 0x6a84 = None /\
  (forall code, checkFailure code = None ->
                code = 0x9000 \/ Z.land code 0xFF00 = 0x6100 \/ code = 0x6a84) /\
  checkFailure 0x6a85 = Some (errors_New "Not enough space?") /\
  (forall fuel, unwrapResponseAPDU fuel TEZOS_CHANNEL (report [x6a; x84]) 64 = Ok []) /\
  (forall fuel, unwrapResponseAPDU fuel TEZOS_CHANNEL (report [x6a; x85]) 64
                = Err (errors_New "Not enough space?")).
Proof.
  split; [discriminate|]. split; [discriminate|]. split; [reflexivity|].
  split; [intros code; apply checkFailure_success_iff|].
  split; [reflexivity|].
  split; intros fuel; destruct fuel; reflexivity.
Qed.

(* ----------------------------------------------------------------- *)
(** ** [wrapCommandAPDU]: packet sizes below the header *)

Lemma wrapCommandAPDU_guard (fuel : nat) (channel command : list byte) (packetSize : Z) :
  packetSize < 3 ->
  wrapCommandAPDU fuel channel command packetSize
  = Err (errors_New "Can't handle less than 3 bytes").
Proof.
  intros H. unfold wrapCommandAPDU.
  replace (packetSize <? 3) with true by (symmetry; apply Z.ltb_lt; lia).
  reflexivity.
Qed.

(** C9.  The guard of [wrapCommandAPDU] lets the packet sizes 3 to 6
    through; for them the size of the first chunk, [packetSize - 7], is
    negative, the slice [command[0 : packetSize - 7]] is out of range and
    the call panics, for every non-empty command. *)
Theorem wrapCommandAPDU_panics_below_header (fuel : nat)
    (channel command : list byte) (packetSize : Z) :
  3 <= packetSize <= 6 -> command <> [] ->
  (packetSize <? 3) = false /\
  packetSize - 5 - extraHeaderSize < 0 /\
  slice command 0 (0 + (packetSize - 5 - extraHeaderSize)) = Panic /\
  wrapCommandAPDU fuel channel command packetSize = Panic.
Proof.
  intros Hs _. unfold extraHeaderSize.
  assert (Hg : (packetSize <? 3) = false) by (apply Z.ltb_ge; lia).
  assert (Hp : slice command 0 (0 + (packetSize - 5 - 2)) = Panic)
    by (apply slice_panic; lia).
  repeat split; try assumption; try lia.
  unfold wrapCommandAPDU, extraHeaderSize. rewrite Hg.
  pose proof (len_nonneg command) as Hl.
  replace (len command >? packetSize - 5 - 2) with true
    by (symmetry; apply Z.gtb_lt; lia).
  cbv zeta. rewrite Hp. reflexivity.
Qed.

Lemma wrapCommandAPDU_panics_below_header_witness :
  (3 <? 3) = false /\
  3 - 5 - extraHeaderSize < 0 /\
  slice [x80] 0 (0 + (3 - 5 - extraHeaderSize)) = Panic /\
  wrapCommandAPDU 10 TEZOS_CHANNEL [x80] 3 = Panic.
Proof.
  apply (wrapCommandAPDU_panics_below_header 10 TEZOS_CHANNEL [x80] 3).
  - lia.
  - discriminate.
Defined.

(* ----------------------------------------------------------------- *)
(** ** Partial frames *)

(** A buffer of at least twelve bytes that starts with a valid header and
    is shorter than [7 + responseLength] yields [ErrMoreData]. *)
Lemma unwrapResponseAPDU_more_data (fuel : nat) (channel rest : list byte)
    (packetSize responseLength : Z) :
  len channel = 2 ->
  0 <= responseLength < 65536 ->
  12 <= 7 + len rest ->
  7 + len rest < 7 + responseLength ->
  unwrapResponseAPDU fuel channel
    (channel ++ [x05] ++ PutUint16 0 ++ PutUint16 responseLength ++ rest)
    packetSize
  = Err ErrMoreData.
Proof.
  intros Hchannel HL H12 Hshort.
  set (data := channel ++ [x05] ++ PutUint16 0 ++ PutUint16 responseLength ++ rest).
  assert (Hdata : len data = 7 + len rest).
  { unfold data. rewrite !len_app, Hchannel, !len_PutUint16.
    change (len [x05]) with 1. lia. }
  assert (S1 : slice data 0 (0 + 2) = Ok channel).
  { unfold data. apply (slice_at [] channel); [reflexivity|lia]. }
  assert (S2 : index data (0 + 2) = Ok x05).
  { unfold data. apply index_at. lia. }
  assert (S3 : slice data (0 + 2 + 1) (0 + 2 + 1 + 2) = Ok (PutUint16 0)).
  { unfold data.
    replace (channel ++ [x05] ++ PutUint16 0 ++ PutUint16 responseLength ++ rest)
      with ((channel ++ [x05]) ++ PutUint16 0 ++ PutUint16 responseLength ++ rest)
      by (rewrite <- !app_assoc; reflexivity).
    apply slice_at.
    - rewrite len_app, Hchannel. reflexivity.
    - reflexivity. }
  assert (S4 : slice data (0 + 2 + 1 + 2) (0 + 2 + 1 + 2 + 2)
               = Ok (PutUint16 responseLength)).
  { unfold data.
    replace (channel ++ [x05] ++ PutUint16 0 ++ PutUint16 responseLength ++ rest)
      with ((channel ++ [x05] ++ PutUint16 0) ++ PutUint16 responseLength ++ rest)
      by (rewrite <- !app_assoc; reflexivity).
    apply slice_at.
    - rewrite !len_app, Hchannel. reflexivity.
    - reflexivity. }
  unfold unwrapResponseAPDU. cbv zeta. fold data.
  replace (len data =? 0) with false by (symmetry; apply Z.eqb_neq; lia).
  replace (len data <? 5 + extraHeaderSize + 5) with false
    by (symmetry; apply Z.ltb_ge; unfold extraHeaderSize; lia).
  cbn [orb].
  rewrite S1. cbn [bind]. rewrite bytes_Equal_refl. cbn [negb].
  rewrite S2. cbn [bind]. change (bytes_Equal [x05] [x05]) with true. cbn [negb].
  rewrite S3. cbn [bind]. rewrite Uint16_PutUint16 by lia. cbn [bind].
  change (negb (0 =? 0)) with false. cbv iota.
  rewrite S4. cbn [bind]. rewrite Uint16_PutUint16 by lia. cbn [bind].
  replace (len data <? 5 + extraHeaderSize + responseLength) with true
    by (symmetry; apply Z.ltb_lt; unfold extraHeaderSize; lia).
  reflexivity.
Qed.

(** C2 (the code departs from the claim).  With the first two of the three
    packets of [frame120] the buffer holds 128 bytes, which is not less
    than 7 + 120, so the test that returns [ErrMoreData] is passed; the
    loop then finds [offset == len(data)] after the second packet and
    returns the error "No data", which [Ledger.Read] treats as fatal: it
    does not read the third packet.  With one packet, and with all three,
    the function does what the claim says. *)
Theorem unwrapResponseAPDU_partial_frame_fatal :
  wrapCommandAPDU 64 TEZOS_CHANNEL response120 64 = Ok frame120 /\
  len frame120 = 192 /\
  (forall fuel, unwrapResponseAPDU fuel TEZOS_CHANNEL (firstn 64 frame120) 64
                = Err ErrMoreData) /\
  (forall fuel, unwrapResponseAPDU (S (S fuel)) TEZOS_CHANNEL (firstn 128 frame120) 64
                = Err (errors_New "No data")) /\
  (forall fuel, unwrapResponseAPDU (S (S fuel)) TEZOS_CHANNEL frame120 64
                = Ok (repeat x07 118)) /\
  (forall fuel,
      fst (Ledger_Read (S (S (S fuel))) TEZOS_CHANNEL
             (mkDevice true []
                [Ok (firstn 64 frame120); Ok (firstn 64 (skipn 64 frame120));
                 Ok (skipn 128 frame120)] []))
      = Err (errors_Wrap (errors_New "No data") "Failed to decode response")).
Proof.
  repeat apply conj; try (intros fuel; destruct fuel); vm_compute; reflexivity.
Qed.

(* ----------------------------------------------------------------- *)
(** ** Framing round trip *)

(** C3 fails here: the empty payload with the status word [0x9000], wrapped at packet
    size 9, is one packet of nine bytes; [unwrapResponseAPDU] refuses any
    buffer shorter than twelve bytes, so the frame does not unwrap. *)
Lemma roundtrip_fails_at_packet_size_9 :
  (forall fuel, wrapCommandAPDU fuel TEZOS_CHANNEL ([] ++ [x90; x00]) 9
                = Ok [x01; x01; x05; x00; x00; x00; x02; x90; x00]) /\
  (forall fuel, unwrapResponseAPDU fuel TEZOS_CHANNEL
                  [x01; x01; x05; x00; x00; x00; x02; x90; x00] 9
                = Err (errors_New "No data")).
Proof.
  split; intros fuel; destruct fuel; vm_compute; reflexivity.
Qed.

Lemma unwrap_loop_unfold (fuel : nat) (channel data : list byte)
    (packetSize responseLength sequenceIdx offset : Z) (result : list byte) :
  unwrap_loop (S fuel) channel data packetSize responseLength sequenceIdx offset result =
  if len result <? responseLength then
    if offset =? len data then Err (errors_New "No data")
    else
      packedChan <- slice data offset (offset + 2) ;;
      if negb (bytes_Equal packedChan channel)
      then Err (errors_New "Invalid channel")
      else
        tag <- index data (offset + 2) ;;
        if negb (bytes_Equal [tag] [x05])
        then Err (errors_New "Invalid tag")
        else
          seqBytes <- slice data (offset + 2 + 1) (offset + 2 + 1 + 2) ;;
          packedSeq <- Uint16 seqBytes ;;
          if negb (packedSeq =? sequenceIdx + 1)
          then Err (errors_New "Invalid sequence")
          else
            chunk <- slice data (offset + 2 + 1 + 2)
                       (offset + 2 + 1 + 2
                        + (if responseLength - len result >? packetSize - 3 - extraHeaderSize
                           then packetSize - 3 - extraHeaderSize
                           else responseLength - len result)) ;;
            unwrap_loop fuel channel data packetSize responseLength
              (sequenceIdx + 1)
              (offset + 2 + 1 + 2
               + (if responseLength - len result >? packetSize - 3 - extraHeaderSize
                  then packetSize - 3 - extraHeaderSize
                  else responseLength - len result))
              (result ++ chunk)
  else Ok result.
Proof. reflexivity. Qed.

Lemma firstn_len {A : Type} (l : list A) : firstn (Z.to_nat (len l)) l = l.
Proof. unfold len. rewrite Nat2Z.id. apply firstn_all. Qed.

Section RoundTrip.

Variables (channel command : list byte) (packetSize : Z).
Hypothesis Hchannel : len channel = 2.
Hypothesis Hsize : 6 <= packetSize.
Hypothesis Hcommand : len command <= 65535.

Lemma cont_size_bounds (done : Z) :
  0 <= done < len command -> 1 <= cont_size command packetSize done <= len command - done.
Proof.
  intros H. unfold cont_size, extraHeaderSize.
  destruct (len command - done >? packetSize - 3 - 2) eqn:E.
  - apply Z.gtb_lt in E. lia.
  - rewrite Z.gtb_ltb in E. apply Z.ltb_ge in E. lia.
Qed.

(** One continuation packet, read by the reassembly loop. *)
Lemma unwrap_loop_packet (fuel : nat) (pre chunk rest : list byte)
    (sequenceIdx done : Z) :
  0 <= done < len command ->
  0 <= sequenceIdx + 1 < 65536 ->
  len chunk = cont_size command packetSize done ->
  unwrap_loop (S fuel) channel
    (pre ++ channel ++ [x05] ++ PutUint16 (sequenceIdx + 1) ++ chunk ++ rest)
    packetSize (len command) sequenceIdx (len pre)
    (firstn (Z.to_nat done) command)
  = unwrap_loop fuel channel
      (pre ++ channel ++ [x05] ++ PutUint16 (sequenceIdx + 1) ++ chunk ++ rest)
      packetSize (len command) (sequenceIdx + 1)
      (len pre + 2 + 1 + 2 + cont_size command packetSize done)
      (firstn (Z.to_nat done) command ++ chunk).
Proof.
  intros Hdone Hseq Hchunk.
  set (data := pre ++ channel ++ [x05] ++ PutUint16 (sequenceIdx + 1) ++ chunk ++ rest).
  pose proof (len_nonneg pre) as Hpre.
  pose proof (len_nonneg rest) as Hrest.
  assert (Hres : len (firstn (Z.to_nat done) command) = done)
    by (apply len_firstn; lia).
  assert (Hdata : len data = len pre + 5 + len chunk + len rest).
  { unfold data. rewrite !len_app, Hchannel, len_PutUint16.
    change (len [x05]) with 1. lia. }
  assert (S1 : slice data (len pre) (len pre + 2) = Ok channel).
  { unfold data. apply slice_at; lia. }
  assert (S2 : index data (len pre + 2) = Ok x05).
  { unfold data. rewrite app_assoc. apply index_at. rewrite len_app. lia. }
  assert (S3 : slice data (len pre + 2 + 1) (len pre + 2 + 1 + 2)
               = Ok (PutUint16 (sequenceIdx + 1))).
  { unfold data.
    replace (pre ++ channel ++ [x05] ++ PutUint16 (sequenceIdx + 1) ++ chunk ++ rest)
      with ((pre ++ channel ++ [x05]) ++ PutUint16 (sequenceIdx + 1) ++ chunk ++ rest)
      by (rewrite <- !app_assoc; reflexivity).
    apply slice_at.
    - rewrite !len_app, Hchannel. change (len [x05]) with 1. lia.
    - rewrite len_PutUint16. lia. }
  assert (S4 : slice data (len pre + 2 + 1 + 2)
                 (len pre + 2 + 1 + 2 + cont_size command packetSize done) = Ok chunk).
  { unfold data.
    replace (pre ++ channel ++ [x05] ++ PutUint16 (sequenceIdx + 1) ++ chunk ++ rest)
      with ((pre ++ channel ++ [x05] ++ PutUint16 (sequenceIdx + 1)) ++ chunk ++ rest)
      by (rewrite <- !app_assoc; reflexivity).
    apply slice_at.
    - rewrite !len_app, Hchannel, len_PutUint16. change (len [x05]) with 1. lia.
    - lia. }
  rewrite unwrap_loop_unfold. rewrite Hres.
  replace (done <? len command) with true by (symmetry; apply Z.ltb_lt; lia).
  replace (len pre =? len data) with false
    by (symmetry; apply Z.eqb_neq; pose proof (cont_size_bounds done Hdone); lia).
  rewrite S1. cbn [bind]. rewrite bytes_Equal_refl. cbn [negb].
  rewrite S2. cbn [bind]. change (bytes_Equal [x05] [x05]) with true. cbn [negb].
  rewrite S3. cbn [bind]. rewrite Uint16_PutUint16 by lia. cbn [bind].
  rewrite Z.eqb_refl. cbn [negb].
  fold (cont_size command packetSize done). rewrite S4. cbn [bind]. reflexivity.
Qed.

(** The continuation loop of [wrapCommandAPDU] and the reassembly loop of
    [unwrapResponseAPDU], from the same point of the command on: the
    first writes packets that the second reads back. *)
Lemma wrap_unwrap_loops (fuel : nat) :
  forall (sequenceIdx done : Z) (result : list byte),
    1 <= sequenceIdx <= done -> done <= len command ->
    len command - done <= Z.of_nat fuel ->
    exists out,
      wrap_loop fuel channel command packetSize sequenceIdx done result
      = Ok (result ++ out) /\
      len command - done + (if done <? len command then 5 else 0) <= len out /\
      forall (ufuel : nat) (pre post : list byte),
        len command - done <= Z.of_nat ufuel ->
        unwrap_loop ufuel channel (pre ++ out ++ post) packetSize
          (len command) (sequenceIdx - 1) (len pre)
          (firstn (Z.to_nat done) command)
        = Ok command.
Proof.
  induction fuel as [|fuel IH]; intros sequenceIdx done result Hseq Hdone Hfuel.
  - assert (done = len command) by lia. subst done.
    exists []. rewrite wrap_loop_unfold, Z.eqb_refl, app_nil_r.
    split; [reflexivity|]. rewrite Z.ltb_irrefl. split; [change (len (@nil byte)) with 0; lia|].
    intros ufuel pre post _.
    rewrite firstn_len. apply unwrap_loop_done. lia.
  - destruct (Z.eq_dec done (len command)) as [E|E].
    + subst done.
      exists []. rewrite wrap_loop_unfold, Z.eqb_refl, app_nil_r.
      split; [reflexivity|]. rewrite Z.ltb_irrefl. split; [change (len (@nil byte)) with 0; lia|].
      intros ufuel pre post _.
      rewrite firstn_len. apply unwrap_loop_done. lia.
    + assert (Hd : 0 <= done < len command) by lia.
      pose proof (cont_size_bounds done Hd) as Hb.
      rewrite wrap_loop_unfold.
      replace (done =? len command) with false by (symmetry; apply Z.eqb_neq; assumption).
      fold (cont_size command packetSize done).
      rewrite slice_ok by lia. cbn [bind].
      set (chunk := firstn (Z.to_nat (done + cont_size command packetSize done - done))
                           (skipn (Z.to_nat done) command)).
      assert (Hchunk : len chunk = cont_size command packetSize done).
      { unfold chunk.
        replace (done + cont_size command packetSize done - done) with (cont_size command packetSize done) by lia.
        apply len_firstn. rewrite len_skipn by lia. lia. }
      assert (Hu : uint16 (sequenceIdx + 1) = sequenceIdx + 1).
      { unfold uint16. apply Z.mod_small. lia. }
      rewrite Hu.
      destruct (IH (sequenceIdx + 1) (done + cont_size command packetSize done)
                   ((((result ++ channel) ++ [x05]) ++ PutUint16 sequenceIdx) ++ chunk))
        as [out [Hw [Hl Hr]]]; try lia.
      exists (channel ++ [x05] ++ PutUint16 sequenceIdx ++ chunk ++ out).
      split; [|split].
      * rewrite Hw. f_equal. rewrite <- !app_assoc. reflexivity.
      * rewrite !len_app, Hchannel, len_PutUint16, Hchunk.
        change (len [x05]) with 1.
        replace (done <? len command) with true by (symmetry; apply Z.ltb_lt; lia).
        destruct (done + cont_size command packetSize done <? len command); lia.
      * intros ufuel pre post Hufuel.
        destruct ufuel as [|ufuel]; [lia|].
        replace ((channel ++ [x05] ++ PutUint16 sequenceIdx ++ chunk ++ out) ++ post)
          with (channel ++ [x05] ++ PutUint16 (sequenceIdx - 1 + 1) ++ chunk ++ out ++ post)
          by (replace (sequenceIdx - 1 + 1) with sequenceIdx by lia;
              rewrite <- !app_assoc; reflexivity).
        rewrite unwrap_loop_packet by (try assumption; lia).
        replace (sequenceIdx - 1 + 1) with sequenceIdx by lia.
        specialize (Hr ufuel
                       (pre ++ channel ++ [x05] ++ PutUint16 sequenceIdx ++ chunk) post).
        replace (sequenceIdx + 1 - 1) with sequenceIdx in Hr by lia.
        replace (len (pre ++ channel ++ [x05] ++ PutUint16 sequenceIdx ++ chunk))
          with (len pre + 2 + 1 + 2 + cont_size command packetSize done) in Hr
          by (rewrite !len_app, Hchannel, len_PutUint16, Hchunk;
              change (len [x05]) with 1; lia).
        replace (firstn (Z.to_nat (done + cont_size command packetSize done)) command)
          with (firstn (Z.to_nat done) command ++ chunk) in Hr.
        2:{ unfold chunk.
            replace (done + cont_size command packetSize done - done) with (cont_size command packetSize done) by lia.
            rewrite firstn_plus. f_equal. lia. }
        rewrite <- Hr by lia. f_equal.
        rewrite <- !app_assoc. reflexivity.
Qed.

End RoundTrip.

(** The first packet, read by [unwrapResponseAPDU]: the header is
    accepted and the reassembly loop is entered with the first chunk. *)
Lemma unwrapResponseAPDU_first_packet (fuel : nat)
    (channel chunk rest : list byte) (packetSize responseLength : Z) :
  len channel = 2 ->
  0 <= responseLength < 65536 ->
  len chunk = (if responseLength >? packetSize - 5 - extraHeaderSize
               then packetSize - 5 - extraHeaderSize else responseLength) ->
  12 <= 7 + len chunk + len rest ->
  7 + responseLength <= 7 + len chunk + len rest ->
  unwrapResponseAPDU fuel channel
    (channel ++ [x05] ++ PutUint16 0 ++ PutUint16 responseLength ++ chunk ++ rest)
    packetSize
  = result <- unwrap_loop fuel channel
                (channel ++ [x05] ++ PutUint16 0 ++ PutUint16 responseLength
                   ++ chunk ++ rest)
                packetSize responseLength 0 (7 + len chunk) chunk ;;
    hi <- index result (len result - 2) ;;
    lo <- index result (len result - 2 + 1) ;;
    match checkFailure (Z.shiftl (Z_of_byte hi) 8 + Z_of_byte lo) with
    | Some err => Err err
    | None => slice result 0 (len result - 2)
    end.
Proof.
  intros Hchannel HL Hchunk H12 Hall.
  set (data := channel ++ [x05] ++ PutUint16 0 ++ PutUint16 responseLength ++ chunk ++ rest).
  assert (Hdata : len data = 7 + len chunk + len rest).
  { unfold data. rewrite !len_app, Hchannel, !len_PutUint16.
    change (len [x05]) with 1. lia. }
  assert (S1 : slice data 0 (0 + 2) = Ok channel).
  { unfold data. apply (slice_at [] channel); [reflexivity|lia]. }
  assert (S2 : index data (0 + 2) = Ok x05).
  { unfold data. apply index_at. lia. }
  assert (S3 : slice data (0 + 2 + 1) (0 + 2 + 1 + 2) = Ok (PutUint16 0)).
  { unfold data.
    replace (channel ++ [x05] ++ PutUint16 0 ++ PutUint16 responseLength ++ chunk ++ rest)
      with ((channel ++ [x05]) ++ PutUint16 0 ++ PutUint16 responseLength ++ chunk ++ rest)
      by (rewrite <- !app_assoc; reflexivity).
    apply slice_at.
    - rewrite len_app, Hchannel. reflexivity.
    - reflexivity. }
  assert (S4 : slice data (0 + 2 + 1 + 2) (0 + 2 + 1 + 2 + 2)
               = Ok (PutUint16 responseLength)).
  { unfold data.
    replace (channel ++ [x05] ++ PutUint16 0 ++ PutUint16 responseLength ++ chunk ++ rest)
      with ((channel ++ [x05] ++ PutUint16 0) ++ PutUint16 responseLength ++ chunk ++ rest)
      by (rewrite <- !app_assoc; reflexivity).
    apply slice_at.
    - rewrite !len_app, Hchannel. reflexivity.
    - reflexivity. }
  assert (S5 : slice data (0 + 2 + 1 + 2 + 2) (0 + 2 + 1 + 2 + 2 + len chunk) = Ok chunk).
  { unfold data.
    replace (channel ++ [x05] ++ PutUint16 0 ++ PutUint16 responseLength ++ chunk ++ rest)
      with ((channel ++ [x05] ++ PutUint16 0 ++ PutUint16 responseLength) ++ chunk ++ rest)
      by (rewrite <- !app_assoc; reflexivity).
    apply slice_at.
    - rewrite !len_app, Hchannel. reflexivity.
    - reflexivity. }
  unfold unwrapResponseAPDU. cbv zeta. fold data.
  pose proof (len_nonneg chunk). pose proof (len_nonneg rest).
  replace (len data =? 0) with false by (symmetry; apply Z.eqb_neq; lia).
  replace (len data <? 5 + extraHeaderSize + 5) with false
    by (symmetry; apply Z.ltb_ge; unfold extraHeaderSize; lia).
  cbn [orb].
  rewrite S1. cbn [bind]. rewrite bytes_Equal_refl. cbn [negb].
  rewrite S2. cbn [bind]. change (bytes_Equal [x05] [x05]) with true. cbn [negb].
  rewrite S3. cbn [bind]. rewrite Uint16_PutUint16 by lia. cbn [bind].
  change (negb (0 =? 0)) with false. cbv iota.
  rewrite S4. cbn [bind]. rewrite Uint16_PutUint16 by lia. cbn [bind].
  replace (len data <? 5 + extraHeaderSize + responseLength) with false
    by (symmetry; apply Z.ltb_ge; unfold extraHeaderSize; lia).
  rewrite <- Hchunk. rewrite S5. cbn [bind].
  replace (0 + 2 + 1 + 2 + 2 + len chunk) with (7 + len chunk) by lia.
  reflexivity.
Qed.

(** What [wrapCommandAPDU] writes for a command of [responseLength] bytes:
    the header, the first chunk, the continuation packets [out] and the
    padding [zs]; the continuation packets are those the reassembly loop
    reads back. *)
Lemma wrapCommandAPDU_frame (fuel : nat) (channel command : list byte)
    (packetSize : Z) :
  len channel = 2 ->
  1 <= len command <= 65535 ->
  8 <= packetSize ->
  len command + packetSize <= Z.of_nat fuel ->
  let blockSize := if len command >? packetSize - 5 - extraHeaderSize
                   then packetSize - 5 - extraHeaderSize else len command in
  let chunk := firstn (Z.to_nat blockSize) command in
  exists out zs,
    wrapCommandAPDU fuel channel command packetSize
    = Ok (channel ++ [x05] ++ PutUint16 0 ++ PutUint16 (len command)
            ++ chunk ++ out ++ zs) /\
    len chunk = blockSize /\
    len command - blockSize + (if blockSize <? len command then 5 else 0) <= len out /\
    (7 + len chunk + len (out ++ zs)) mod packetSize = 0 /\
    forall (ufuel : nat) (pre post : list byte),
      len command - blockSize <= Z.of_nat ufuel ->
      unwrap_loop ufuel channel (pre ++ out ++ post) packetSize
        (len command) 0 (len pre) chunk
      = Ok command.
Proof.
  intros Hchannel HL Hsize Hfuel blockSize chunk.
  assert (Hb : 1 <= blockSize <= len command).
  { unfold blockSize, extraHeaderSize.
    destruct (len command >? packetSize - 5 - 2) eqn:E.
    - apply Z.gtb_lt in E. lia.
    - lia. }
  assert (Hchunk : len chunk = blockSize) by (apply len_firstn; lia).
  assert (S0 : slice command 0 (0 + blockSize) = Ok chunk).
  { rewrite slice_ok by lia. unfold chunk. simpl skipn.
    replace (0 + blockSize - 0) with blockSize by lia. reflexivity. }
  assert (Hu : uint16 (len command) = len command)
    by (unfold uint16; apply Z.mod_small; lia).
  unfold wrapCommandAPDU.
  replace (packetSize <? 3) with false by (symmetry; apply Z.ltb_ge; lia).
  cbv zeta. fold blockSize. rewrite S0. cbn [bind].
  change (uint16 (0 + 1)) with 1. rewrite Hu, app_nil_l.
  replace (0 + blockSize) with blockSize by lia.
  match goal with
  | |- context [wrap_loop _ _ _ _ _ _ ?r] =>
      destruct (wrap_unwrap_loops channel command packetSize Hchannel
                  ltac:(lia) ltac:(lia) fuel 1 blockSize r)
        as [out [Hw [Hout Hr]]]; try lia
  end.
  rewrite Hw. cbn [bind].
  match goal with
  | |- context [pad_loop _ _ ?body] =>
      destruct (pad_loop_ok packetSize (Z.to_nat ((- len body) mod packetSize))
                  ltac:(lia) fuel body) as [zs [Hpad Hmod]]
  end.
  { match goal with
    | |- context [(- ?l) mod _] =>
        pose proof (Z.mod_pos_bound (- l) packetSize ltac:(lia));
        rewrite Z2Nat.id by lia;
        rewrite Zplus_mod_idemp_r; replace (l + - l) with 0 by lia
    end.
    apply Zmod_0_l. }
  { match goal with
    | |- context [(- ?l) mod _] =>
        pose proof (Z.mod_pos_bound (- l) packetSize ltac:(lia))
    end. lia. }
  exists out, zs. rewrite Hpad.
  split; [f_equal; rewrite <- !app_assoc; reflexivity|].
  split; [assumption|]. split; [assumption|]. split.
  - rewrite <- Hmod. f_equal.
    rewrite !len_app, Hchannel, !len_PutUint16. change (len [x05]) with 1. lia.
  - intros ufuel pre post Hufuel.
    specialize (Hr ufuel pre post Hufuel).
    replace (1 - 1) with 0 in Hr by lia. exact Hr.
Qed.

(** C3, as the code has it.  A payload of at most 65533 bytes, followed by
    the status word [0x9000] and wrapped over a two-byte channel with a
    packet size of at least 8, unwraps to the payload, provided the
    wrapped frame reaches the twelve bytes [unwrapResponseAPDU] demands:
    that is so for every packet size from 12 on, for the packet size 8,
    and for the sizes 9 to 11 once the payload does not fit the first
    packet. *)
Theorem framing_round_trip (fuel : nat) (channel payload : list byte)
    (packetSize : Z) :
  len channel = 2 ->
  len payload <= 65533 ->
  8 <= packetSize ->
  12 <= packetSize \/ packetSize < len payload + 9 ->
  len payload + 2 + packetSize <= Z.of_nat fuel ->
  exists frame,
    wrapCommandAPDU fuel channel (payload ++ [x90; x00]) packetSize = Ok frame /\
    unwrapResponseAPDU fuel channel frame packetSize = Ok payload.
Proof.
  intros Hchannel Hpayload Hsize Hlong Hfuel.
  set (command := payload ++ [x90; x00]).
  pose proof (len_nonneg payload) as Hp0.
  assert (HL : len command = len payload + 2).
  { unfold command. rewrite len_app. reflexivity. }
  destruct (wrapCommandAPDU_frame fuel channel command packetSize Hchannel
              ltac:(lia) Hsize ltac:(lia))
    as [out [zs [Hw [Hchunk [Hout [Hmod Hr]]]]]].
  set (blockSize := if len command >? packetSize - 5 - extraHeaderSize
                    then packetSize - 5 - extraHeaderSize else len command) in *.
  set (chunk := firstn (Z.to_nat blockSize) command) in *.
  assert (Hb : 1 <= blockSize <= len command).
  { unfold blockSize, extraHeaderSize.
    destruct (len command >? packetSize - 5 - 2) eqn:E.
    - apply Z.gtb_lt in E. lia.
    - lia. }
  eexists. split; [exact Hw|].
  pose proof (len_nonneg zs) as Hzs. pose proof (len_nonneg out) as Hout0.
  assert (Hlen : 7 + len command <= 7 + len chunk + len (out ++ zs)).
  { rewrite len_app. destruct (blockSize <? len command); lia. }
  assert (H12 : 12 <= 7 + len chunk + len (out ++ zs)).
  { destruct Hlong as [Hl|Hl].
    - (* a positive multiple of the packet size *)
      apply Z.mod_divide in Hmod; [|lia]. destruct Hmod as [q Hq].
      assert (0 < q) by nia. nia.
    - (* the payload overflows the first packet *)
      assert (E : blockSize = packetSize - 7).
      { unfold blockSize, extraHeaderSize.
        replace (len command >? packetSize - 5 - 2) with true
          by (symmetry; apply Z.gtb_lt; lia). lia. }
      rewrite len_app.
      replace (blockSize <? len command) with true in Hout
        by (symmetry; apply Z.ltb_lt; lia).
      lia. }
  rewrite unwrapResponseAPDU_first_packet; try assumption; try lia.
  specialize (Hr fuel (channel ++ [x05] ++ PutUint16 0 ++ PutUint16 (len command) ++ chunk)
                 zs ltac:(lia)).
  replace (len (channel ++ [x05] ++ PutUint16 0 ++ PutUint16 (len command) ++ chunk))
    with (7 + len chunk) in Hr
    by (rewrite !len_app, Hchannel, !len_PutUint16; change (len [x05]) with 1; lia).
  rewrite <- !app_assoc in Hr. rewrite Hr. cbn [bind].
  rewrite HL. replace (len payload + 2 - 2) with (len payload) by lia.
  unfold command.
  rewrite (index_at payload x90 [x00]) by reflexivity. cbn [bind].
  replace (payload ++ [x90; x00]) with ((payload ++ [x90]) ++ [x00])
    by (rewrite <- app_assoc; reflexivity).
  rewrite (index_at (payload ++ [x90]) x00 []) by (rewrite len_app; reflexivity).
  cbn [bind].
  change (checkFailure (Z.shiftl (Z_of_byte x90) 8 + Z_of_byte x00)) with (@None error).
  rewrite <- app_assoc.
  apply (slice_at [] payload [x90; x00]); [reflexivity|lia].
Qed.

Lemma framing_round_trip_witness :
  exists frame,
    wrapCommandAPDU 80 TEZOS_CHANNEL ([x01; x02; x02; x09] ++ [x90; x00]) 64 = Ok frame /\
    unwrapResponseAPDU 80 TEZOS_CHANNEL frame 64 = Ok [x01; x02; x02; x09].
Proof.
  apply (framing_round_trip 80 TEZOS_CHANNEL [x01; x02; x02; x09] 64).
  - reflexivity.
  - vm_compute. discriminate.
  - lia.
  - left. lia.
  - vm_compute. discriminate.
Defined.

(* ----------------------------------------------------------------- *)
(** ** [B58cdecode] and the error of [decode] *)

Lemma decode_error_is_empty (encoded : list byte) :
  snd (decode encoded) <> None -> fst (decode encoded) = [].
Proof.
  unfold decode.
  destruct (b58decode encoded) as [dataBytes [err|]]; [reflexivity|].
  destruct (len dataBytes <=? 4); [reflexivity|].
  match goal with |- context [if ?c then _ else _] => destruct c end;
    simpl; congruence.
Qed.

(** [B58cdecode] has no error to return: whatever the text, it yields
    bytes or panics. *)
Lemma B58cdecode_never_errors (payload prefix : list byte) (e : error) :
  B58cdecode payload prefix <> Err e.
Proof.
  unfold B58cdecode. destruct (decode payload) as [b58c err].
  unfold slice.
  match goal with |- context [if ?c then _ else _] => destruct c end;
    discriminate.
Qed.

(** When [decode] fails, [B58cdecode] returns the empty slice for an empty
    prefix and panics on [b58c[len(prefix):]] otherwise. *)
Lemma B58cdecode_on_decode_error (payload prefix : list byte) :
  snd (decode payload) <> None ->
  B58cdecode payload prefix = if len prefix =? 0 then Ok [] else Panic.
Proof.
  intros H. apply decode_error_is_empty in H.
  unfold B58cdecode. destruct (decode payload) as [b58c err].
  simpl in H. subst b58c. unfold slice.
  pose proof (len_nonneg prefix) as Hp.
  change (len (@nil byte)) with 0.
  destruct (len prefix =? 0) eqn:E.
  - apply Z.eqb_eq in E. rewrite E. reflexivity.
  - apply Z.eqb_neq in E.
    replace (len prefix <=? 0) with false by (symmetry; apply Z.leb_gt; lia).
    rewrite andb_false_r. reflexivity.
Qed.

(** C4 (the code departs from the claim).  [decode] reports a character
    outside the alphabet and a checksum that does not match, but
    [B58cdecode] drops that error ([b58c, _ := decode(payload)]) and
    slices the empty result: with a version prefix the call panics with
    a slice-bounds fault, with an empty prefix it returns the empty slice
    as if it were data.  In neither case does the caller get the error.
    [decode] itself accepts some characters outside the alphabet:
    [b58decode] ranges over code points and looks up [byte(value)], so
    U+014E, whose low byte is that of ['N'], is read as ['N']. *)
Theorem B58cdecode_drops_decode_error :
  (forall payload prefix e, B58cdecode payload prefix <> Err e) /\
  (forall payload prefix,
      snd (decode payload) <> None ->
      B58cdecode payload prefix = if len prefix =? 0 then Ok [] else Panic) /\
  snd (decode (bytes_of_string "0"))
    = Some (errors_New "character not found in alphabet") /\
  B58cdecode (bytes_of_string "0") networkprefix = Panic /\
  B58cdecode (bytes_of_string "0") [] = Ok [] /\
  B58cdecode (bytes_of_string "NetXdQprcVkpaWU") networkprefix
    = Ok (bytes_of [0x7A; 0x06; 0xA7; 0x70]) /\
  snd (decode (bytes_of_string "NetXdQprcVkpaWV"))
    = Some (errors_New "data and checksum don't match") /\
  B58cdecode (bytes_of_string "NetXdQprcVkpaWV") networkprefix = Panic /\
  B58cdecode (bytes_of_string "NetXdQprcVkpaWV") [] = Ok [] /\
  utf8_runes (bytes_of [0xC5; 0x8E]) = [0x14E] /\
  decode (bytes_of [0xC5; 0x8E] ++ bytes_of_string "etXdQprcVkpaWU")
    = (networkprefix ++ bytes_of [0x7A; 0x06; 0xA7; 0x70], None).
Proof.
  split; [exact B58cdecode_never_errors|].
  split; [exact B58cdecode_on_decode_error|].
  repeat apply conj; vm_compute; reflexivity.
Qed.

(* ----------------------------------------------------------------- *)
(** ** Checksummed base-58: the round trip *)

Lemma Sum256_length (m : list byte) : length (Sum256 m) = 32%nat.
Proof.
  unfold Sum256.
  destruct (sha256_blocks _ _ _) as [[[[[[[a b] c] d] e] f] g] h].
  reflexivity.
Qed.

Lemma checksum4_length (data : list byte) : length (checksum4 data) = 4%nat.
Proof.
  unfold checksum4. rewrite length_firstn, Sum256_length. reflexivity.
Qed.

(** *** The alphabet *)

Lemma alphabet_index (n : nat) :
  (n < 58)%nat -> IndexByte alphabet (nth n alphabet x00) = Z.of_nat n.
Proof.
  intros H.
  do 58 (destruct n as [|n]; [reflexivity|]). lia.
Qed.

Lemma alphabet_ascii (n : nat) : Z_of_byte (nth n alphabet x00) < 128.
Proof.
  do 58 (destruct n as [|n]; [vm_compute; reflexivity|]).
  destruct n; vm_compute; reflexivity.
Qed.

Lemma alphabet_one (n : nat) :
  (n < 58)%nat -> Z_of_byte (nth n alphabet x00) = 49 -> n = 0%nat.
Proof.
  intros H.
  destruct n as [|n]; [reflexivity|].
  do 57 (destruct n as [|n]; [vm_compute; discriminate|]). lia.
Qed.

(** *** [range] over a text of one-byte characters *)

Lemma utf8_runes_ascii (s : list byte) :
  Forall (fun c => Z_of_byte c < 128) s -> utf8_runes s = map Z_of_byte s.
Proof.
  induction 1 as [|c s Hc _ IH]; [reflexivity|].
  cbn [utf8_runes map].
  replace (Z_of_byte c <? 128) with true by (symmetry; apply Z.ltb_lt; assumption).
  rewrite IH. reflexivity.
Qed.

(** *** Numbers and their base-58 digits *)

Lemma b58decode_loop_app (r1 r2 : list Z) (acc : Z) :
  b58decode_loop (r1 ++ r2) acc
  = match b58decode_loop r1 acc with
    | Some v => b58decode_loop r2 v
    | None => None
    end.
Proof.
  revert acc. induction r1 as [|c r1 IH]; intros acc; [reflexivity|].
  cbn [app b58decode_loop].
  destruct (IndexByte alphabet (byte_of_Z c) =? -1); [reflexivity|].
  apply IH.
Qed.

Lemma base58_digits_ascii (fuel : nat) (x : Z) :
  Forall (fun c => Z_of_byte c < 128) (base58_digits fuel x).
Proof.
  revert x. induction fuel as [|fuel IH]; intros x; cbn [base58_digits].
  - constructor.
  - destruct (0 <? x); constructor; [apply alphabet_ascii|apply IH].
Qed.

Lemma div_lt_pow2 (x d : Z) (fuel : nat) :
  2 <= d -> 0 < x < 2 ^ Z.of_nat (S fuel) -> 0 <= x / d < 2 ^ Z.of_nat fuel.
Proof.
  intros Hd Hx.
  replace (Z.of_nat (S fuel)) with (Z.of_nat fuel + 1) in Hx by lia.
  rewrite Z.pow_add_r in Hx by lia. change (2 ^ 1) with 2 in Hx.
  split; [apply Z.div_pos; lia|].
  apply Z.div_lt_upper_bound; [lia|]. nia.
Qed.

(** Reading the digits back, most significant first, gives the number. *)
Lemma b58decode_loop_digits (fuel : nat) :
  forall x, 0 <= x < 2 ^ Z.of_nat fuel ->
    b58decode_loop (map Z_of_byte (rev (base58_digits fuel x))) 0 = Some x.
Proof.
  induction fuel as [|fuel IH]; intros x Hx.
  - change (2 ^ Z.of_nat 0) with 1 in Hx. assert (x = 0) by lia. subst x.
    reflexivity.
  - cbn [base58_digits].
    destruct (0 <? x) eqn:E.
    + apply Z.ltb_lt in E.
      cbn [rev]. rewrite map_app, b58decode_loop_app.
      rewrite IH by (apply div_lt_pow2; lia).
      cbn [map b58decode_loop].
      rewrite byte_of_Z_of_byte.
      pose proof (Z.mod_pos_bound x 58 ltac:(lia)) as Hm.
      rewrite alphabet_index by lia.
      rewrite Z2Nat.id by lia.
      replace (x mod 58 =? -1) with false by (symmetry; apply Z.eqb_neq; lia).
      f_equal. pose proof (Z.div_mod x 58 ltac:(lia)). lia.
    + apply Z.ltb_ge in E. assert (x = 0) by lia. subst x. reflexivity.
Qed.

(** The most significant digit of a positive number is not ['1']. *)
Lemma base58_digits_last (fuel : nat) :
  forall x, 0 < x < 2 ^ Z.of_nat fuel ->
    exists ds c, base58_digits fuel x = ds ++ [c] /\ Z_of_byte c <> 49.
Proof.
  induction fuel as [|fuel IH]; intros x Hx.
  - change (2 ^ Z.of_nat 0) with 1 in Hx. lia.
  - cbn [base58_digits].
    replace (0 <? x) with true by (symmetry; apply Z.ltb_lt; lia).
    destruct (Z.eq_dec (x / 58) 0) as [E|E].
    + exists [], (nth (Z.to_nat (x mod 58)) alphabet x00).
      rewrite E. split.
      * destruct fuel; reflexivity.
      * intros H. pose proof (Z.mod_pos_bound x 58 ltac:(lia)) as Hm.
        apply alphabet_one in H; [|lia].
        pose proof (Z.div_mod x 58 ltac:(lia)). lia.
    + pose proof (div_lt_pow2 x 58 fuel ltac:(lia) Hx) as Hd.
      destruct (IH (x / 58) ltac:(lia)) as [ds [c [H1 H2]]].
      exists (nth (Z.to_nat (x mod 58)) alphabet x00 :: ds), c.
      rewrite H1. split; [reflexivity|assumption].
Qed.

Lemma log2_fuel (x : Z) : 0 <= x -> 0 <= x < 2 ^ Z.of_nat (S (Z.to_nat (Z.log2 x))).
Proof.
  intros Hx. split; [assumption|].
  destruct (Z.eq_dec x 0) as [->|Hn]; [reflexivity|].
  pose proof (Z.log2_nonneg x).
  replace (Z.of_nat (S (Z.to_nat (Z.log2 x)))) with (Z.succ (Z.log2 x)) by lia.
  apply Z.log2_spec. lia.
Qed.

(** *** Numbers and their bytes *)

Lemma SetBytes_snoc (bs : list byte) (b : byte) :
  SetBytes (bs ++ [b]) = SetBytes bs * 256 + Z_of_byte b.
Proof. unfold SetBytes. rewrite fold_left_app. reflexivity. Qed.

Lemma SetBytes_fold_ge (t : list byte) (a : Z) :
  0 <= a -> a <= fold_left (fun acc x => acc * 256 + Z_of_byte x) t a.
Proof.
  revert a. induction t as [|c t IH]; intros a Ha; cbn [fold_left]; [lia|].
  pose proof (Z_of_byte_range c).
  specialize (IH (a * 256 + Z_of_byte c) ltac:(lia)). lia.
Qed.

Lemma SetBytes_nonneg (bs : list byte) : 0 <= SetBytes bs.
Proof. apply (SetBytes_fold_ge bs 0). lia. Qed.

Lemma Z_of_byte_zero (b : byte) : Z_of_byte b = 0 -> b = x00.
Proof. intros H. apply Z_of_byte_inj. rewrite H. reflexivity. Qed.

Lemma SetBytes_pos (b : byte) (t : list byte) :
  b <> x00 -> 0 < SetBytes (b :: t).
Proof.
  intros Hb. unfold SetBytes. cbn [fold_left].
  pose proof (Z_of_byte_range b).
  assert (Z_of_byte b <> 0) by (intros E; apply Hb, Z_of_byte_zero, E).
  pose proof (SetBytes_fold_ge t (0 * 256 + Z_of_byte b) ltac:(lia)). lia.
Qed.

Lemma no_leading_zero_snoc (bs : list byte) (b : byte) :
  no_leading_zero (bs ++ [b]) -> no_leading_zero bs /\ 0 < SetBytes (bs ++ [b]).
Proof.
  destruct bs as [|c bs]; cbn [app no_leading_zero]; intros H.
  - split; [exact I|]. apply SetBytes_pos. assumption.
  - split; [assumption|]. apply (SetBytes_pos c (bs ++ [b])). assumption.
Qed.

Lemma big_Bytes_aux_SetBytes (bs : list byte) :
  no_leading_zero bs ->
  forall (fuel : nat) (acc : list byte),
    SetBytes bs < 2 ^ Z.of_nat fuel ->
    big_Bytes_aux fuel (SetBytes bs) acc = bs ++ acc.
Proof.
  induction bs as [|b bs IH] using rev_ind; intros Hn fuel acc Hf.
  - destruct fuel; reflexivity.
  - apply no_leading_zero_snoc in Hn as [Hn Hpos].
    destruct fuel as [|fuel].
    { change (2 ^ Z.of_nat 0) with 1 in Hf. lia. }
    cbn [big_Bytes_aux].
    replace (0 <? SetBytes (bs ++ [b])) with true by (symmetry; apply Z.ltb_lt; lia).
    pose proof (div_lt_pow2 _ 256 fuel ltac:(lia) (conj Hpos Hf)) as Hd.
    rewrite SetBytes_snoc in *.
    pose proof (Z_of_byte_range b) as Hb.
    pose proof (SetBytes_nonneg bs) as Hs.
    assert (Hq : (SetBytes bs * 256 + Z_of_byte b) / 256 = SetBytes bs).
    { symmetry. apply (Z.div_unique _ 256 _ (Z_of_byte b)); lia. }
    assert (Hr : (SetBytes bs * 256 + Z_of_byte b) mod 256 = Z_of_byte b).
    { symmetry. apply (Z.mod_unique _ 256 (SetBytes bs)); lia. }
    rewrite Hq, Hr in *. rewrite byte_of_Z_of_byte.
    rewrite IH by (try assumption; lia).
    rewrite <- app_assoc. reflexivity.
Qed.

Lemma big_Bytes_SetBytes (bs : list byte) :
  no_leading_zero bs -> big_Bytes (SetBytes bs) = bs.
Proof.
  intros Hn. unfold big_Bytes.
  pose proof (SetBytes_nonneg bs) as Hs.
  rewrite Z.abs_eq by assumption.
  rewrite big_Bytes_aux_SetBytes; [apply app_nil_r|assumption|].
  apply log2_fuel. assumption.
Qed.

(** *** [b58decode] after [base58.Encode] *)

Lemma leading_zeros_normal (bs : list byte) :
  no_leading_zero bs -> leading_zeros bs = 0%nat.
Proof.
  destruct bs as [|b bs]; [reflexivity|]. cbn [no_leading_zero leading_zeros].
  intros Hb. destruct (Byte.eqb b x00) eqn:E; [|reflexivity].
  apply byte_eqb_eq in E. contradiction.
Qed.

Lemma base58_Encode_normal (bs : list byte) :
  no_leading_zero bs ->
  base58_Encode bs
  = rev (base58_digits (S (Z.to_nat (Z.log2 (SetBytes bs)))) (SetBytes bs)).
Proof.
  intros Hn. unfold base58_Encode. rewrite leading_zeros_normal by assumption.
  cbn [repeat]. rewrite app_nil_r. reflexivity.
Qed.

Lemma b58decode_Encode (bs : list byte) :
  no_leading_zero bs -> b58decode (base58_Encode bs) = (bs, None).
Proof.
  intros Hn. rewrite base58_Encode_normal by assumption.
  unfold b58decode.
  rewrite utf8_runes_ascii
    by (apply Forall_rev, base58_digits_ascii).
  rewrite b58decode_loop_digits by (apply log2_fuel, SetBytes_nonneg).
  rewrite big_Bytes_SetBytes by assumption. reflexivity.
Qed.

Lemma leading_ones_Encode (bs : list byte) :
  no_leading_zero bs -> leading_ones (base58_Encode bs) = 0%nat.
Proof.
  intros Hn. rewrite base58_Encode_normal by assumption.
  pose proof (SetBytes_nonneg bs) as Hs.
  destruct (Z.eq_dec (SetBytes bs) 0) as [E|E].
  - rewrite E. reflexivity.
  - destruct (base58_digits_last (S (Z.to_nat (Z.log2 (SetBytes bs)))) (SetBytes bs))
      as [ds [c [H1 H2]]].
    { pose proof (log2_fuel (SetBytes bs) Hs). lia. }
    rewrite H1, rev_app_distr. cbn [rev app leading_ones].
    replace (Z_of_byte c =? 49) with false by (symmetry; apply Z.eqb_neq; assumption).
    reflexivity.
Qed.

(** *** [decode] after [encode], and the round trip *)

Lemma decode_encode_normal (data : list byte) :
  data <> [] -> no_leading_zero data -> decode (encode data) = (data, None).
Proof.
  intros Hne Hn.
  assert (Hn' : no_leading_zero (data ++ checksum4 data)).
  { destruct data as [|b data]; [exfalso; apply Hne; reflexivity|exact Hn]. }
  unfold encode. rewrite leading_zeros_normal by assumption.
  cbn [Nat.iter nat_rect].
  unfold decode.
  rewrite leading_ones_Encode, b58decode_Encode by assumption.
  assert (Hl : length (data ++ checksum4 data) = (length data + 4)%nat)
    by (rewrite length_app, checksum4_length; reflexivity).
  assert (Hd : (0 < length data)%nat).
  { clear - Hne. destruct data; [exfalso; apply Hne; reflexivity|cbn [length]; lia]. }
  replace (len (data ++ checksum4 data) <=? 4) with false
    by (symmetry; apply Z.leb_gt; unfold len; lia).
  rewrite Hl.
  replace (length data + 4 - 4)%nat with (length data + 0)%nat by lia.
  rewrite firstn_app_2, skipn_app, skipn_all2 by lia.
  replace (length data + 0 - length data)%nat with 0%nat by lia.
  cbn [firstn skipn app Nat.iter nat_rect]. rewrite app_nil_r.
  rewrite bytes_Equal_refl. reflexivity.
Qed.

Lemma B58cdecode_B58cencode (payload : list byte) (prefix : Prefix) :
  prefix <> [] -> no_leading_zero prefix ->
  B58cdecode (B58cencode payload prefix) prefix = Ok payload.
Proof.
  intros Hne Hn. unfold B58cdecode, B58cencode.
  rewrite decode_encode_normal.
  - rewrite <- (app_nil_r payload) at 1 2.
    apply slice_at; [reflexivity|].
    rewrite app_nil_r, len_app. reflexivity.
  - destruct prefix; [exfalso; apply Hne; reflexivity|discriminate].
  - destruct prefix; [exfalso; apply Hne; reflexivity|exact Hn].
Qed.

Lemma tezos_prefixes_normal (prefix : Prefix) :
  In prefix tezos_prefixes -> prefix <> [] /\ no_leading_zero prefix.
Proof.
  intros H. unfold tezos_prefixes in H. cbn [In] in H.
  repeat (destruct H as [H|H]; [subst prefix; split; vm_compute; discriminate|]).
  contradiction.
Qed.

(** C5.  For every payload, leading zero bytes included, and every one of
    the sixteen version prefixes of tezos-crypto.go, decoding the
    checksummed base-58 text of the payload with the same prefix returns
    the payload. *)
Theorem B58c_round_trip (payload : list byte) (prefix : Prefix) :
  In prefix tezos_prefixes ->
  B58cdecode (B58cencode payload prefix) prefix = Ok payload.
Proof.
  intros H. apply tezos_prefixes_normal in H as [Hne Hn].
  apply B58cdecode_B58cencode; assumption.
Qed.

Lemma B58c_round_trip_witness :
  B58cdecode (B58cencode [x00; x00; x7a; x06] networkprefix) networkprefix
  = Ok [x00; x00; x7a; x06].
Proof.
  apply (B58c_round_trip [x00; x00; x7a; x06] networkprefix).
  unfold tezos_prefixes. cbn [In]. do 15 right. left. reflexivity.
Defined.

(* ----------------------------------------------------------------- *)
(** ** [encode]: the count of leading ['1'] characters *)

Lemma iter_ones (z : nat) (t : list byte) :
  Nat.iter z (fun encoded => "1"%byte :: encoded) t = repeat "1"%byte z ++ t.
Proof.
  induction z as [|z IH]; [reflexivity|].
  cbn [Nat.iter nat_rect repeat app]. f_equal. exact IH.
Qed.

Lemma rev_repeat_byte (c : byte) (z : nat) : rev (repeat c z) = repeat c z.
Proof.
  induction z as [|z IH]; [reflexivity|].
  cbn [repeat rev]. rewrite IH. symmetry. apply repeat_cons.
Qed.

Lemma leading_ones_repeat (z : nat) (t : list byte) :
  leading_ones (repeat "1"%byte z ++ t) = (z + leading_ones t)%nat.
Proof.
  induction z as [|z IH]; [reflexivity|].
  cbn [repeat app leading_ones]. change (Z_of_byte "1" =? 49) with true.
  cbv iota. rewrite IH. reflexivity.
Qed.

Lemma leading_ones_digits (x : Z) :
  0 <= x ->
  leading_ones (rev (base58_digits (S (Z.to_nat (Z.log2 x))) x)) = 0%nat.
Proof.
  intros Hx. destruct (Z.eq_dec x 0) as [->|Hn]; [reflexivity|].
  destruct (base58_digits_last (S (Z.to_nat (Z.log2 x))) x) as [ds [c [H1 H2]]].
  { pose proof (log2_fuel x Hx). lia. }
  rewrite H1, rev_app_distr. cbn [rev app leading_ones].
  replace (Z_of_byte c =? 49) with false by (symmetry; apply Z.eqb_neq; assumption).
  reflexivity.
Qed.

(** Whatever the input, the text [encode] returns starts with twice as
    many ['1'] characters as the bytes it encodes have leading zeros. *)
Lemma encode_leading_ones (dataBytes : list byte) :
  leading_ones (encode dataBytes)
  = (2 * leading_zeros (dataBytes ++ checksum4 dataBytes))%nat.
Proof.
  unfold encode, base58_Encode. rewrite iter_ones.
  rewrite rev_app_distr, rev_repeat_byte.
  rewrite !leading_ones_repeat.
  rewrite leading_ones_digits by apply SetBytes_nonneg. lia.
Qed.

(** Had the library dropped the leading zero bytes, as the comment in
    [encode] has it, the same loop would have given one ['1'] per zero
    byte. *)
Lemma encode_bare_leading_ones (dataBytes : list byte) :
  leading_ones
    (Nat.iter (leading_zeros dataBytes) (fun encoded => "1"%byte :: encoded)
              (base58_Encode_bare dataBytes))
  = leading_zeros dataBytes.
Proof.
  unfold base58_Encode_bare. rewrite iter_ones, leading_ones_repeat.
  rewrite leading_ones_digits by apply SetBytes_nonneg. lia.
Qed.

(** C8 (the code departs from the claim).  The bytes [00] followed by
    their checksum start with one zero byte, and [encode] returns a text
    that starts with two ['1'] characters: [base58.Encode] has already
    written one ['1'] for the zero byte when [encode], whose comment
    takes the library to remove leading zeros, adds [zeroCount] more.
    In general the text starts with twice as many ['1'] characters as
    the encoded bytes have leading zeros.
    [decode] then restores two zero bytes for the one that was encoded
    and rejects the text [encode] produced. *)
Theorem encode_doubles_leading_ones :
  (forall dataBytes,
      leading_ones (encode dataBytes)
      = (2 * leading_zeros (dataBytes ++ checksum4 dataBytes))%nat) /\
  leading_zeros ([x00] ++ checksum4 [x00]) = 1%nat /\
  base58_Encode ([x00] ++ checksum4 [x00]) = bytes_of_string "1Wh4bh" /\
  encode [x00] = bytes_of_string "11Wh4bh" /\
  leading_ones (encode [x00]) = 2%nat /\
  leading_ones (encode [x00; x01]) = 2%nat /\
  decode (encode [x00; x01]) = ([], Some (errors_New "data and checksum don't match")).
Proof.
  split; [exact encode_leading_ones|].
  repeat apply conj; vm_compute; reflexivity.
Qed.

(* ----------------------------------------------------------------- *)
(** ** [encodeBipPath] *)

(** *** The scanner on a rendered path *)

Lemma scan_sections_zero (s : list byte) (st : scan_state) :
  scan_sections s 0 st = [].
Proof. destruct s; reflexivity. Qed.

Lemma scan_digits (ds t : list byte) (n : nat) (acc : list byte) :
  forallb isDigit ds = true ->
  scan_sections (ds ++ t) n (Digits acc) = scan_sections t n (Digits (acc ++ ds)).
Proof.
  destruct n as [|n]; [intros _; rewrite !scan_sections_zero; reflexivity|].
  revert acc. induction ds as [|d ds IH]; intros acc Hd.
  - rewrite app_nil_r. reflexivity.
  - cbn [forallb] in Hd. apply andb_prop in Hd as [Hd1 Hd2].
    cbn [app scan_sections]. rewrite Hd1. rewrite IH by assumption.
    rewrite <- app_assoc. reflexivity.
Qed.

Lemma isModifier_not_digit (c : byte) : isModifier c = true -> isDigit c = false.
Proof.
  unfold isModifier. intros H.
  apply orb_prop in H as [H|H]; [apply orb_prop in H as [H|H]|];
    apply byte_eqb_eq in H; subst c; reflexivity.
Qed.

Lemma render_cons (s : segment) (rest : list segment) :
  render (s :: rest) = "/"%byte :: fst s ++ snd s ++ render rest.
Proof.
  unfold render. cbn [map concat]. unfold render_segment.
  cbn [app]. rewrite <- app_assoc. reflexivity.
Qed.

Lemma scan_after_digits (ds : list byte) (rest : list segment) (n : nat) :
  scan_sections (render rest) (S n) (Digits ds)
  = submatch ds [] :: scan_sections (render rest) n Scan.
Proof.
  destruct rest as [|s rest].
  - cbn [render map concat scan_sections]. destruct n; reflexivity.
  - rewrite render_cons. cbn [scan_sections].
    change (isDigit "/") with false. change (isModifier "/") with false.
    change (isSlash "/") with true. cbv iota.
    destruct n; [rewrite scan_sections_zero|]; reflexivity.
Qed.

Lemma scan_segment (s : segment) (rest : list segment) (n : nat) :
  well_formed s = true ->
  scan_sections (render (s :: rest)) (S n) Scan
  = submatch (fst s) (snd s) :: scan_sections (render rest) n Scan.
Proof.
  destruct s as [ds m]. unfold well_formed. cbn [fst snd].
  intros H. apply andb_prop in H as [H Hm]. apply andb_prop in H as [H _].
  apply andb_prop in H as [Hne Hds].
  rewrite render_cons. cbn [fst snd scan_sections].
  change (isSlash "/") with true. cbv iota.
  destruct ds as [|d ds]; [discriminate|].
  cbn [forallb] in Hds. apply andb_prop in Hds as [Hd Hds].
  cbn [app scan_sections]. rewrite Hd.
  rewrite scan_digits by assumption. cbn [app].
  destruct m as [|c [|c' m]]; cbn [is_marker] in Hm; try discriminate.
  - cbn [app]. apply scan_after_digits.
  - cbn [app scan_sections].
    rewrite (isModifier_not_digit c Hm), Hm. reflexivity.
Qed.

Lemma scan_render (segs : list segment) :
  forallb well_formed segs = true ->
  forall n,
    scan_sections (render segs) n Scan
    = map (fun s => submatch (fst s) (snd s)) (firstn n segs).
Proof.
  induction segs as [|s segs IH]; intros H n.
  - rewrite firstn_nil. destruct n; reflexivity.
  - cbn [forallb] in H. apply andb_prop in H as [Hs Hsegs].
    destruct n as [|n]; [apply scan_sections_zero|].
    rewrite scan_segment by assumption. cbn [firstn map].
    rewrite IH by assumption. reflexivity.
Qed.

(** *** Values and their eight hexadecimal digits *)

Lemma fromHexChar_hexdigit (d : Z) :
  0 <= d < 16 -> fromHexChar (hexdigit d) = Ok d.
Proof.
  intros H.
  assert (E : d = 0 \/ d = 1 \/ d = 2 \/ d = 3 \/ d = 4 \/ d = 5 \/ d = 6 \/ d = 7
              \/ d = 8 \/ d = 9 \/ d = 10 \/ d = 11 \/ d = 12 \/ d = 13 \/ d = 14
              \/ d = 15) by lia.
  repeat (destruct E as [E|E]; [subst d; reflexivity|]). subst d. reflexivity.
Qed.

Lemma byte_of_Z_mod (x : Z) : byte_of_Z (x mod 256) = byte_of_Z x.
Proof. unfold byte_of_Z. rewrite Z.mod_mod by lia. reflexivity. Qed.

Lemma nibbles_byte (u : Z) :
  Z.lor (Z.shiftl ((u / 16) mod 16) 4) (u mod 16) = u mod 256.
Proof.
  rewrite Z.lor_comm.
  rewrite lor_shiftl_add by (try lia; apply Z.mod_pos_bound; lia).
  change (2 ^ 4) with 16.
  change 256 with (16 * 16). rewrite Z.rem_mul_r by lia. lia.
Qed.

Lemma nibble_pair (v k : Z) :
  0 < k ->
  byte_of_Z (Z.lor (Z.shiftl ((v / (k * 16)) mod 16) 4) ((v / k) mod 16))
  = byte_of_Z (v / k).
Proof.
  intros Hk. rewrite <- Z.div_div by lia. rewrite nibbles_byte.
  apply byte_of_Z_mod.
Qed.

Lemma Sprintf_08x_word (v : Z) :
  0 <= v < 2 ^ 32 -> Sprintf_08x v = hex_digits 8 v.
Proof.
  intros Hv. unfold Sprintf_08x. f_equal.
  assert (Z.log2 v < 32).
  { destruct (Z.eq_dec v 0) as [->|Hn]; [reflexivity|].
    apply Z.log2_lt_pow2; lia. }
  pose proof (Z.log2_nonneg v).
  assert (Z.log2 v / 4 < 8) by (apply Z.div_lt_upper_bound; lia).
  assert (0 <= Z.log2 v / 4) by (apply Z.div_pos; lia).
  lia.
Qed.

Lemma hex_DecodeString_word (v : Z) (rest : list byte) :
  0 <= v ->
  hex_DecodeString (hex_digits 8 v ++ rest)
  = (r <- hex_DecodeString rest ;; Ok (be32 v ++ r)).
Proof.
  intros Hv.
  assert (Hn : forall k, 0 <= (v / k) mod 16 < 16)
    by (intros k; apply Z.mod_pos_bound; lia).
  cbn [hex_digits app hex_DecodeString Z.of_nat Pos.of_succ_nat Pos.succ].
  rewrite !fromHexChar_hexdigit by apply Hn.
  cbn [bind].
  destruct (hex_DecodeString rest) as [r| | |]; cbn [bind]; try reflexivity.
  unfold be32. cbn [app]. rewrite !Z.shiftr_div_pow2 by lia.
  change (16 ^ 7) with (16 ^ 6 * 16). change (16 ^ 5) with (16 ^ 4 * 16).
  change (16 ^ 3) with (16 ^ 2 * 16). change (16 ^ 1) with (1 * 16).
  change (16 ^ 0) with 1.
  rewrite !nibble_pair by lia. rewrite Z.div_1_r. reflexivity.
Qed.

Lemma hex_DecodeString_words (vals : list Z) :
  Forall (fun v => 0 <= v < 2 ^ 32) vals ->
  hex_DecodeString (concat (map Sprintf_08x vals)) = Ok (flat_map be32 vals).
Proof.
  induction 1 as [|v vals Hv _ IH]; [reflexivity|].
  cbn [map concat flat_map]. rewrite Sprintf_08x_word by assumption.
  rewrite hex_DecodeString_word by lia. rewrite IH. reflexivity.
Qed.

(** *** The sections of a well-formed path *)

Lemma decimal_value_nonneg (ds : list byte) :
  forallb isDigit ds = true -> 0 <= decimal_value ds.
Proof.
  unfold decimal_value.
  assert (G : forall a, 0 <= a -> forallb isDigit ds = true ->
              0 <= fold_left (fun acc c => acc * 10 + (Z_of_byte c - 48)) ds a).
  { induction ds as [|d ds IH]; intros a Ha Hd; cbn [fold_left]; [assumption|].
    cbn [forallb] in Hd. apply andb_prop in Hd as [Hd1 Hd2].
    apply IH; [|assumption].
    unfold isDigit, in_range in Hd1. apply andb_prop in Hd1 as [H1 H2].
    apply Z.leb_le in H1. lia. }
  apply G. lia.
Qed.

Lemma Atoi_digits (ds : list byte) :
  negb (len ds =? 0) = true -> forallb isDigit ds = true ->
  decimal_value ds < HARDENED ->
  Atoi ds = Ok (decimal_value ds).
Proof.
  intros Hne Hds Hv. unfold Atoi.
  destruct ds as [|d ds]; [discriminate|].
  assert (Hd : isDigit d = true) by (cbn [forallb] in Hds; apply andb_prop in Hds; tauto).
  assert (Hminus : Byte.eqb d "-" = false).
  { destruct (Byte.eqb d "-") eqn:E; [|reflexivity].
    apply byte_eqb_eq in E. subst d. discriminate. }
  assert (Hplus : Byte.eqb d "+" = false).
  { destruct (Byte.eqb d "+") eqn:E; [|reflexivity].
    apply byte_eqb_eq in E. subst d. discriminate. }
  rewrite Hminus, Hplus.
  apply negb_true_iff in Hne. rewrite Hne, Hds. cbn [negb orb].
  pose proof (decimal_value_nonneg (d :: ds) Hds) as H0.
  unfold HARDENED in Hv.
  replace (decimal_value (d :: ds) <? - 2 ^ 63) with false
    by (symmetry; apply Z.ltb_ge; lia).
  replace (2 ^ 63 - 1 <? decimal_value (d :: ds)) with false
    by (symmetry; apply Z.ltb_ge; lia).
  reflexivity.
Qed.

Lemma lor_HARDENED (v : Z) :
  0 <= v < 0x80000000 -> Z.lor v 0x80000000 = v + 0x80000000.
Proof.
  intros Hv. change (Z.lor v 0x80000000) with (Z.lor v (Z.shiftl 1 31)).
  rewrite lor_shiftl_add by lia. lia.
Qed.

Lemma segment_value_range (s : segment) :
  well_formed s = true -> 0 <= segment_value s < 2 ^ 32.
Proof.
  destruct s as [ds m]. unfold well_formed, segment_value. cbn [fst snd].
  intros H. apply andb_prop in H as [H _]. apply andb_prop in H as [H Hv].
  apply andb_prop in H as [_ Hds]. apply Z.ltb_lt in Hv.
  pose proof (decimal_value_nonneg ds Hds) as H0. unfold HARDENED in *.
  destruct m as [|c m]; [lia|].
  rewrite lor_HARDENED by lia. lia.
Qed.

Lemma encodeBipPath_loop_sections (segs : list segment) :
  forallb well_formed segs = true ->
  forall retPath,
    encodeBipPath_loop (map (fun s => submatch (fst s) (snd s)) segs) retPath
    = Ok (retPath ++ concat (map Sprintf_08x (map segment_value segs))).
Proof.
  induction segs as [|s segs IH]; intros H retPath.
  - cbn. rewrite app_nil_r. reflexivity.
  - cbn [forallb] in H. apply andb_prop in H as [Hs Hsegs].
    destruct s as [ds m]. cbn [map fst snd encodeBipPath_loop].
    pose proof Hs as Hwf.
    unfold well_formed in Hs. cbn [fst snd] in Hs.
    apply andb_prop in Hs as [Hs Hm]. apply andb_prop in Hs as [Hs Hv].
    apply andb_prop in Hs as [Hne Hds].
    change (len (submatch ds m) =? 3) with true. cbn [negb].
    change (index (submatch ds m) 1) with (Ok ds).
    change (index (submatch ds m) 2) with (Ok m).
    cbn [bind]. rewrite Atoi_digits by (try assumption; apply Z.ltb_lt; assumption).
    cbn [bind].
    replace (decimal_value ds >=? HARDENED) with false
      by (symmetry; rewrite Z.geb_leb; apply Z.leb_gt, Z.ltb_lt; assumption).
    assert (Hval : (if bytes_Equal m (bytes_of_string "h")
                       || bytes_Equal m (bytes_of_string "H")
                       || bytes_Equal m (bytes_of_string "'")
                    then Ok (decimal_value ds + HARDENED)
                    else if negb (len m =? 0)
                         then Err (errors_New "Invalid modifier")
                         else Ok (decimal_value ds))
                   = Ok (segment_value (ds, m))).
    { unfold segment_value. cbn [fst snd].
      destruct m as [|c [|c' m]]; cbn [is_marker] in Hm; try discriminate.
      - reflexivity.
      - apply Z.ltb_lt in Hv. pose proof (decimal_value_nonneg ds Hds).
        unfold HARDENED in *.
        rewrite lor_HARDENED by lia.
        unfold isModifier in Hm.
        apply orb_prop in Hm as [Hm|Hm]; [apply orb_prop in Hm as [Hm|Hm]|];
          apply byte_eqb_eq in Hm; subst c; reflexivity. }
    rewrite Hval. cbn [bind]. rewrite IH by assumption.
    cbn [map concat]. rewrite <- app_assoc. reflexivity.
Qed.

(** C6, as the code has it.  For a well-formed derivation path the
    encoding starts with the byte 4, whatever the number of segments, and
    goes on with the four-byte big-endian values, the hardened bit set on
    the marked ones, of the first four segments at most. *)
Theorem encodeBipPath_well_formed (segs : list segment) :
  forallb well_formed segs = true ->
  encodeBipPath (render segs)
  = Ok (x04 :: flat_map (fun s => be32 (segment_value s)) (firstn 4 segs)).
Proof.
  intros H. unfold encodeBipPath, FindAllStringSubmatch.
  rewrite scan_render by assumption.
  assert (H4 : forallb well_formed (firstn 4 segs) = true).
  { apply forallb_forall. intros s Hs.
    apply (proj1 (forallb_forall _ _) H).
    rewrite <- (firstn_skipn 4 segs). apply in_or_app. left. assumption. }
  rewrite encodeBipPath_loop_sections by assumption. cbn [bind].
  change (bytes_of_string "04") with ["0"%byte; "4"%byte].
  cbn [app hex_DecodeString].
  change (fromHexChar "0") with (Ok 0). change (fromHexChar "4") with (Ok 4).
  cbn [bind].
  rewrite hex_DecodeString_words.
  - cbn [bind]. change (byte_of_Z (Z.lor (Z.shiftl 0 4) 4)) with x04.
    f_equal. f_equal. rewrite flat_map_concat_map, map_map.
    rewrite <- flat_map_concat_map. reflexivity.
  - apply Forall_forall. intros v Hv. apply in_map_iff in Hv as [s [<- Hs]].
    apply segment_value_range.
    apply (proj1 (forallb_forall _ _) H4). assumption.
Qed.

Lemma encodeBipPath_well_formed_witness :
  encodeBipPath (render [(bytes_of_string "44", bytes_of_string "'");
                         (bytes_of_string "1729", bytes_of_string "h");
                         (bytes_of_string "0", [])])
  = Ok (x04 :: flat_map (fun s => be32 (segment_value s))
                 (firstn 4 [(bytes_of_string "44", bytes_of_string "'");
                            (bytes_of_string "1729", bytes_of_string "h");
                            (bytes_of_string "0", [])])).
Proof.
  apply (encodeBipPath_well_formed
           [(bytes_of_string "44", bytes_of_string "'");
            (bytes_of_string "1729", bytes_of_string "h");
            (bytes_of_string "0", [])]).
  vm_compute. reflexivity.
Defined.

(** C6 fails here: a well-formed path of two segments is encoded with the
    length byte 4, not 2, and two values after it. *)
Lemma encodeBipPath_two_segments :
  forallb well_formed [(bytes_of_string "44", bytes_of_string "'");
                       (bytes_of_string "1729", bytes_of_string "'")] = true /\
  render [(bytes_of_string "44", bytes_of_string "'");
          (bytes_of_string "1729", bytes_of_string "'")]
  = bytes_of_string "/44'/1729'" /\
  encodeBipPath (bytes_of_string "/44'/1729'")
  = Ok (bytes_of [4; 0x80; 0; 0; 0x2c; 0x80; 0; 0x06; 0xc1]).
Proof. repeat apply conj; vm_compute; reflexivity. Qed.

(* ----------------------------------------------------------------- *)
(** ** [DecodeBipPath]: the first byte *)

(** C10.  [DecodeBipPath] indexes [pathBytes[0]] before it checks any
    length: on the empty slice the index is out of range and the call
    panics; the length check that follows is reached, and rejects a short
    input, only when there is a first byte to read. *)
Theorem DecodeBipPath_reads_first_byte_unchecked :
  index ([] : list byte) 0 = Panic /\
  (forall fuel, DecodeBipPath fuel [] = Panic) /\
  (forall fuel first rest,
      len (first :: rest) < 1 + Z_of_byte first * 4 ->
      DecodeBipPath fuel (first :: rest) = Err (errors_New "Invalid Bip Path Length")).
Proof.
  split; [reflexivity|]. split; [reflexivity|].
  intros fuel first rest H.
  unfold DecodeBipPath. cbn [index nth_error Z.to_nat bind].
  assert (Hi : index (first :: rest) 0 = Ok first).
  { unfold index. rewrite len_cons. pose proof (len_nonneg rest).
    replace ((0 <=? 0) && (0 <? 1 + len rest)) with true; [reflexivity|].
    symmetry. rewrite andb_true_iff, Z.leb_le, Z.ltb_lt. lia. }
  rewrite Hi. cbn [bind].
  replace (len (first :: rest) <? 1 + Z_of_byte first * 4) with true
    by (symmetry; apply Z.ltb_lt; lia).
  reflexivity.
Qed.

(* ----------------------------------------------------------------- *)
(** ** [SignBytes]: the mode of the channel *)

(** C7 (the code departs from the claim).  [SignBytes] restores the
    non-blocking mode only on the path that reaches its last statement.
    When the device answers the second command with "operation denied",
    or when the second write fails, [SignBytes] returns its error through
    one of the early returns that follow [SetNonBlocking(false)], and the
    channel is left in blocking mode.  On the successful path the mode is
    restored. *)
Theorem SignBytes_leaves_channel_blocking :
  nonblocking device_user_refuses = true /\
  SignBytes 64 tezos_path [x03; x01] device_user_refuses
  = (Err (errors_Wrap
            (errors_Wrap (errors_New "Operation denied by the user")
                         "Failed to decode response")
            "Unable to read bytes signature"),
     mkDevice false [] [] []) /\
  SignBytes 64 tezos_path [x03; x01] device_write_fails
  = (Err (errors_Wrap
            (errors_Wrap (errors_New "hid: write failed") "Failed to write")
            "Unable to sign bytes (2)"),
     mkDevice false [] [] []) /\
  snd (SignBytes 64 tezos_path [x03; x01] device_signs) = mkDevice true [] [] [] /\
  fst (SignBytes 64 tezos_path [x03; x01] device_signs)
  = Ok (B58cencode (repeat x2a 64) edsigprefix).
Proof.
  repeat apply conj; vm_compute; reflexivity.
Qed.

(* ----------------------------------------------------------------- *)
(** ** [wrapCommandAPDU]: the size of the frame *)

Lemma ceil_step (m d : Z) :
  0 < d -> d < m -> (m + (d - 1)) / d = 1 + (m - d + (d - 1)) / d.
Proof.
  intros Hd Hm.
  replace (m + (d - 1)) with (m - d + (d - 1) + 1 * d) by lia.
  rewrite Z.div_add by lia. lia.
Qed.

Lemma ceil_one (m d : Z) : 0 < m <= d -> (m + (d - 1)) / d = 1.
Proof.
  intros H. symmetry. apply (Z.div_unique _ _ 1 (m - 1)); lia.
Qed.

Lemma ceil_bounds (m d : Z) :
  0 < d -> 0 <= m -> m <= d * ((m + (d - 1)) / d) < m + d.
Proof.
  intros Hd Hm.
  pose proof (Z.div_mod (m + (d - 1)) d ltac:(lia)).
  pose proof (Z.mod_pos_bound (m + (d - 1)) d Hd). lia.
Qed.

(** The continuation loop writes the rest of the command and five header
    bytes for every packet it opens. *)
Lemma wrap_loop_length (channel command : list byte) (packetSize : Z) :
  len channel = 2 -> 6 <= packetSize ->
  forall (fuel : nat) (sequenceIdx done : Z) (result : list byte),
    0 <= done <= len command ->
    len command - done <= Z.of_nat fuel ->
    exists out,
      wrap_loop fuel channel command packetSize sequenceIdx done result
      = Ok (result ++ out) /\
      len out = len command - done
                + 5 * ((len command - done + (packetSize - 5 - 1)) / (packetSize - 5)).
Proof.
  intros Hchannel Hsize.
  induction fuel as [|fuel IH]; intros sequenceIdx done result Hdone Hfuel.
  - assert (done = len command) by lia. subst done.
    exists []. rewrite wrap_loop_unfold, Z.eqb_refl, app_nil_r.
    split; [reflexivity|]. rewrite Z.sub_diag, Z.add_0_l.
    rewrite Z.div_small by lia. reflexivity.
  - destruct (Z.eq_dec done (len command)) as [E|E].
    + subst done.
      exists []. rewrite wrap_loop_unfold, Z.eqb_refl, app_nil_r.
      split; [reflexivity|]. rewrite Z.sub_diag, Z.add_0_l.
      rewrite Z.div_small by lia. reflexivity.
    + rewrite wrap_loop_unfold.
      replace (done =? len command) with false by (symmetry; apply Z.eqb_neq; assumption).
      fold (cont_size command packetSize done).
      assert (Hb : 1 <= cont_size command packetSize done <= len command - done).
      { unfold cont_size, extraHeaderSize.
        destruct (len command - done >? packetSize - 3 - 2) eqn:G.
        - apply Z.gtb_lt in G. lia.
        - lia. }
      rewrite slice_ok by lia. cbn [bind].
      set (chunk := firstn (Z.to_nat (done + cont_size command packetSize done - done))
                           (skipn (Z.to_nat done) command)).
      assert (Hchunk : len chunk = cont_size command packetSize done).
      { unfold chunk.
        replace (done + cont_size command packetSize done - done)
          with (cont_size command packetSize done) by lia.
        apply len_firstn. rewrite len_skipn by lia. lia. }
      destruct (IH (uint16 (sequenceIdx + 1)) (done + cont_size command packetSize done)
                   ((((result ++ channel) ++ [x05]) ++ PutUint16 sequenceIdx) ++ chunk))
        as [out [Hw Hl]]; try lia.
      exists (channel ++ [x05] ++ PutUint16 sequenceIdx ++ chunk ++ out).
      split.
      * rewrite Hw. f_equal. rewrite <- !app_assoc. reflexivity.
      * rewrite !len_app, Hchannel, len_PutUint16, Hchunk, Hl.
        change (len [x05]) with 1.
        unfold cont_size, extraHeaderSize in *.
        destruct (len command - done >? packetSize - 3 - 2) eqn:G.
        -- apply Z.gtb_lt in G.
           rewrite (ceil_step (len command - done) (packetSize - 5)) by lia.
           replace (len command - (done + (packetSize - 3 - 2)))
             with (len command - done - (packetSize - 5)) by lia.
           lia.
        -- rewrite Z.gtb_ltb in G. apply Z.ltb_ge in G.
           rewrite (ceil_one (len command - done) (packetSize - 5)) by lia.
           replace (len command - (done + (len command - done))) with 0 by lia.
           rewrite Z.add_0_l, (Z.div_small (packetSize - 5 - 1)) by lia.
           lia.
Qed.

(** The padding loop appends zero bytes, fewer than [packetSize], up to
    the next multiple of the packet size. *)
Lemma pad_loop_zeros (packetSize : Z) (k : nat) :
  0 < packetSize ->
  forall (fuel : nat) (result : list byte),
    (- len result) mod packetSize = Z.of_nat k -> (k <= fuel)%nat ->
    pad_loop fuel packetSize result = Ok (result ++ repeat x00 k).
Proof.
  intros Hp. induction k as [|k IH]; intros fuel result Hk Hf.
  - rewrite pad_loop_unfold, app_nil_r.
    rewrite Z.rem_mod_nonneg by (pose proof (len_nonneg result); lia).
    replace (len result mod packetSize =? 0) with true; [reflexivity|].
    symmetry. apply Z.eqb_eq. apply Z.mod_divide; [lia|].
    apply Z.divide_opp_r. apply Z.mod_divide; [lia|]. exact Hk.
  - rewrite pad_loop_unfold.
    rewrite Z.rem_mod_nonneg by (pose proof (len_nonneg result); lia).
    pose proof (Z.div_mod (- len result) packetSize ltac:(lia)) as Hdm.
    pose proof (Z.mod_pos_bound (- len result) packetSize Hp) as Hb.
    replace (len result mod packetSize =? 0) with false.
    2:{ symmetry. apply Z.eqb_neq. intros E.
        apply Z.mod_divide in E; [|lia]. apply Z.divide_opp_r in E.
        apply Z.mod_divide in E; [|lia]. lia. }
    destruct fuel as [|fuel]; [lia|].
    rewrite (IH fuel (result ++ [x00])).
    + rewrite <- app_assoc. reflexivity.
    + rewrite len_app. change (len [x00]) with 1.
      symmetry.
      apply (Z.mod_unique_pos _ _ ((- len result) / packetSize)); lia.
    + lia.
Qed.

Lemma packet_count_bounds (n packetSize : Z) :
  7 <= packetSize -> 0 <= n ->
  let blockSize := if n >? packetSize - 5 - extraHeaderSize
                   then packetSize - 5 - extraHeaderSize else n in
  let body := 7 + blockSize + (n - blockSize
                 + 5 * ((n - blockSize + (packetSize - 5 - 1)) / (packetSize - 5))) in
  packetSize * (packet_count n packetSize - 1) < body
  <= packetSize * packet_count n packetSize.
Proof.
  intros Hp Hn. unfold packet_count, extraHeaderSize. cbv zeta.
  destruct (n <=? packetSize - 7) eqn:E.
  - apply Z.leb_le in E.
    replace (n >? packetSize - 5 - 2) with false
      by (symmetry; rewrite Z.gtb_ltb; apply Z.ltb_ge; lia).
    cbv iota. replace (n - n) with 0 by lia.
    rewrite (Z.add_0_l (packetSize - 5 - 1)), Z.div_small by lia. lia.
  - apply Z.leb_gt in E.
    replace (n >? packetSize - 5 - 2) with true
      by (symmetry; apply Z.gtb_lt; lia).
    cbv iota.
    replace (n - (packetSize - 7) + (packetSize - 6))
      with (n - (packetSize - 5 - 2) + (packetSize - 5 - 1)) by lia.
    pose proof (ceil_bounds (n - (packetSize - 5 - 2)) (packetSize - 5)
                  ltac:(lia) ltac:(lia)) as Hc.
    set (q := (n - (packetSize - 5 - 2) + (packetSize - 5 - 1)) / (packetSize - 5)) in *.
    nia.
Qed.

Lemma len_repeat {A : Type} (x : A) (k : nat) : len (repeat x k) = Z.of_nat k.
Proof. unfold len. rewrite repeat_length. reflexivity. Qed.

(** The shape of a frame: the header of the first packet, a body, and
    zero bytes, fewer than a packet, up to a whole number of packets. *)
Lemma wrapCommandAPDU_shape (fuel : nat) (channel command : list byte)
    (packetSize : Z) :
  len channel = 2 ->
  7 <= packetSize ->
  len command + packetSize <= Z.of_nat fuel ->
  exists body k,
    wrapCommandAPDU fuel channel command packetSize
    = Ok ((channel ++ [x05] ++ PutUint16 0 ++ PutUint16 (uint16 (len command))
             ++ body) ++ repeat x00 k) /\
    Z.of_nat k < packetSize /\
    7 + len body + Z.of_nat k = packetSize * packet_count (len command) packetSize /\
    len command <= len body.
Proof.
  intros Hchannel Hsize Hfuel.
  pose proof (len_nonneg command) as HL.
  pose proof (packet_count_bounds (len command) packetSize Hsize HL) as Hpc.
  cbv zeta in Hpc.
  set (blockSize := if len command >? packetSize - 5 - extraHeaderSize
                    then packetSize - 5 - extraHeaderSize else len command) in *.
  assert (Hb : 0 <= blockSize <= len command).
  { unfold blockSize, extraHeaderSize.
    destruct (len command >? packetSize - 5 - 2) eqn:E.
    - apply Z.gtb_lt in E. lia.
    - lia. }
  set (chunk := firstn (Z.to_nat blockSize) command).
  assert (Hchunk : len chunk = blockSize) by (apply len_firstn; lia).
  assert (S0 : slice command 0 (0 + blockSize) = Ok chunk).
  { rewrite slice_ok by lia. unfold chunk. simpl skipn.
    replace (0 + blockSize - 0) with blockSize by lia. reflexivity. }
  unfold wrapCommandAPDU.
  replace (packetSize <? 3) with false by (symmetry; apply Z.ltb_ge; lia).
  cbv zeta. fold blockSize. rewrite S0. cbn [bind].
  change (uint16 (0 + 1)) with 1. rewrite app_nil_l.
  replace (0 + blockSize) with blockSize by lia.
  match goal with
  | |- context [wrap_loop _ _ _ _ _ _ ?r] =>
      destruct (wrap_loop_length channel command packetSize Hchannel ltac:(lia)
                  fuel 1 blockSize r) as [out [Hw Hout]]; try lia
  end.
  rewrite Hw. cbn [bind].
  match goal with
  | |- context [pad_loop _ _ ?b] => set (whole := b)
  end.
  assert (Hwhole : len whole = 7 + blockSize + len out).
  { unfold whole. rewrite !len_app, Hchannel, !len_PutUint16, Hchunk.
    change (len [x05]) with 1. lia. }
  pose proof (Z.mod_pos_bound (- len whole) packetSize ltac:(lia)) as Hr.
  pose proof (Z.div_mod (- len whole) packetSize ltac:(lia)) as Hdm.
  rewrite (pad_loop_zeros packetSize (Z.to_nat ((- len whole) mod packetSize)))
    by (try rewrite Z2Nat.id; lia).
  exists (chunk ++ out), (Z.to_nat ((- len whole) mod packetSize)).
  split; [unfold whole; rewrite <- !app_assoc; reflexivity|].
  rewrite Z2Nat.id by lia. split; [lia|].
  rewrite len_app, Hchunk.
  assert (Hge : len command <= blockSize + len out).
  { rewrite Hout.
    assert (0 <= (len command - blockSize + (packetSize - 5 - 1)) / (packetSize - 5))
      by (apply Z.div_pos; lia).
    lia. }
  split; [|exact Hge].
  rewrite Hout in Hwhole. rewrite <- Hwhole in Hpc.
  replace (7 + (blockSize + len out)) with (len whole) by lia.
  set (q := (- len whole) / packetSize) in *.
  set (r := (- len whole) mod packetSize) in *.
  set (n := packet_count (len command) packetSize) in *.
  assert (E : - q = n) by nia.
  nia.
Qed.



(** ** [unwrapResponseAPDU]: what a returned payload implies *)

Lemma bind_Ok_inv {A B : Type} (m : outcome A) (k : A -> outcome B) (b : B) :
  bind m k = Ok b -> exists a, m = Ok a /\ k a = Ok b.
Proof.
  destruct m as [a| | |]; cbn [bind]; try discriminate.
  intros H. exists a. split; [reflexivity|assumption].
Qed.

Lemma slice_Ok_inv {A : Type} (s : list A) (lo hi : Z) (x : list A) :
  slice s lo hi = Ok x ->
  0 <= lo <= hi /\ hi <= len s /\ len x = hi - lo /\
  x = firstn (Z.to_nat (hi - lo)) (skipn (Z.to_nat lo) s).
Proof.
  unfold slice.
  destruct ((0 <=? lo) && (lo <=? hi) && (hi <=? len s)) eqn:E; [|discriminate].
  apply andb_prop in E as [E E3]. apply andb_prop in E as [E1 E2].
  apply Z.leb_le in E1, E2, E3.
  intros H. injection H as <-.
  repeat split; try lia.
  apply len_firstn. rewrite len_skipn by lia. lia.
Qed.

Lemma index_Ok_inv {A : Type} (s : list A) (i : Z) (a : A) :
  index s i = Ok a -> 0 <= i < len s /\ nth_error s (Z.to_nat i) = Some a.
Proof.
  unfold index.
  destruct ((0 <=? i) && (i <? len s)) eqn:E; [|discriminate].
  apply andb_prop in E as [E1 E2]. apply Z.leb_le in E1. apply Z.ltb_lt in E2.
  destruct (nth_error s (Z.to_nat i)) as [x|]; [|discriminate].
  intros H. injection H as <-. split; [lia|reflexivity].
Qed.

(** The reassembly loop returns exactly [responseLength] bytes. *)
Lemma unwrap_loop_Ok (channel data : list byte) (packetSize responseLength : Z) :
  forall (fuel : nat) (sequenceIdx offset : Z) (result r : list byte),
    len result <= responseLength ->
    unwrap_loop fuel channel data packetSize responseLength sequenceIdx offset result
    = Ok r ->
    len r = responseLength.
Proof.
  induction fuel as [|fuel IH]; intros sequenceIdx offset result r Hle H.
  - cbn [unwrap_loop] in H.
    destruct (len result <? responseLength) eqn:E; [discriminate|].
    apply Z.ltb_ge in E. injection H as <-. lia.
  - rewrite unwrap_loop_unfold in H.
    destruct (len result <? responseLength) eqn:E.
    2:{ apply Z.ltb_ge in E. injection H as <-. lia. }
    apply Z.ltb_lt in E.
    destruct (offset =? len data); [discriminate|].
    apply bind_Ok_inv in H as [packedChan [_ H]].
    destruct (negb (bytes_Equal packedChan channel)); [discriminate|].
    apply bind_Ok_inv in H as [tag [_ H]].
    destruct (negb (bytes_Equal [tag] [x05])); [discriminate|].
    apply bind_Ok_inv in H as [seqBytes [_ H]].
    apply bind_Ok_inv in H as [packedSeq [_ H]].
    destruct (negb (packedSeq =? sequenceIdx + 1)); [discriminate|].
    apply bind_Ok_inv in H as [chunk [Hc H]].
    apply slice_Ok_inv in Hc as [Hc1 [_ [Hc2 _]]].
    apply IH in H; [assumption|].
    rewrite len_app, Hc2. unfold extraHeaderSize in *.
    destruct (responseLength - len result >? packetSize - 3 - 2) eqn:G.
    + apply Z.gtb_lt in G. lia.
    + lia.
Qed.

(** X2.  A payload is returned only for a buffer of at least twelve bytes that
    starts with the channel, the tag 5 and the sequence number 0; the
    payload then has the length the header declares, less the two bytes
    of the status word, and the declared bytes are all in the buffer. *)
Theorem unwrapResponseAPDU_payload_implies_header (fuel : nat)
    (channel data : list byte) (packetSize : Z) (payload : list byte) :
  unwrapResponseAPDU fuel channel data packetSize = Ok payload ->
  exists hi lo rest,
    data = channel ++ [x05; x00; x00; hi; lo] ++ rest /\
    len channel = 2 /\ 5 <= len rest /\
    2 <= 256 * Z_of_byte hi + Z_of_byte lo <= len rest /\
    len payload = 256 * Z_of_byte hi + Z_of_byte lo - 2.
Proof.
  intros H. unfold unwrapResponseAPDU in H. cbv zeta in H.
  destruct ((len data =? 0) || (len data <? 5 + extraHeaderSize + 5)) eqn:G;
    [discriminate|].
  apply orb_false_elim in G as [_ G]. apply Z.ltb_ge in G.
  unfold extraHeaderSize in *.
  destruct data as [|d0 [|d1 [|d2 [|d3 [|d4 [|d5 [|d6 rest]]]]]]];
    try (exfalso; revert G; clear; unfold len; cbn [length]; lia).
  assert (Hrest : 5 <= len rest) by (rewrite !len_cons in G; lia).
  pose proof (len_nonneg rest) as Hr0.
  assert (S1 : slice (d0 :: d1 :: d2 :: d3 :: d4 :: d5 :: d6 :: rest) 0 (0 + 2)
               = Ok [d0; d1]).
  { apply (slice_at [] [d0; d1]); reflexivity. }
  assert (S2 : index (d0 :: d1 :: d2 :: d3 :: d4 :: d5 :: d6 :: rest) (0 + 2) = Ok d2).
  { apply (index_at [d0; d1]). reflexivity. }
  assert (S3 : slice (d0 :: d1 :: d2 :: d3 :: d4 :: d5 :: d6 :: rest)
                 (0 + 2 + 1) (0 + 2 + 1 + 2) = Ok [d3; d4]).
  { apply (slice_at [d0; d1; d2] [d3; d4]); reflexivity. }
  assert (S4 : slice (d0 :: d1 :: d2 :: d3 :: d4 :: d5 :: d6 :: rest)
                 (0 + 2 + 1 + 2) (0 + 2 + 1 + 2 + 2) = Ok [d5; d6]).
  { apply (slice_at [d0; d1; d2; d3; d4] [d5; d6]); reflexivity. }
  rewrite S1 in H. cbn [bind] in H.
  destruct (bytes_Equal [d0; d1] channel) eqn:Ech; [|discriminate].
  apply bytes_Equal_eq in Ech. subst channel. cbn [negb] in H.
  rewrite S2 in H. cbn [bind] in H.
  destruct (bytes_Equal [d2] [x05]) eqn:Etag; [|discriminate].
  apply bytes_Equal_eq in Etag. injection Etag as ->. cbn [negb] in H.
  rewrite S3 in H. cbn [bind] in H. rewrite Uint16_two in H. cbn [bind] in H.
  destruct (Z.lor (Z_of_byte d4) (Z.shiftl (Z_of_byte d3) 8) =? 0) eqn:Eseq;
    [|discriminate].
  apply Z.eqb_eq in Eseq. apply Z.lor_eq_0_iff in Eseq as [E4 E3].
  apply Z.shiftl_eq_0_iff in E3; [|lia].
  apply Z_of_byte_zero in E3, E4. subst d3 d4. cbn [negb] in H.
  rewrite S4 in H. cbn [bind] in H. rewrite Uint16_two in H. cbn [bind] in H.
  pose proof (Z_of_byte_range d5) as R5. pose proof (Z_of_byte_range d6) as R6.
  rewrite lor_shiftl_add in H by lia. change (2 ^ 8) with 256 in H.
  set (L := Z_of_byte d6 + Z_of_byte d5 * 256) in *.
  rewrite !len_cons in H.
  destruct (1 + (1 + (1 + (1 + (1 + (1 + (1 + len rest)))))) <? 5 + 2 + L) eqn:Emore;
    [discriminate|].
  apply Z.ltb_ge in Emore.
  apply bind_Ok_inv in H as [first [Hfirst H]].
  apply slice_Ok_inv in Hfirst as [Hf1 [_ [Hf2 _]]].
  apply bind_Ok_inv in H as [result [Hloop H]].
  apply unwrap_loop_Ok in Hloop.
  2:{ rewrite Hf2. destruct (L >? packetSize - 5 - 2) eqn:Q.
      - apply Z.gtb_lt in Q. lia.
      - lia. }
  apply bind_Ok_inv in H as [shi [Hhi H]].
  apply index_Ok_inv in Hhi as [Hhi _].
  apply bind_Ok_inv in H as [slo [_ H]].
  destruct (checkFailure (Z.shiftl (Z_of_byte shi) 8 + Z_of_byte slo));
    [discriminate|].
  apply slice_Ok_inv in H as [_ [_ [Hp _]]].
  exists d5, d6, rest.
  split; [reflexivity|]. split; [reflexivity|]. split; [assumption|].
  replace (256 * Z_of_byte d5 + Z_of_byte d6) with L by (unfold L; lia).
  lia.
Qed.

Lemma unwrapResponseAPDU_payload_implies_header_witness :
  exists hi lo rest,
    report [x2a; x90; x00] = TEZOS_CHANNEL ++ [x05; x00; x00; hi; lo] ++ rest /\
    len TEZOS_CHANNEL = 2 /\ 5 <= len rest /\
    2 <= 256 * Z_of_byte hi + Z_of_byte lo <= len rest /\
    len [x2a] = 256 * Z_of_byte hi + Z_of_byte lo - 2.
Proof.
  apply (unwrapResponseAPDU_payload_implies_header 1 TEZOS_CHANNEL
           (report [x2a; x90; x00]) 64 [x2a]).
  vm_compute. reflexivity.
Defined.

(** ** [ErrMoreData]: exactly when the declared length is not reached *)

Lemma checkFailure_not_more_data (code : Z) :
  checkFailure code <> Some ErrMoreData.
Proof.
  unfold checkFailure.
  destruct (negb (code =? 36864) && negb (Z.land code 65280 =? 24832)); [|discriminate].
  destruct code as [|p|p]; try discriminate.
  repeat (match goal with
          | |- context [match ?q with xI _ => _ | xO _ => _ | xH => _ end] =>
              is_var q; destruct q
          end); discriminate.
Qed.

Lemma bind_Err_inv {A B : Type} (m : outcome A) (k : A -> outcome B) (e : error) :
  bind m k = Err e -> m = Err e \/ exists a, m = Ok a /\ k a = Err e.
Proof.
  destruct m as [a| | |]; cbn [bind]; try discriminate.
  - intros H. right. exists a. split; [reflexivity|assumption].
  - intros H. left. injection H as ->. reflexivity.
Qed.

Lemma slice_not_Err {A : Type} (s : list A) (lo hi : Z) (e : error) :
  slice s lo hi <> Err e.
Proof. unfold slice. destruct (_ && _); discriminate. Qed.

Lemma index_not_Err {A : Type} (s : list A) (i : Z) (e : error) :
  index s i <> Err e.
Proof.
  unfold index. destruct (_ && _); [|discriminate].
  destruct (nth_error s (Z.to_nat i)); discriminate.
Qed.

Lemma Uint16_not_Err (b : list byte) (e : error) : Uint16 b <> Err e.
Proof.
  unfold Uint16. intros H.
  apply bind_Err_inv in H as [H|[b1 [_ H]]]; [exact (index_not_Err _ _ _ H)|].
  apply bind_Err_inv in H as [H|[b0 [_ H]]]; [exact (index_not_Err _ _ _ H)|].
  discriminate.
Qed.

(** The reassembly loop does not ask for more data: when the buffer ends
    before the declared length its error is "No data". *)
Lemma unwrap_loop_not_more_data (channel data : list byte)
    (packetSize responseLength : Z) :
  forall (fuel : nat) (sequenceIdx offset : Z) (result : list byte),
    unwrap_loop fuel channel data packetSize responseLength sequenceIdx offset result
    <> Err ErrMoreData.
Proof.
  induction fuel as [|fuel IH]; intros sequenceIdx offset result H.
  - cbn [unwrap_loop] in H. destruct (len result <? responseLength); discriminate.
  - rewrite unwrap_loop_unfold in H.
    destruct (len result <? responseLength); [|discriminate].
    destruct (offset =? len data); [discriminate|].
    apply bind_Err_inv in H as [H|[packedChan [_ H]]]; [exact (slice_not_Err _ _ _ _ H)|].
    destruct (negb (bytes_Equal packedChan channel)); [discriminate|].
    apply bind_Err_inv in H as [H|[tag [_ H]]]; [exact (index_not_Err _ _ _ H)|].
    destruct (negb (bytes_Equal [tag] [x05])); [discriminate|].
    apply bind_Err_inv in H as [H|[seqBytes [_ H]]]; [exact (slice_not_Err _ _ _ _ H)|].
    apply bind_Err_inv in H as [H|[packedSeq [_ H]]]; [exact (Uint16_not_Err _ _ H)|].
    destruct (negb (packedSeq =? sequenceIdx + 1)); [discriminate|].
    apply bind_Err_inv in H as [H|[chunk [_ H]]]; [exact (slice_not_Err _ _ _ _ H)|].
    exact (IH _ _ _ H).
Qed.

(** The first header, read by [unwrapResponseAPDU]: what is left is the
    test on the declared length and the reassembly. *)
Lemma unwrapResponseAPDU_header (fuel : nat) (channel rest : list byte)
    (packetSize responseLength : Z) :
  len channel = 2 ->
  0 <= responseLength < 65536 ->
  12 <= 7 + len rest ->
  unwrapResponseAPDU fuel channel
    (channel ++ [x05] ++ PutUint16 0 ++ PutUint16 responseLength ++ rest)
    packetSize
  = if 7 + len rest <? 7 + responseLength then Err ErrMoreData
    else
      result <- slice (channel ++ [x05] ++ PutUint16 0 ++ PutUint16 responseLength ++ rest)
                  7 (7 + (if responseLength >? packetSize - 5 - extraHeaderSize
                          then packetSize - 5 - extraHeaderSize else responseLength)) ;;
      result <- unwrap_loop fuel channel
                  (channel ++ [x05] ++ PutUint16 0 ++ PutUint16 responseLength ++ rest)
                  packetSize responseLength 0
                  (7 + (if responseLength >? packetSize - 5 - extraHeaderSize
                        then packetSize - 5 - extraHeaderSize else responseLength))
                  result ;;
      hi <- index result (len result - 2) ;;
      lo <- index result (len result - 2 + 1) ;;
      match checkFailure (Z.shiftl (Z_of_byte hi) 8 + Z_of_byte lo) with
      | Some err => Err err
      | None => slice result 0 (len result - 2)
      end.
Proof.
  intros Hchannel HL H12.
  set (data := channel ++ [x05] ++ PutUint16 0 ++ PutUint16 responseLength ++ rest).
  assert (Hdata : len data = 7 + len rest).
  { unfold data. rewrite !len_app, Hchannel, !len_PutUint16.
    change (len [x05]) with 1. lia. }
  assert (S1 : slice data 0 (0 + 2) = Ok channel).
  { unfold data. apply (slice_at [] channel); [reflexivity|lia]. }
  assert (S2 : index data (0 + 2) = Ok x05).
  { unfold data. apply index_at. lia. }
  assert (S3 : slice data (0 + 2 + 1) (0 + 2 + 1 + 2) = Ok (PutUint16 0)).
  { unfold data.
    replace (channel ++ [x05] ++ PutUint16 0 ++ PutUint16 responseLength ++ rest)
      with ((channel ++ [x05]) ++ PutUint16 0 ++ PutUint16 responseLength ++ rest)
      by (rewrite <- !app_assoc; reflexivity).
    apply slice_at.
    - rewrite len_app, Hchannel. reflexivity.
    - reflexivity. }
  assert (S4 : slice data (0 + 2 + 1 + 2) (0 + 2 + 1 + 2 + 2)
               = Ok (PutUint16 responseLength)).
  { unfold data.
    replace (channel ++ [x05] ++ PutUint16 0 ++ PutUint16 responseLength ++ rest)
      with ((channel ++ [x05] ++ PutUint16 0) ++ PutUint16 responseLength ++ rest)
      by (rewrite <- !app_assoc; reflexivity).
    apply slice_at.
    - rewrite !len_app, Hchannel. reflexivity.
    - reflexivity. }
  unfold unwrapResponseAPDU. cbv zeta. fold data.
  replace (len data =? 0) with false by (symmetry; apply Z.eqb_neq; lia).
  replace (len data <? 5 + extraHeaderSize + 5) with false
    by (symmetry; apply Z.ltb_ge; unfold extraHeaderSize; lia).
  cbn [orb].
  rewrite S1. cbn [bind]. rewrite bytes_Equal_refl. cbn [negb].
  rewrite S2. cbn [bind]. change (bytes_Equal [x05] [x05]) with true. cbn [negb].
  rewrite S3. cbn [bind]. rewrite Uint16_PutUint16 by lia. cbn [bind].
  change (negb (0 =? 0)) with false. cbv iota.
  rewrite S4. cbn [bind]. rewrite Uint16_PutUint16 by lia. cbn [bind].
  rewrite Hdata. change (5 + extraHeaderSize) with 7.
  change (0 + 2 + 1 + 2 + 2) with 7. reflexivity.
Qed.

(** X3.  For a buffer of at least twelve bytes that starts with a valid first
    header, [ErrMoreData] is returned exactly when the buffer is shorter
    than the header and the declared length together; the five header
    bytes of the further packets are not counted. *)
Theorem unwrapResponseAPDU_more_data_iff (fuel : nat) (channel rest : list byte)
    (packetSize responseLength : Z) :
  len channel = 2 ->
  0 <= responseLength < 65536 ->
  12 <= 7 + len rest ->
  (unwrapResponseAPDU fuel channel
     (channel ++ [x05] ++ PutUint16 0 ++ PutUint16 responseLength ++ rest)
     packetSize
   = Err ErrMoreData
   <-> 7 + len rest < 7 + responseLength).
Proof.
  intros Hchannel HL H12.
  rewrite unwrapResponseAPDU_header by assumption.
  destruct (7 + len rest <? 7 + responseLength) eqn:E.
  - apply Z.ltb_lt in E. split; [intros _; assumption|reflexivity].
  - apply Z.ltb_ge in E. split; [|lia]. intros H. exfalso.
    apply bind_Err_inv in H as [H|[first [_ H]]]; [exact (slice_not_Err _ _ _ _ H)|].
    apply bind_Err_inv in H as [H|[result [_ H]]];
      [exact (unwrap_loop_not_more_data _ _ _ _ _ _ _ _ H)|].
    apply bind_Err_inv in H as [H|[hi [_ H]]]; [exact (index_not_Err _ _ _ H)|].
    apply bind_Err_inv in H as [H|[lo [_ H]]]; [exact (index_not_Err _ _ _ H)|].
    destruct (checkFailure (Z.shiftl (Z_of_byte hi) 8 + Z_of_byte lo)) as [err|] eqn:C.
    + injection H as ->. exact (checkFailure_not_more_data _ C).
    + exact (slice_not_Err _ _ _ _ H).
Qed.

Lemma unwrapResponseAPDU_more_data_iff_witness :
  unwrapResponseAPDU 4 TEZOS_CHANNEL
    (TEZOS_CHANNEL ++ [x05] ++ PutUint16 0 ++ PutUint16 120 ++ repeat x07 57) 64
  = Err ErrMoreData
  <-> 7 + len (repeat x07 57) < 7 + 120.
Proof.
  apply (unwrapResponseAPDU_more_data_iff 4 TEZOS_CHANNEL (repeat x07 57) 64 120).
  - reflexivity.
  - lia.
  - vm_compute. discriminate.
Defined.

(** ** [Ledger.Read]: a response delivered in reports *)

(** A wrapped response: its header, its size, and its payload read back. *)
Lemma wrapped_frame (wfuel : nat) (channel payload frame : list byte)
    (packetSize : Z) :
  len channel = 2 ->
  len payload <= 65533 ->
  8 <= packetSize ->
  12 <= packetSize \/ packetSize < len payload + 9 ->
  len payload + 2 + packetSize <= Z.of_nat wfuel ->
  wrapCommandAPDU wfuel channel (payload ++ [x90; x00]) packetSize = Ok frame ->
  (exists tail, frame = channel ++ [x05] ++ PutUint16 0
                          ++ PutUint16 (len payload + 2) ++ tail) /\
  len frame = packetSize * packet_count (len payload + 2) packetSize /\
  forall ufuel : nat,
    len payload + 2 <= Z.of_nat ufuel ->
    unwrapResponseAPDU ufuel channel frame packetSize = Ok payload.
Proof.
  intros Hchannel Hpayload Hsize Hlong Hfuel Hwrap.
  set (command := payload ++ [x90; x00]) in *.
  pose proof (len_nonneg payload) as Hp0.
  assert (HL : len command = len payload + 2).
  { unfold command. rewrite len_app. reflexivity. }
  destruct (wrapCommandAPDU_frame wfuel channel command packetSize Hchannel
              ltac:(lia) Hsize ltac:(lia))
    as [out [zs [Hw [Hchunk [Hout [Hmod Hr]]]]]].
  destruct (wrapCommandAPDU_shape wfuel channel command packetSize Hchannel
              ltac:(lia) ltac:(lia))
    as [body [k [Hs [Hk [Hsz _]]]]].
  set (blockSize := if len command >? packetSize - 5 - extraHeaderSize
                    then packetSize - 5 - extraHeaderSize else len command) in *.
  set (chunk := firstn (Z.to_nat blockSize) command) in *.
  assert (Hb : 1 <= blockSize <= len command).
  { unfold blockSize, extraHeaderSize.
    destruct (len command >? packetSize - 5 - 2) eqn:E.
    - apply Z.gtb_lt in E. lia.
    - lia. }
  assert (Hw' : frame = channel ++ [x05] ++ PutUint16 0 ++ PutUint16 (len command)
                             ++ chunk ++ out ++ zs) by congruence.
  assert (Hs' : frame = (channel ++ [x05] ++ PutUint16 0
                           ++ PutUint16 (uint16 (len command)) ++ body)
                        ++ repeat x00 k) by congruence.
  clear Hw Hs. rename Hw' into Hw. rename Hs' into Hs.
  split; [|split].
  - exists (chunk ++ out ++ zs). rewrite <- HL. exact Hw.
  - rewrite Hs, <- HL, <- Hsz.
    rewrite !len_app, Hchannel, !len_PutUint16, len_repeat.
    change (len [x05]) with 1. lia.
  - intros ufuel Hufuel. rewrite Hw.
    pose proof (len_nonneg zs) as Hzs. pose proof (len_nonneg out) as Hout0.
    assert (Hlen : 7 + len command <= 7 + len chunk + len (out ++ zs)).
    { rewrite len_app. destruct (blockSize <? len command); lia. }
    assert (H12 : 12 <= 7 + len chunk + len (out ++ zs)).
    { destruct Hlong as [Hl|Hl].
      - apply Z.mod_divide in Hmod; [|lia]. destruct Hmod as [q Hq].
        assert (0 < q) by nia. nia.
      - assert (E : blockSize = packetSize - 7).
        { unfold blockSize, extraHeaderSize.
          replace (len command >? packetSize - 5 - 2) with true
            by (symmetry; apply Z.gtb_lt; lia). lia. }
        rewrite len_app.
        replace (blockSize <? len command) with true in Hout
          by (symmetry; apply Z.ltb_lt; lia).
        lia. }
    rewrite unwrapResponseAPDU_first_packet; try assumption; try lia.
    specialize (Hr ufuel (channel ++ [x05] ++ PutUint16 0 ++ PutUint16 (len command) ++ chunk)
                   zs ltac:(lia)).
    replace (len (channel ++ [x05] ++ PutUint16 0 ++ PutUint16 (len command) ++ chunk))
      with (7 + len chunk) in Hr
      by (rewrite !len_app, Hchannel, !len_PutUint16; change (len [x05]) with 1; lia).
    rewrite <- !app_assoc in Hr. rewrite Hr. cbn [bind].
    rewrite HL. replace (len payload + 2 - 2) with (len payload) by lia.
    unfold command.
    rewrite (index_at payload x90 [x00]) by reflexivity. cbn [bind].
    replace (payload ++ [x90; x00]) with ((payload ++ [x90]) ++ [x00])
      by (rewrite <- app_assoc; reflexivity).
    rewrite (index_at (payload ++ [x90]) x00 []) by (rewrite len_app; reflexivity).
    cbn [bind].
    change (checkFailure (Z.shiftl (Z_of_byte x90) 8 + Z_of_byte x00)) with (@None error).
    rewrite <- app_assoc.
    apply (slice_at [] payload [x90; x00]); [reflexivity|lia].
Qed.

Lemma packet_count_pos (n packetSize : Z) :
  6 <= packetSize -> 1 <= packet_count n packetSize.
Proof.
  intros Hp. unfold packet_count.
  destruct (n <=? packetSize - 7) eqn:E; [lia|].
  apply Z.leb_gt in E.
  assert (0 <= (n - (packetSize - 7) + (packetSize - 6)) / (packetSize - 5))
    by (apply Z.div_pos; lia).
  lia.
Qed.

(** The loop of [Ledger.Read] when [k] reports of a frame of [k + j]
    reports are in the buffer and the others are still to come. *)
Lemma Ledger_Read_loop_reports (channel payload frame : list byte)
    (responseLength : Z) (n : nat) (nb : bool) (wr snb : list (Z * option error))
    (rest : list (outcome (list byte))) :
  len channel = 2 ->
  0 <= responseLength < 65536 ->
  (exists tail, frame = channel ++ [x05] ++ PutUint16 0
                          ++ PutUint16 responseLength ++ tail) ->
  len frame = 64 * Z.of_nat n ->
  64 * (Z.of_nat n - 1) < 7 + responseLength ->
  (forall ufuel : nat, responseLength <= Z.of_nat ufuel ->
                       unwrapResponseAPDU ufuel channel frame 64 = Ok payload) ->
  forall (j k fuel : nat),
    (k + j = n)%nat -> (1 <= k)%nat ->
    responseLength + Z.of_nat j + 1 <= Z.of_nat fuel ->
    Ledger_Read_loop fuel channel (firstn (64 * k) frame)
      (mkDevice nb wr (map Ok (reports j (skipn (64 * k) frame)) ++ rest) snb)
    = (Ok payload, mkDevice nb wr rest snb).
Proof.
  intros Hchannel HL [tail Hframe] Hlen Hlast Hunwrap.
  induction j as [|j IH]; intros k fuel Hk H1 Hfuel.
  - destruct fuel as [|fuel]; [lia|].
    cbn [Ledger_Read_loop reports map app].
    rewrite firstn_all2 by (unfold len in Hlen; lia).
    rewrite Hunwrap by lia. reflexivity.
  - destruct fuel as [|fuel]; [lia|].
    cbn [Ledger_Read_loop].
    assert (Hpre : firstn (64 * k) frame
                   = channel ++ [x05] ++ PutUint16 0 ++ PutUint16 responseLength
                       ++ firstn (64 * k - 7) tail).
    { rewrite Hframe.
      replace (channel ++ [x05] ++ PutUint16 0 ++ PutUint16 responseLength ++ tail)
        with ((channel ++ [x05] ++ PutUint16 0 ++ PutUint16 responseLength) ++ tail)
        by (rewrite <- !app_assoc; reflexivity).
      replace (64 * k)%nat
        with (length (channel ++ [x05] ++ PutUint16 0 ++ PutUint16 responseLength)
              + (64 * k - 7))%nat.
      2:{ rewrite !length_app. unfold len in Hchannel.
          change (length (PutUint16 0)) with 2%nat.
          change (length (PutUint16 responseLength)) with 2%nat.
          cbn [length]. lia. }
      rewrite firstn_app_2.
      replace (length (channel ++ [x05] ++ PutUint16 0 ++ PutUint16 responseLength)
               + (64 * k - 7) - 7)%nat with (64 * k - 7)%nat.
      2:{ rewrite !length_app. unfold len in Hchannel.
          change (length (PutUint16 0)) with 2%nat.
          change (length (PutUint16 responseLength)) with 2%nat.
          cbn [length]. lia. }
      rewrite <- !app_assoc. reflexivity. }
    assert (Htail : len tail = 64 * Z.of_nat n - 7).
    { rewrite Hframe in Hlen.
      rewrite !len_app, Hchannel, !len_PutUint16 in Hlen.
      change (len [x05]) with 1 in Hlen. lia. }
    assert (Hrest : len (firstn (64 * k - 7) tail) = 64 * Z.of_nat k - 7).
    { unfold len in *. rewrite length_firstn. lia. }
    rewrite Hpre.
    rewrite unwrapResponseAPDU_more_data by (try assumption; lia).
    rewrite <- Hpre.
    unfold dbind, readData. cbn [read_replies reports map app nonblocking
                                 write_replies setnb_replies].
    rewrite firstn_plus, skipn_skipn.
    replace (64 * k + 64)%nat with (64 * S k)%nat by lia.
    replace (64 + 64 * k)%nat with (64 * S k)%nat by lia.
    apply IH; lia.
Qed.

(** The condition of the theorem below, for a frame of one or two
    reports. *)
Lemma two_reports_end_early (n : Z) :
  0 <= n -> packet_count n 64 <= 2 -> 64 * (packet_count n 64 - 1) < 7 + n.
Proof.
  intros Hn. unfold packet_count.
  destruct (n <=? 64 - 7) eqn:E; [lia|].
  apply Z.leb_gt in E. lia.
Qed.

(** X4.  [Ledger.Read] puts a response back together: when the device
    delivers, report by report, the frame of a payload followed by the
    status word [0x9000], and the last report but one ends before the
    declared length is reached, [Read] returns the payload and has
    consumed exactly the reports of the frame.  The condition holds for
    every response of one or two reports ([two_reports_end_early]). *)
Theorem Ledger_Read_reassembles (fuel wfuel : nat)
    (channel payload frame : list byte) (d : Device)
    (rest : list (outcome (list byte))) :
  len channel = 2 ->
  len payload <= 65533 ->
  len payload + 2 + 64 <= Z.of_nat wfuel ->
  wrapCommandAPDU wfuel channel (payload ++ [x90; x00]) 64 = Ok frame ->
  read_replies d
  = map Ok (reports (Z.to_nat (packet_count (len payload + 2) 64)) frame) ++ rest ->
  64 * (packet_count (len payload + 2) 64 - 1) < 7 + (len payload + 2) ->
  len payload + 2 + packet_count (len payload + 2) 64 <= Z.of_nat fuel ->
  Ledger_Read fuel channel d
  = (Ok payload, mkDevice (nonblocking d) (write_replies d) rest (setnb_replies d)).
Proof.
  intros Hchannel Hpayload Hwfuel Hwrap Hreads Hlast Hfuel.
  pose proof (len_nonneg payload) as Hp0.
  destruct (wrapped_frame wfuel channel payload frame 64 Hchannel Hpayload
              ltac:(lia) ltac:(left; lia) Hwfuel Hwrap) as [Htail [Hlen Hunwrap]].
  pose proof (packet_count_pos (len payload + 2) 64 ltac:(lia)) as Hpos.
  destruct d as [nb wr rd snb]. cbn [read_replies nonblocking write_replies
                                     setnb_replies] in *.
  subst rd.
  destruct (Z.to_nat (packet_count (len payload + 2) 64)) as [|j] eqn:En; [lia|].
  unfold Ledger_Read, dbind, readData.
  cbn [read_replies reports map app nonblocking write_replies setnb_replies].
  change (firstn 64 frame) with (firstn (64 * 1) frame).
  change (skipn 64 frame) with (skipn (64 * 1) frame).
  apply (Ledger_Read_loop_reports channel payload frame (len payload + 2) (S j));
    try assumption; try lia.
Qed.

Lemma Ledger_Read_reassembles_witness :
  Ledger_Read 80 TEZOS_CHANNEL
    (mkDevice true []
       (map Ok (reports (Z.to_nat (packet_count (len (repeat x2a 64) + 2) 64))
                        (match wrapCommandAPDU 130 TEZOS_CHANNEL
                                 (repeat x2a 64 ++ [x90; x00]) 64
                         with Ok f => f | _ => [] end))
        ++ [Ok (report [x90; x00])]) [])
  = (Ok (repeat x2a 64), mkDevice true [] [Ok (report [x90; x00])] []).
Proof.
  apply (Ledger_Read_reassembles 80 130 TEZOS_CHANNEL (repeat x2a 64)
           (match wrapCommandAPDU 130 TEZOS_CHANNEL (repeat x2a 64 ++ [x90; x00]) 64
            with Ok f => f | _ => [] end)
           (mkDevice true []
              (map Ok (reports (Z.to_nat (packet_count (len (repeat x2a 64) + 2) 64))
                               (match wrapCommandAPDU 130 TEZOS_CHANNEL
                                        (repeat x2a 64 ++ [x90; x00]) 64
                                with Ok f => f | _ => [] end))
               ++ [Ok (report [x90; x00])]) [])
           [Ok (report [x90; x00])]).
  - reflexivity.
  - vm_compute. discriminate.
  - vm_compute. discriminate.
  - vm_compute. reflexivity.
  - reflexivity.
  - vm_compute. reflexivity.
  - vm_compute. discriminate.
Defined.

(* ----------------------------------------------------------------- *)
(** ** The BIP-32 path codec on any input *)

(** *** Decimal texts *)







(** *** The scanner on any text *)

Lemma scan_sections_scanned (s : list byte) :
  forall (n : nat) (st : scan_state),
    match st with
    | Digits ds => negb (len ds =? 0) = true /\ forallb isDigit ds = true
    | _ => True
    end ->
    Forall scanned (scan_sections s n st) /\
    (length (scan_sections s n st) <= n)%nat.
Proof.
  induction s as [|c t IH]; intros n st Hst; destruct n as [|n];
    cbn [scan_sections].
  - split; [apply Forall_nil|cbn [length]; lia].
  - destruct st as [| |ds].
    + split; [apply Forall_nil|cbn [length]; lia].
    + split; [apply Forall_nil|cbn [length]; lia].
    + split; [|cbn [length]; lia].
      apply Forall_cons; [|apply Forall_nil]. exists ds, []. tauto.
  - split; [apply Forall_nil|cbn [length]; lia].
  - destruct st as [| |ds].
    + apply IH. destruct (isSlash c); exact I.
    + destruct (isDigit c) eqn:Hd.
      * apply IH. split; [reflexivity|]. cbn [forallb]. rewrite Hd. reflexivity.
      * apply IH. destruct (isSlash c); exact I.
    + destruct Hst as [Hne Hds]. destruct (isDigit c) eqn:Hd.
      * apply IH. split.
        -- rewrite len_app. change (len [c]) with 1.
           pose proof (len_nonneg ds). apply negb_true_iff, Z.eqb_neq. lia.
        -- rewrite forallb_app, Hds. cbn [forallb]. rewrite Hd. reflexivity.
      * destruct (isModifier c) eqn:Hm.
        -- destruct (IH n Scan I) as [H1 H2]. split; [|cbn [length]; lia].
           apply Forall_cons; [|assumption]. exists ds, [c]. tauto.
        -- destruct (IH n (if isSlash c then Slash else Scan)) as [H1 H2];
             [destruct (isSlash c); exact I|].
           split; [|cbn [length]; lia].
           apply Forall_cons; [|assumption]. exists ds, []. tauto.
Qed.

Lemma Atoi_of_digits (ds : list byte) :
  negb (len ds =? 0) = true -> forallb isDigit ds = true ->
  Atoi ds = if 2 ^ 63 - 1 <? decimal_value ds
            then Err (errors_New "strconv.Atoi: value out of range")
            else Ok (decimal_value ds).
Proof.
  intros Hne Hds. unfold Atoi.
  destruct ds as [|d ds]; [discriminate|].
  assert (Hd : isDigit d = true) by (cbn [forallb] in Hds; apply andb_prop in Hds; tauto).
  assert (Hminus : Byte.eqb d "-" = false).
  { destruct (Byte.eqb d "-") eqn:E; [|reflexivity].
    apply byte_eqb_eq in E. subst d. discriminate. }
  assert (Hplus : Byte.eqb d "+" = false).
  { destruct (Byte.eqb d "+") eqn:E; [|reflexivity].
    apply byte_eqb_eq in E. subst d. discriminate. }
  rewrite Hminus, Hplus.
  apply negb_true_iff in Hne. rewrite Hne, Hds. cbn [negb orb].
  pose proof (decimal_value_nonneg (d :: ds) Hds) as H0.
  replace (decimal_value (d :: ds) <? - 2 ^ 63) with false
    by (symmetry; apply Z.ltb_ge; lia).
  reflexivity.
Qed.

Lemma marker_value (m : list byte) (val : Z) :
  is_marker m = true ->
  (if bytes_Equal m (bytes_of_string "h")
      || bytes_Equal m (bytes_of_string "H")
      || bytes_Equal m (bytes_of_string "'")
   then Ok (val + HARDENED)
   else if negb (len m =? 0)
        then Err (errors_New "Invalid modifier")
        else Ok val)
  = Ok (match m with [] => val | _ => val + HARDENED end).
Proof.
  intros Hm. destruct m as [|c [|c' m]]; cbn [is_marker] in Hm; try discriminate.
  - reflexivity.
  - unfold isModifier in Hm.
    apply orb_prop in Hm as [Hm|Hm]; [apply orb_prop in Hm as [Hm|Hm]|];
      apply byte_eqb_eq in Hm; subst c; reflexivity.
Qed.

Lemma encodeBipPath_loop_scanned (sections : list (list (list byte))) :
  Forall scanned sections ->
  forall retPath,
    (exists vals,
        encodeBipPath_loop sections retPath
        = Ok (retPath ++ concat (map Sprintf_08x vals)) /\
        length vals = length sections /\
        Forall (fun v => 0 <= v < 2 ^ 32) vals) \/
    encodeBipPath_loop sections retPath = Err (errors_New "Invalid child index") \/
    encodeBipPath_loop sections retPath
    = Err (errors_New "strconv.Atoi: value out of range").
Proof.
  induction 1 as [|section rest Hs _ IH]; intros retPath.
  - left. exists []. cbn. rewrite app_nil_r. repeat split. constructor.
  - destruct Hs as [ds [m [-> [Hne [Hds Hm]]]]].
    cbn [encodeBipPath_loop].
    change (len (submatch ds m) =? 3) with true. cbn [negb].
    change (index (submatch ds m) 1) with (Ok ds).
    change (index (submatch ds m) 2) with (Ok m).
    cbn [bind]. rewrite Atoi_of_digits by assumption.
    destruct (2 ^ 63 - 1 <? decimal_value ds); [right; right; reflexivity|].
    cbn [bind].
    destruct (decimal_value ds >=? HARDENED) eqn:Hv; [right; left; reflexivity|].
    rewrite Z.geb_leb in Hv. apply Z.leb_gt in Hv.
    rewrite marker_value by assumption. cbn [bind].
    pose proof (decimal_value_nonneg ds Hds) as H0.
    match goal with
    | |- context [Sprintf_08x ?v] => set (val := v)
    end.
    assert (Hval : 0 <= val < 2 ^ 32).
    { unfold val, HARDENED in *. destruct m; lia. }
    destruct (IH (retPath ++ Sprintf_08x val)) as [[vals [E [Hl Hr]]]|[E|E]].
    + left. exists (val :: vals). rewrite E. cbn [map concat length].
      rewrite <- app_assoc. repeat split; [congruence|].
      constructor; assumption.
    + right; left; assumption.
    + right; right; assumption.
Qed.

Lemma hex_DecodeString_path (vals : list Z) :
  Forall (fun v => 0 <= v < 2 ^ 32) vals ->
  hex_DecodeString (bytes_of_string "04" ++ concat (map Sprintf_08x vals))
  = Ok (x04 :: flat_map be32 vals).
Proof.
  intros H.
  change (bytes_of_string "04") with ["0"%byte; "4"%byte].
  cbn [app hex_DecodeString].
  change (fromHexChar "0") with (Ok 0). change (fromHexChar "4") with (Ok 4).
  cbn [bind]. rewrite hex_DecodeString_words by assumption. reflexivity.
Qed.

Lemma scan_skip (junk s : list byte) (n : nat) :
  forallb (fun c => negb (isSlash c)) junk = true ->
  scan_sections (junk ++ s) n Scan = scan_sections s n Scan.
Proof.
  destruct n as [|n]; [intros _; rewrite !scan_sections_zero; reflexivity|].
  induction junk as [|c junk IH]; intros H; [reflexivity|].
  cbn [forallb] in H. apply andb_prop in H as [Hc H].
  apply negb_true_iff in Hc.
  cbn [app scan_sections]. rewrite Hc. apply IH. assumption.
Qed.

(** *** [encodeBipPath] on any text *)

(** X8.  Whatever the text, [encodeBipPath] does not panic and has three
    outcomes only: the byte 4 followed by at most four 32-bit big-endian
    words, the error "Invalid child index", or the range error of
    [strconv.Atoi].  The errors "Not enough sections" and "Invalid
    modifier" cannot occur: the expression yields three-element matches
    whose marker is empty or one of [h], [H], [']. *)
Theorem encodeBipPath_outcomes (path : list byte) :
  (exists vals,
      encodeBipPath path = Ok (x04 :: flat_map be32 vals) /\
      (length vals <= 4)%nat /\
      Forall (fun v => 0 <= v < 2 ^ 32) vals) \/
  encodeBipPath path = Err (errors_New "Invalid child index") \/
  encodeBipPath path = Err (errors_New "strconv.Atoi: value out of range").
Proof.
  unfold encodeBipPath, FindAllStringSubmatch.
  destruct (scan_sections_scanned path 4 Scan I) as [Hs Hl].
  destruct (encodeBipPath_loop_scanned _ Hs (bytes_of_string "04"))
    as [[vals [E [Hv Hr]]]|[E|E]]; rewrite E; cbn [bind].
  - left. exists vals. rewrite hex_DecodeString_path by assumption.
    repeat split; [lia|assumption].
  - right; left; reflexivity.
  - right; right; reflexivity.
Qed.

(** X9.  [SetBipPath] never stores an empty path: after a call that returns
    no error the field holds the byte 4 and at most four words, so the
    guard [len(l.BipPath) == 0] of the commands that need a path passes;
    after a call that returns an error the field is unchanged. *)
Theorem SetBipPath_stores_nonempty (BipPath bipPath : list byte) :
  (fst (SetBipPath BipPath bipPath) = Ok tt /\
   exists words, snd (SetBipPath BipPath bipPath) = x04 :: words /\
                 len words <= 16 /\ len words mod 4 = 0) \/
  ((exists err, fst (SetBipPath BipPath bipPath) = Err err) /\
   snd (SetBipPath BipPath bipPath) = BipPath).
Proof.
  unfold SetBipPath.
  destruct (encodeBipPath_outcomes bipPath) as [[vals [E [Hl Hr]]]|[E|E]];
    rewrite E; cbn [fst snd].
  - left. split; [reflexivity|]. exists (flat_map be32 vals).
    split; [reflexivity|].
    assert (H4 : len (flat_map be32 vals) = 4 * Z.of_nat (length vals)).
    { clear. induction vals as [|v vals IH]; [reflexivity|].
      cbn [flat_map length]. rewrite len_app, IH.
      change (len (be32 v)) with 4. lia. }
    rewrite H4. split; [lia|].
    rewrite Z.mul_comm. apply Z.mod_mul. lia.
  - right. split; [eexists; reflexivity|reflexivity].
  - right. split; [eexists; reflexivity|reflexivity].
Qed.

(** X10.  Text before the first ['/'] is not looked at: a path written
    [m/44'/...] is encoded like [/44'/...], and a text without any ['/']
    is accepted and encoded as the single byte 4. *)
Theorem encodeBipPath_ignores_text_before_slash (junk path : list byte) :
  forallb (fun c => negb (isSlash c)) junk = true ->
  encodeBipPath (junk ++ path) = encodeBipPath path /\
  encodeBipPath junk = Ok [x04].
Proof.
  intros H. unfold encodeBipPath, FindAllStringSubmatch. split.
  - rewrite scan_skip by assumption. reflexivity.
  - rewrite <- (app_nil_r junk), scan_skip by assumption. reflexivity.
Qed.

Lemma encodeBipPath_ignores_text_before_slash_witness :
  encodeBipPath (bytes_of_string "m" ++ bytes_of_string "/44'/1729'/0'/0'")
  = encodeBipPath (bytes_of_string "/44'/1729'/0'/0'") /\
  encodeBipPath (bytes_of_string "m") = Ok [x04].
Proof.
  apply (encodeBipPath_ignores_text_before_slash
           (bytes_of_string "m") (bytes_of_string "/44'/1729'/0'/0'")).
  reflexivity.
Defined.

(** *** An index that does not fit *)


Lemma render_app (a b : list segment) : render (a ++ b) = render a ++ render b.
Proof. unfold render. rewrite map_app, concat_app. reflexivity. Qed.







(** *** [DecodeBipPath] *)

Lemma Uint32_be32 (v : Z) : 0 <= v < 2 ^ 32 -> Uint32 (be32 v) = Ok v.
Proof.
  intros Hv. unfold be32.
  change (Uint32 [byte_of_Z (Z.shiftr v 24); byte_of_Z (Z.shiftr v 16);
                  byte_of_Z (Z.shiftr v 8); byte_of_Z v])
    with (Ok (Z.lor (Z.lor (Z.lor (Z_of_byte (byte_of_Z v))
                                  (Z.shiftl (Z_of_byte (byte_of_Z (Z.shiftr v 8))) 8))
                           (Z.shiftl (Z_of_byte (byte_of_Z (Z.shiftr v 16))) 16))
                    (Z.shiftl (Z_of_byte (byte_of_Z (Z.shiftr v 24))) 24))).
  f_equal. rewrite !Z_of_byte_of_Z, !Z.shiftr_div_pow2 by lia.
  change (2 ^ 8) with 256. change (2 ^ 16) with 65536. change (2 ^ 24) with 16777216.
  pose proof (Z.mod_pos_bound v 256 eq_refl).
  pose proof (Z.mod_pos_bound (v / 256) 256 eq_refl).
  pose proof (Z.mod_pos_bound (v / 65536) 256 eq_refl).
  pose proof (Z.mod_pos_bound (v / 16777216) 256 eq_refl).
  rewrite (lor_shiftl_add (v mod 256)) by lia. change (2 ^ 8) with 256.
  rewrite (lor_shiftl_add (v mod 256 + _)) by lia. change (2 ^ 16) with 65536.
  rewrite lor_shiftl_add by lia. change (2 ^ 24) with 16777216.
  pose proof (Z.div_mod v 256 ltac:(lia)).
  pose proof (Z.div_mod (v / 256) 256 ltac:(lia)).
  pose proof (Z.div_mod (v / 65536) 256 ltac:(lia)).
  replace (v / 256 / 256) with (v / 65536) in * by (rewrite Z.div_div by lia; reflexivity).
  assert (v / 65536 / 256 = v / 16777216) by (rewrite Z.div_div by lia; reflexivity).
  assert (0 <= v / 16777216 < 256)
    by (split; [apply Z.div_pos; lia|apply Z.div_lt_upper_bound; lia]).
  rewrite (Z.mod_small (v / 16777216)) by lia.
  lia.
Qed.

Lemma DecodeBipPath_loop_unfold (fuel : nat) (pathBytes : list byte)
    (length i : Z) (path : list byte) :
  DecodeBipPath_loop (S fuel) pathBytes length i path =
  if i <? length * 4 then
    word <- slice pathBytes i (i + 4) ;;
    v <- Uint32 word ;;
    top <- index pathBytes i ;;
    DecodeBipPath_loop fuel pathBytes length (i + 4)
      (path ++ bytes_of_string "/"
            ++ Sprintf_d (snd (if Z_of_byte top =? 0x80
                               then (bytes_of_string "'", uint32 (v - HARDENED))
                               else ([], v)))
            ++ fst (if Z_of_byte top =? 0x80
                    then (bytes_of_string "'", uint32 (v - HARDENED))
                    else ([], v)))
  else Ok path.
Proof.
  cbn [DecodeBipPath_loop]. destruct (i <? length * 4); [|reflexivity].
  destruct (slice pathBytes i (i + 4)) as [word| | |]; cbn [bind]; try reflexivity.
  destruct (Uint32 word) as [v| | |]; cbn [bind]; try reflexivity.
  destruct (index pathBytes i) as [top| | |]; cbn [bind]; try reflexivity.
  destruct (Z_of_byte top =? 0x80); reflexivity.
Qed.

Lemma DecodeBipPath_loop_done (fuel : nat) (pathBytes : list byte)
    (length i : Z) (path : list byte) :
  length * 4 <= i -> DecodeBipPath_loop fuel pathBytes length i path = Ok path.
Proof.
  intros H. destruct fuel; cbn [DecodeBipPath_loop];
    replace (i <? length * 4) with false by (symmetry; apply Z.ltb_ge; lia);
    reflexivity.
Qed.

Lemma index_head {A : Type} (x : A) (l : list A) : index (x :: l) 0 = Ok x.
Proof. apply (index_at [] x l). reflexivity. Qed.

Lemma len_be32 (v : Z) : len (be32 v) = 4.
Proof. reflexivity. Qed.

Lemma len_flat_be32 (vs : list Z) : len (flat_map be32 vs) = 4 * len vs.
Proof.
  induction vs as [|v vs IH]; [reflexivity|].
  cbn [flat_map]. rewrite len_app, IH, len_be32, len_cons. lia.
Qed.

Lemma DecodeBipPath_loop_words (extra : list byte) (vs : list Z) :
  Forall (fun v => 0 <= v < 2 ^ 32) vs ->
  forall (fuel : nat) (pre path : list byte) (length : Z),
    length * 4 = len pre - 1 + 4 * len vs ->
    (List.length vs <= fuel)%nat ->
    DecodeBipPath_loop fuel (pre ++ flat_map be32 vs ++ extra) length (len pre) path
    = Ok (path ++ concat (map path_word vs)).
Proof.
  induction 1 as [|v vs Hv _ IH]; intros fuel pre path length Hlen Hfuel.
  - cbn [map concat]. rewrite app_nil_r.
    apply DecodeBipPath_loop_done. change (len (@nil Z)) with 0 in Hlen. lia.
  - destruct fuel as [|fuel]; [cbn [List.length] in Hfuel; lia|].
    rewrite len_cons in Hlen. pose proof (len_nonneg vs) as Hvs.
    rewrite DecodeBipPath_loop_unfold.
    replace (len pre <? length * 4) with true by (symmetry; apply Z.ltb_lt; lia).
    cbn [flat_map]. rewrite <- !app_assoc.
    rewrite (slice_at pre (be32 v)) by (try reflexivity; rewrite len_be32; lia).
    cbn [bind]. rewrite Uint32_be32 by assumption. cbn [bind].
    unfold be32 at 1. cbn [app].
    rewrite index_at by reflexivity. cbn [bind].
    rewrite Z_of_byte_of_Z.
    assert (Htop : 0 <= Z.shiftr v 24 < 256).
    { rewrite Z.shiftr_div_pow2 by lia.
      split; [apply Z.div_pos; lia|apply Z.div_lt_upper_bound; lia]. }
    rewrite (Z.mod_small (Z.shiftr v 24)) by assumption.
    specialize (IH fuel (pre ++ be32 v)
                   (path ++ path_word v) length).
    rewrite len_app, len_be32 in IH.
    rewrite <- !app_assoc in IH. unfold be32 at 1 in IH. cbn [app] in IH.
    match goal with
    | |- context [path ++ ?w] => assert (Hw : w = path_word v)
    end.
    { unfold path_word.
      destruct (Z.shiftr v 24 =? 128) eqn:E; cbn [fst snd].
      - apply Z.eqb_eq in E. rewrite Z.shiftr_div_pow2 in E by lia.
        assert (2 ^ 24 * 128 <= v < 2 ^ 24 * 129).
        { pose proof (Z.div_mod v (2 ^ 24) ltac:(lia)).
          pose proof (Z.mod_pos_bound v (2 ^ 24) ltac:(lia)). lia. }
        unfold uint32, HARDENED. rewrite Z.mod_small by lia. reflexivity.
      - rewrite app_nil_r. reflexivity. }
    rewrite Hw. cbn [map concat].
    apply IH; [lia|cbn [List.length] in Hfuel; lia].
Qed.

(** X12.  [DecodeBipPath] on a count byte [n], [n] words and any further bytes:
    the further bytes are not looked at, and each word is written as
    [path_word] has it.  The mark ['] is given by the first byte of the
    word being [0x80], so that a word with the top bit set and an index
    of [2^24] or more is written as a plain number of [2^31] or more. *)
Theorem DecodeBipPath_words (fuel : nat) (vs : list Z) (extra : list byte) :
  Forall (fun v => 0 <= v < 2 ^ 32) vs ->
  len vs <= 255 ->
  (length vs <= fuel)%nat ->
  DecodeBipPath fuel (byte_of_Z (len vs) :: flat_map be32 vs ++ extra)
  = Ok (concat (map path_word vs)).
Proof.
  intros Hvs Hn Hfuel. unfold DecodeBipPath.
  pose proof (len_nonneg vs) as H0. pose proof (len_nonneg extra) as He.
  rewrite index_head. cbn [bind].
  rewrite Z_of_byte_of_Z, Z.mod_small by lia.
  rewrite len_cons, len_app, len_flat_be32.
  replace (1 + (4 * len vs + len extra) <? 1 + len vs * 4) with false
    by (symmetry; apply Z.ltb_ge; lia).
  apply (DecodeBipPath_loop_words extra vs Hvs fuel [byte_of_Z (len vs)] [] (len vs));
    [rewrite len_cons; change (len (@nil byte)) with 0; lia|assumption].
Qed.

Lemma DecodeBipPath_words_witness :
  DecodeBipPath 8 (byte_of_Z (len [0x8000002c; 0x81000000; 7])
                    :: flat_map be32 [0x8000002c; 0x81000000; 7] ++ [xff])
  = Ok (concat (map path_word [0x8000002c; 0x81000000; 7])).
Proof.
  apply (DecodeBipPath_words 8 [0x8000002c; 0x81000000; 7] [xff]).
  - repeat constructor; lia.
  - vm_compute. discriminate.
  - cbn [length]. lia.
Defined.

(** *** [encodeBipPath] after [DecodeBipPath] *)








(* ----------------------------------------------------------------- *)
(** ** [Ledger.Write] *)

(** A write the device takes whole: the count returned is that of the
    frame and of the byte put before it. *)
Lemma Ledger_Write_whole (fuel : nat) (apdu : TzApdu) (channel : list byte)
    (d : Device) :
  len channel = 2 ->
  write_replies d = [] ->
  5 + len (CDATA apdu) + 64 <= Z.of_nat fuel ->
  Ledger_Write fuel apdu channel d
  = (Ok (1 + 64 * packet_count (5 + len (CDATA apdu)) 64), d).
Proof.
  intros Hchannel Hw Hfuel.
  unfold Ledger_Write, MarshalBinary, dbind, dlift, wrapping.
  set (apduBytes := [CLA; INS apdu; P1 apdu; P2 apdu; byte_of_Z (len (CDATA apdu))]
                    ++ CDATA apdu).
  assert (Hlen : len apduBytes = 5 + len (CDATA apdu)).
  { unfold apduBytes. rewrite len_app. reflexivity. }
  destruct (wrapCommandAPDU_shape fuel channel apduBytes 64 Hchannel ltac:(lia)
              ltac:(lia)) as [body [k [Hs [Hk [Hsz _]]]]].
  rewrite Hs. unfold Dev_Write. rewrite Hw.
  pose proof (len_nonneg body) as Hb.
  match goal with
  | |- context [len ([x00] ++ ?f)] =>
      assert (Hf : len ([x00] ++ f) = 1 + 64 * packet_count (5 + len (CDATA apdu)) 64)
  end.
  { rewrite <- Hlen, <- Hsz.
    rewrite !len_app, Hchannel, !len_PutUint16, len_repeat.
    change (len [x05]) with 1. change (len [x00]) with 1. lia. }
  cbn [fst snd]. rewrite Hf.
  pose proof (packet_count_pos (5 + len (CDATA apdu)) 64 ltac:(lia)).
  replace (1 + 64 * packet_count (5 + len (CDATA apdu)) 64 <=? 0) with false
    by (symmetry; apply Z.leb_gt; lia).
  reflexivity.
Qed.



(** X7.  When [Dev.Write] reports no byte written and no error, [Write]
    returns [(0, nil)]: [errors.Wrap] of a [nil] error is [nil], so the
    failed write reaches the caller as a success. *)
Theorem Ledger_Write_nothing_written_is_no_error (fuel : nat) (apdu : TzApdu)
    (channel : list byte) (d : Device) (b : Z)
    (replies : list (Z * option error)) :
  len channel = 2 ->
  write_replies d = (b, None) :: replies ->
  b <= 0 ->
  5 + len (CDATA apdu) + 64 <= Z.of_nat fuel ->
  Ledger_Write fuel apdu channel d
  = (Ok 0, mkDevice (nonblocking d) replies (read_replies d) (setnb_replies d)).
Proof.
  intros Hchannel Hw Hb Hfuel.
  unfold Ledger_Write, MarshalBinary, dbind, dlift, wrapping.
  set (apduBytes := [CLA; INS apdu; P1 apdu; P2 apdu; byte_of_Z (len (CDATA apdu))]
                    ++ CDATA apdu).
  assert (Hlen : len apduBytes = 5 + len (CDATA apdu)).
  { unfold apduBytes. rewrite len_app. reflexivity. }
  destruct (wrapCommandAPDU_shape fuel channel apduBytes 64 Hchannel ltac:(lia)
              ltac:(lia)) as [body [k [Hs _]]].
  rewrite Hs. unfold Dev_Write. rewrite Hw. cbn [fst snd].
  replace (b <=? 0) with true by (symmetry; apply Z.leb_le; assumption).
  reflexivity.
Qed.

Lemma Ledger_Write_nothing_written_is_no_error_witness :
  Ledger_Write 100 (mkTzApdu Version x00 x00 []) TEZOS_CHANNEL
    (mkDevice true [(0, None)] [] [])
  = (Ok 0, mkDevice true [] [] []).
Proof.
  apply (Ledger_Write_nothing_written_is_no_error 100 (mkTzApdu Version x00 x00 [])
           TEZOS_CHANNEL (mkDevice true [(0, None)] [] []) 0 []).
  - reflexivity.
  - reflexivity.
  - lia.
  - vm_compute. discriminate.
Defined.

(** ** A response in one report *)

Lemma length_report_body (response : list byte) :
  len response <= 57 ->
  report response
  = TEZOS_CHANNEL ++ [x05] ++ PutUint16 0 ++ PutUint16 (len response)
      ++ response ++ repeat x00 (57 - length response).
Proof.
  intros H. unfold report. cbv zeta.
  replace (64 - length (TEZOS_CHANNEL ++ [x05] ++ PutUint16 0
                          ++ PutUint16 (len response) ++ response))%nat
    with (57 - length response)%nat.
  - rewrite <- !app_assoc. reflexivity.
  - rewrite !length_app. cbn [length TEZOS_CHANNEL PutUint16]. lia.
Qed.

(** [unwrapResponseAPDU] on one report: the status word decides. *)
Lemma unwrapResponseAPDU_report (fuel : nat) (payload : list byte) (hi lo : byte) :
  len payload <= 55 ->
  unwrapResponseAPDU fuel TEZOS_CHANNEL (report (payload ++ [hi; lo])) 64
  = match checkFailure (Z.shiftl (Z_of_byte hi) 8 + Z_of_byte lo) with
    | Some err => Err err
    | None => Ok payload
    end.
Proof.
  intros Hp. pose proof (len_nonneg payload) as Hp0.
  set (response := payload ++ [hi; lo]).
  assert (HL : len response = len payload + 2).
  { unfold response. rewrite len_app. reflexivity. }
  rewrite length_report_body by lia.
  assert (Hz : len (repeat x00 (57 - length response)) = 57 - len response).
  { rewrite len_repeat. unfold len in *. lia. }
  rewrite unwrapResponseAPDU_first_packet; try reflexivity; try lia.
  2:{ unfold extraHeaderSize.
      replace (len response >? 64 - 5 - 2) with false
        by (symmetry; rewrite Z.gtb_ltb; apply Z.ltb_ge; lia).
      reflexivity. }
  rewrite unwrap_loop_done by lia. cbn [bind].
  rewrite HL. replace (len payload + 2 - 2) with (len payload) by lia.
  unfold response.
  rewrite (index_at payload hi [lo]) by reflexivity. cbn [bind].
  replace (payload ++ [hi; lo]) with ((payload ++ [hi]) ++ [lo])
    by (rewrite <- app_assoc; reflexivity).
  rewrite (index_at (payload ++ [hi]) lo []) by (rewrite len_app; reflexivity).
  cbn [bind].
  destruct (checkFailure (Z.shiftl (Z_of_byte hi) 8 + Z_of_byte lo)); [reflexivity|].
  rewrite <- app_assoc.
  apply (slice_at [] payload [hi; lo]); [reflexivity|lia].
Qed.

(** [Ledger.Read] when the next report carries the whole response. *)
Lemma Ledger_Read_report (fuel : nat) (payload : list byte) (d : Device)
    (rest : list (outcome (list byte))) :
  len payload <= 55 ->
  read_replies d = Ok (report (payload ++ [x90; x00])) :: rest ->
  (1 <= fuel)%nat ->
  Ledger_Read fuel TEZOS_CHANNEL d
  = (Ok payload, mkDevice (nonblocking d) (write_replies d) rest (setnb_replies d)).
Proof.
  intros Hp Hr Hfuel. destruct fuel as [|fuel]; [lia|].
  unfold Ledger_Read, dbind, readData. rewrite Hr.
  cbn [Ledger_Read_loop app].
  rewrite unwrapResponseAPDU_report by assumption.
  change (checkFailure (Z.shiftl (Z_of_byte x90) 8 + Z_of_byte x00)) with (@None error).
  reflexivity.
Qed.

(** ** The queries of the application *)

Lemma dbind_Ok {A B : Type} (m : dev A) (k : A -> dev B) (d d' : Device) (a : A) :
  m d = (Ok a, d') -> dbind m k d = k a d'.
Proof. intros H. unfold dbind. rewrite H. reflexivity. Qed.

Lemma wrapping_Ok {A : Type} (m : dev A) (msg : string) (d d' : Device) (a : A) :
  m d = (Ok a, d') -> wrapping m msg d = (Ok a, d').
Proof. intros H. unfold wrapping. rewrite H. reflexivity. Qed.

(** A query without data: the command is written, the reply read. *)
Lemma query_reply {A : Type} (fuel : nat) (ins : byte) (payload : list byte)
    (d : Device) (rest : list (outcome (list byte))) (msg : string)
    (k : list byte -> dev A) :
  write_replies d = [] ->
  read_replies d = Ok (report (payload ++ [x90; x00])) :: rest ->
  len payload <= 55 ->
  69 <= Z.of_nat fuel ->
  (Ledger_Write fuel (mkTzApdu ins x00 x00 []) TEZOS_CHANNEL d
   = (Ok (1 + 64 * packet_count 5 64), d)) /\
  dbind (wrapping (Ledger_Read fuel TEZOS_CHANNEL) msg) k d
  = k payload (mkDevice (nonblocking d) (write_replies d) rest (setnb_replies d)).
Proof.
  intros Hw Hr Hp Hfuel. split.
  - apply (Ledger_Write_whole fuel (mkTzApdu ins x00 x00 []) TEZOS_CHANNEL d);
      [reflexivity|assumption|].
    cbn [CDATA]. change (len (@nil byte)) with 0. lia.
  - apply dbind_Ok. apply wrapping_Ok.
    apply Ledger_Read_report; [assumption|assumption|lia].
Qed.

(** X14.  [GetVersion] indexes the first four bytes of the reply without a
    test on its length: a reply of fewer than four bytes (the bare status
    word, say) makes it panic; with four bytes or more it returns the
    class and the three numbers, whatever follows them. *)
Theorem GetVersion_needs_four_bytes (fuel : nat) (payload : list byte)
    (d : Device) (rest : list (outcome (list byte))) :
  write_replies d = [] ->
  read_replies d = Ok (report (payload ++ [x90; x00])) :: rest ->
  len payload <= 55 ->
  69 <= Z.of_nat fuel ->
  (len payload < 4 -> fst (GetVersion fuel d) = Panic) /\
  (forall c v1 v2 v3 more,
      payload = c :: v1 :: v2 :: v3 :: more ->
      fst (GetVersion fuel d)
      = Ok ((if Z_of_byte c =? 1
             then bytes_of_string "Baking" else bytes_of_string "Wallet")
            ++ bytes_of_string " " ++ Sprintf_d (Z_of_byte v1)
            ++ bytes_of_string "." ++ Sprintf_d (Z_of_byte v2)
            ++ bytes_of_string "." ++ Sprintf_d (Z_of_byte v3))).
Proof.
  intros Hw Hr Hp Hfuel.
  assert (E : GetVersion fuel d
              = (r0 <~ dlift (index payload 0) ;;
                 r1 <~ dlift (index payload 1) ;;
                 r2 <~ dlift (index payload 2) ;;
                 r3 <~ dlift (index payload 3) ;;
                 dret ((if Z_of_byte r0 =? 1
                        then bytes_of_string "Baking" else bytes_of_string "Wallet")
                       ++ bytes_of_string " " ++ Sprintf_d (Z_of_byte r1)
                       ++ bytes_of_string "." ++ Sprintf_d (Z_of_byte r2)
                       ++ bytes_of_string "." ++ Sprintf_d (Z_of_byte r3)))
                  (mkDevice (nonblocking d) (write_replies d) rest (setnb_replies d))).
  { unfold GetVersion. cbv zeta.
    destruct (query_reply fuel Version payload d rest "Unable to get version"
                (fun resp =>
                   r0 <~ dlift (index resp 0) ;;
                   r1 <~ dlift (index resp 1) ;;
                   r2 <~ dlift (index resp 2) ;;
                   r3 <~ dlift (index resp 3) ;;
                   dret ((if Z_of_byte r0 =? 1
                          then bytes_of_string "Baking" else bytes_of_string "Wallet")
                         ++ bytes_of_string " " ++ Sprintf_d (Z_of_byte r1)
                         ++ bytes_of_string "." ++ Sprintf_d (Z_of_byte r2)
                         ++ bytes_of_string "." ++ Sprintf_d (Z_of_byte r3)))
                Hw Hr Hp Hfuel) as [H1 H2].
    rewrite (dbind_Ok _ _ d d _ (wrapping_Ok _ _ d d _ H1)).
    exact H2. }
  rewrite E. clear E. split.
  - intros Hshort.
    destruct payload as [|c [|v1 [|v2 [|v3 more]]]]; try reflexivity.
    exfalso. rewrite !len_cons in Hshort. pose proof (len_nonneg more). lia.
  - intros c v1 v2 v3 more ->.
    unfold dbind, dlift, dret.
    rewrite index_head.
    rewrite (index_at [c] v1 (v2 :: v3 :: more) 1 eq_refl
             : index (c :: v1 :: v2 :: v3 :: more) 1 = Ok v1).
    rewrite (index_at [c; v1] v2 (v3 :: more) 2 eq_refl
             : index (c :: v1 :: v2 :: v3 :: more) 2 = Ok v2).
    rewrite (index_at [c; v1; v2] v3 more 3 eq_refl
             : index (c :: v1 :: v2 :: v3 :: more) 3 = Ok v3).
    reflexivity.
Qed.

Lemma GetVersion_needs_four_bytes_witness :
  (len [x01; x02] < 4 ->
   fst (GetVersion 80 (mkDevice true [] [Ok (report ([x01; x02] ++ [x90; x00]))] []))
   = Panic) /\
  (forall c v1 v2 v3 more,
      [x01; x02] = c :: v1 :: v2 :: v3 :: more ->
      fst (GetVersion 80 (mkDevice true [] [Ok (report ([x01; x02] ++ [x90; x00]))] []))
      = Ok ((if Z_of_byte c =? 1
             then bytes_of_string "Baking" else bytes_of_string "Wallet")
            ++ bytes_of_string " " ++ Sprintf_d (Z_of_byte v1)
            ++ bytes_of_string "." ++ Sprintf_d (Z_of_byte v2)
            ++ bytes_of_string "." ++ Sprintf_d (Z_of_byte v3))).
Proof.
  apply (GetVersion_needs_four_bytes 80 [x01; x02]
           (mkDevice true [] [Ok (report ([x01; x02] ++ [x90; x00]))] []) []).
  - reflexivity.
  - reflexivity.
  - vm_compute. discriminate.
  - lia.
Defined.

(** X15.  [GetAuthorizedKeyPath] hands the reply to [DecodeBipPath] as it
    comes: a device that answers with the bare status word makes the call
    panic (the first byte of an empty reply is read). *)
Theorem GetAuthorizedKeyPath_reply (fuel : nat) (payload : list byte)
    (d : Device) (rest : list (outcome (list byte))) :
  write_replies d = [] ->
  read_replies d = Ok (report (payload ++ [x90; x00])) :: rest ->
  len payload <= 55 ->
  69 <= Z.of_nat fuel ->
  fst (GetAuthorizedKeyPath fuel d) = DecodeBipPath fuel payload /\
  (payload = [] -> fst (GetAuthorizedKeyPath fuel d) = Panic).
Proof.
  intros Hw Hr Hp Hfuel.
  assert (E : fst (GetAuthorizedKeyPath fuel d) = DecodeBipPath fuel payload).
  { unfold GetAuthorizedKeyPath. cbv zeta.
    destruct (query_reply fuel GetAuthKey payload d rest "Unable to read auth request"
                (fun resp => dlift (DecodeBipPath fuel resp)) Hw Hr Hp Hfuel)
      as [H1 H2].
    rewrite (dbind_Ok _ _ d d _ H1). rewrite H2. reflexivity. }
  split; [exact E|]. intros ->. rewrite E. reflexivity.
Qed.

Lemma GetAuthorizedKeyPath_reply_witness :
  fst (GetAuthorizedKeyPath 80
         (mkDevice true [] [Ok (report (tezos_path ++ [x90; x00]))] []))
  = DecodeBipPath 80 tezos_path /\
  (tezos_path = [] ->
   fst (GetAuthorizedKeyPath 80
          (mkDevice true [] [Ok (report (tezos_path ++ [x90; x00]))] []))
   = Panic).
Proof.
  apply (GetAuthorizedKeyPath_reply 80 tezos_path
           (mkDevice true [] [Ok (report (tezos_path ++ [x90; x00]))] []) []).
  - reflexivity.
  - reflexivity.
  - vm_compute. discriminate.
  - lia.
Defined.

(** X16.  [GetBakingSetup] tests the length of the reply before it reads it: a
    reply of fewer than twelve bytes is the error "Not enough data
    returned"; otherwise the first twelve bytes give the two watermarks
    and a chain id that [B58cdecode] turns back into bytes 8 to 11, and
    further bytes are not looked at. *)
Theorem GetBakingSetup_reply (fuel : nat) (payload : list byte)
    (d : Device) (rest : list (outcome (list byte))) :
  write_replies d = [] ->
  read_replies d = Ok (report (payload ++ [x90; x00])) :: rest ->
  len payload <= 55 ->
  69 <= Z.of_nat fuel ->
  (len payload < 12 ->
   fst (GetBakingSetup fuel d) = Err (errors_New "Not enough data returned")) /\
  (forall mainWM testWM chain more,
      payload = be32 mainWM ++ be32 testWM ++ chain ++ more ->
      0 <= mainWM < 2 ^ 32 -> 0 <= testWM < 2 ^ 32 -> len chain = 4 ->
      fst (GetBakingSetup fuel d)
      = Ok (mainWM, testWM, B58cencode chain networkprefix) /\
      B58cdecode (B58cencode chain networkprefix) networkprefix = Ok chain).
Proof.
  intros Hw Hr Hp Hfuel.
  assert (E : GetBakingSetup fuel d
              = (if len payload <? 12
                 then dlift (Err (errors_New "Not enough data returned"))
                 else
                   mainBytes <~ dlift (slice payload 0 4) ;;
                   mainWM <~ dlift (Uint32 mainBytes) ;;
                   testBytes <~ dlift (slice payload 4 8) ;;
                   testWM <~ dlift (Uint32 testBytes) ;;
                   chainBytes <~ dlift (slice payload 8 12) ;;
                   dret (mainWM, testWM, B58cencode chainBytes networkprefix))
                  (mkDevice (nonblocking d) (write_replies d) rest (setnb_replies d))).
  { unfold GetBakingSetup. cbv zeta.
    destruct (query_reply fuel GetBakingHLW payload d rest "Unable to read HLW reply"
                (fun resp =>
                   if len resp <? 12
                   then dlift (Err (errors_New "Not enough data returned"))
                   else
                     mainBytes <~ dlift (slice resp 0 4) ;;
                     mainWM <~ dlift (Uint32 mainBytes) ;;
                     testBytes <~ dlift (slice resp 4 8) ;;
                     testWM <~ dlift (Uint32 testBytes) ;;
                     chainBytes <~ dlift (slice resp 8 12) ;;
                     dret (mainWM, testWM, B58cencode chainBytes networkprefix))
                Hw Hr Hp Hfuel) as [H1 H2].
    rewrite (dbind_Ok _ _ d d _ H1). exact H2. }
  rewrite E. clear E. split.
  - intros Hshort.
    replace (len payload <? 12) with true by (symmetry; apply Z.ltb_lt; assumption).
    reflexivity.
  - intros mainWM testWM chain more -> Hm Ht Hc.
    pose proof (len_nonneg more) as Hm0.
    replace (len (be32 mainWM ++ be32 testWM ++ chain ++ more) <? 12) with false
      by (symmetry; apply Z.ltb_ge; rewrite !len_app, !len_be32; lia).
    split.
    + unfold dbind, dlift, dret.
      rewrite (slice_at [] (be32 mainWM) (be32 testWM ++ chain ++ more) 0 4
                 eq_refl eq_refl
               : slice (be32 mainWM ++ be32 testWM ++ chain ++ more) 0 4
                 = Ok (be32 mainWM)).
      rewrite Uint32_be32 by assumption.
      replace (be32 mainWM ++ be32 testWM ++ chain ++ more)
        with (be32 mainWM ++ be32 testWM ++ (chain ++ more)) by reflexivity.
      rewrite (slice_at (be32 mainWM) (be32 testWM)) by reflexivity.
      rewrite Uint32_be32 by assumption.
      replace (be32 mainWM ++ be32 testWM ++ chain ++ more)
        with ((be32 mainWM ++ be32 testWM) ++ chain ++ more)
        by (rewrite <- app_assoc; reflexivity).
      rewrite (slice_at (be32 mainWM ++ be32 testWM) chain)
        by (try reflexivity; rewrite Hc; reflexivity).
      reflexivity.
    + apply B58cdecode_B58cencode; vm_compute; discriminate.
Qed.

Lemma GetBakingSetup_reply_witness :
  (len (be32 7 ++ be32 9 ++ [x7a; x06; xa7; x70] ++ []) < 12 ->
   fst (GetBakingSetup 80
          (mkDevice true []
             [Ok (report ((be32 7 ++ be32 9 ++ [x7a; x06; xa7; x70] ++ [])
                          ++ [x90; x00]))] []))
   = Err (errors_New "Not enough data returned")) /\
  (forall mainWM testWM chain more,
      be32 7 ++ be32 9 ++ [x7a; x06; xa7; x70] ++ []
      = be32 mainWM ++ be32 testWM ++ chain ++ more ->
      0 <= mainWM < 2 ^ 32 -> 0 <= testWM < 2 ^ 32 -> len chain = 4 ->
      fst (GetBakingSetup 80
             (mkDevice true []
                [Ok (report ((be32 7 ++ be32 9 ++ [x7a; x06; xa7; x70] ++ [])
                             ++ [x90; x00]))] []))
      = Ok (mainWM, testWM, B58cencode chain networkprefix) /\
      B58cdecode (B58cencode chain networkprefix) networkprefix = Ok chain).
Proof.
  apply (GetBakingSetup_reply 80 (be32 7 ++ be32 9 ++ [x7a; x06; xa7; x70] ++ [])
           (mkDevice true []
              [Ok (report ((be32 7 ++ be32 9 ++ [x7a; x06; xa7; x70] ++ [])
                           ++ [x90; x00]))] []) []).
  - reflexivity.
  - reflexivity.
  - vm_compute. discriminate.
  - lia.
Defined.

(** ** The status word, as [Ledger.Read] reports it *)

(** X5.  A one-report response ends in its status word: [Read] returns the
    payload when [checkFailure] accepts the word, and otherwise the error
    of [checkFailure] wrapped as "Failed to decode response"; in both
    cases exactly one report is consumed. *)
Theorem Ledger_Read_status_word (fuel : nat) (payload : list byte) (hi lo : byte)
    (d : Device) (rest : list (outcome (list byte))) :
  len payload <= 55 ->
  read_replies d = Ok (report (payload ++ [hi; lo])) :: rest ->
  (1 <= fuel)%nat ->
  Ledger_Read fuel TEZOS_CHANNEL d
  = (match checkFailure (Z.shiftl (Z_of_byte hi) 8 + Z_of_byte lo) with
     | Some err => Err (errors_Wrap err "Failed to decode response")
     | None => Ok payload
     end,
     mkDevice (nonblocking d) (write_replies d) rest (setnb_replies d)).
Proof.
  intros Hp Hr Hfuel. destruct fuel as [|fuel]; [lia|].
  unfold Ledger_Read, dbind, readData. rewrite Hr.
  cbn [Ledger_Read_loop app].
  rewrite unwrapResponseAPDU_report by assumption.
  destruct (checkFailure (Z.shiftl (Z_of_byte hi) 8 + Z_of_byte lo)) as [err|] eqn:C;
    [|reflexivity].
  destruct err; try reflexivity.
  exfalso. exact (checkFailure_not_more_data _ C).
Qed.

Lemma Ledger_Read_status_word_witness :
  Ledger_Read 1 TEZOS_CHANNEL (mkDevice true [] [Ok (report ([x2a] ++ [x69; x85]))] [])
  = (match checkFailure (Z.shiftl (Z_of_byte x69) 8 + Z_of_byte x85) with
     | Some err => Err (errors_Wrap err "Failed to decode response")
     | None => Ok [x2a]
     end,
     mkDevice true [] [] []).
Proof.
  apply (Ledger_Read_status_word 1 [x2a] x69 x85
           (mkDevice true [] [Ok (report ([x2a] ++ [x69; x85]))] []) []).
  - vm_compute. discriminate.
  - reflexivity.
  - lia.
Defined.

(** ** [SignBytes]: a signature returned *)

Lemma dbind_inv {A B : Type} (m : dev A) (k : A -> dev B) (d d' : Device) (b : B) :
  dbind m k d = (Ok b, d') ->
  exists a d1, m d = (Ok a, d1) /\ k a d1 = (Ok b, d').
Proof.
  unfold dbind. destruct (m d) as [[a| | |] d1]; try discriminate.
  intros H. exists a, d1. split; [reflexivity|assumption].
Qed.

Lemma wrapping_inv {A : Type} (m : dev A) (msg : string) (d d' : Device) (a : A) :
  wrapping m msg d = (Ok a, d') -> m d = (Ok a, d').
Proof.
  unfold wrapping. destruct (m d) as [[x| | |] d1]; try discriminate.
  intros H. exact H.
Qed.

Lemma Dev_SetNonBlocking_mode (b : bool) (d d' : Device) (r : Z * option error) :
  Dev_SetNonBlocking b d = (Ok r, d') -> (fst r =? -1) = false -> nonblocking d' = b.
Proof.
  unfold Dev_SetNonBlocking.
  destruct (setnb_replies d) as [|[r0 err] replies]; intros H Hr;
    injection H as <- <-; cbn [fst nonblocking] in *.
  - reflexivity.
  - rewrite Hr. reflexivity.
Qed.

(** X17.  Whenever [SignBytes] returns a signature the channel is back in
    non-blocking mode: the only returns without an error that skip
    [SetNonBlocking(true)], or follow its failure, give the empty
    string. *)
Theorem SignBytes_signature_restores_mode (fuel : nat)
    (BipPath bytesToSign signature : list byte) (d d' : Device) :
  SignBytes fuel BipPath bytesToSign d = (Ok signature, d') ->
  signature <> [] ->
  nonblocking d' = true.
Proof.
  intros H Hsig. unfold SignBytes in H.
  destruct (len BipPath =? 0); [discriminate|].
  cbv zeta in H.
  apply dbind_inv in H as [n1 [d1 [_ H]]].
  apply dbind_inv in H as [resp1 [d2 [_ H]]].
  apply dbind_inv in H as [r1 [d3 [_ H]]].
  destruct (fst r1 =? -1).
  { unfold dlift, return_Wrap in H. destruct (snd r1); [discriminate|].
    injection H as <- _. exfalso. apply Hsig. reflexivity. }
  apply dbind_inv in H as [n2 [d4 [_ H]]].
  apply dbind_inv in H as [resp2 [d5 [_ H]]].
  apply dbind_inv in H as [r2 [d6 [Hnb H]]].
  destruct (fst r2 =? -1) eqn:E.
  { unfold dlift, return_Wrap in H. destruct (snd r2); [discriminate|].
    injection H as <- _. exfalso. apply Hsig. reflexivity. }
  unfold dret in H. injection H as _ <-.
  exact (Dev_SetNonBlocking_mode true d5 d6 r2 Hnb E).
Qed.

Lemma SignBytes_signature_restores_mode_witness :
  SignBytes 64 tezos_path [x03; x01] device_signs
  = (Ok (B58cencode (repeat x2a 64) edsigprefix), mkDevice true [] [] []) /\
  nonblocking (mkDevice true [] [] []) = true.
Proof.
  split; [vm_compute; reflexivity|].
  apply (SignBytes_signature_restores_mode 64 tezos_path [x03; x01]
           (B58cencode (repeat x2a 64) edsigprefix)
           device_signs (mkDevice true [] [] [])).
  - vm_compute. reflexivity.
  - vm_compute. discriminate.
Defined.

(* ----------------------------------------------------------------- *)
(** ** Checksummed base-58: the characters of a text *)

Lemma IndexByte_ge (b : list byte) (c : byte) : -1 <= IndexByte b c.
Proof.
  induction b as [|x b IH]; cbn [IndexByte]; [lia|].
  destruct (Byte.eqb x c); [lia|].
  destruct (IndexByte b c =? -1); lia.
Qed.

Lemma IndexByte_absent (b : list byte) (c : byte) :
  IndexByte b c = -1 <-> ~ In c b.
Proof.
  induction b as [|x b IH]; cbn [IndexByte In]; [tauto|].
  pose proof (IndexByte_ge b c) as Hge.
  destruct (Byte.eqb x c) eqn:E.
  - apply byte_eqb_eq in E. split; [lia|]. intros H. exfalso. apply H. left. assumption.
  - assert (x <> c).
    { intros ->. rewrite (proj2 (byte_eqb_eq c c) eq_refl) in E. discriminate. }
    destruct (IndexByte b c =? -1) eqn:G.
    + apply Z.eqb_eq in G. split; [|reflexivity].
      intros _ [H1|H1]; [contradiction|]. apply IH in G. contradiction.
    + apply Z.eqb_neq in G. split; [lia|].
      intros H1. exfalso. apply G, IH. intros H2. apply H1. right. assumption.
Qed.

Lemma b58decode_loop_None (s : list byte) :
  forall acc,
    b58decode_loop (map Z_of_byte s) acc = None
    <-> ~ Forall (fun c => In c alphabet) s.
Proof.
  induction s as [|c s IH]; intros acc; cbn [map b58decode_loop].
  - split; [discriminate|]. intros H. exfalso. apply H. constructor.
  - rewrite byte_of_Z_of_byte.
    destruct (IndexByte alphabet c =? -1) eqn:E.
    + apply Z.eqb_eq, IndexByte_absent in E. split; [|reflexivity].
      intros _ H. inversion H. contradiction.
    + apply Z.eqb_neq in E.
      assert (Hin : In c alphabet).
      { destruct (in_dec Byte.byte_eq_dec c alphabet) as [Hin|Hin]; [assumption|].
        exfalso. apply E, IndexByte_absent. assumption. }
      rewrite IH. split.
      * intros H1 H2. apply H1. inversion H2. assumption.
      * intros H1 H2. apply H1. constructor; assumption.
Qed.

(** X18.  On a text of one-byte characters [decode] reports "character not
    found in alphabet" exactly when some character is outside the
    alphabet. *)
Theorem decode_alphabet_error_iff (encoded : list byte) :
  Forall (fun c => Z_of_byte c < 128) encoded ->
  (decode encoded = ([], Some (errors_New "character not found in alphabet"))
   <-> ~ Forall (fun c => In c alphabet) encoded).
Proof.
  intros Hascii. unfold decode, b58decode.
  rewrite utf8_runes_ascii by assumption.
  rewrite <- (b58decode_loop_None encoded 0).
  destruct (b58decode_loop (map Z_of_byte encoded) 0) as [v|].
  - split; [|discriminate]. intros H. exfalso.
    destruct (len (big_Bytes v) <=? 4); [discriminate|].
    destruct (negb _); discriminate.
  - split; reflexivity.
Qed.

Lemma decode_alphabet_error_iff_witness :
  decode (bytes_of_string "NetXdQprcVkpaW0")
  = ([], Some (errors_New "character not found in alphabet"))
  <-> ~ Forall (fun c => In c alphabet) (bytes_of_string "NetXdQprcVkpaW0").
Proof.
  apply (decode_alphabet_error_iff (bytes_of_string "NetXdQprcVkpaW0")).
  repeat constructor.
Defined.

Lemma base58_digits_alphabet (fuel : nat) (x : Z) :
  Forall (fun c => In c alphabet) (base58_digits fuel x).
Proof.
  revert x. induction fuel as [|fuel IH]; intros x; cbn [base58_digits].
  - constructor.
  - destruct (0 <? x) eqn:E; constructor; [|apply IH].
    apply nth_In. apply Z.ltb_lt in E.
    pose proof (Z.mod_pos_bound x 58 ltac:(lia)).
    change (length alphabet) with 58%nat. lia.
Qed.

Lemma repeat_one_alphabet (z : nat) :
  Forall (fun c => In c alphabet) (repeat "1"%byte z).
Proof.
  induction z as [|z IH]; cbn [repeat]; constructor; [|assumption].
  left. reflexivity.
Qed.

Lemma encode_in_alphabet (dataBytes : list byte) :
  Forall (fun c => In c alphabet) (encode dataBytes).
Proof.
  unfold encode. rewrite iter_ones. apply Forall_app. split.
  - apply repeat_one_alphabet.
  - unfold base58_Encode. apply Forall_rev. apply Forall_app. split.
    + apply base58_digits_alphabet.
    + apply repeat_one_alphabet.
Qed.

(** X19.  Every character of a text [B58cencode] returns is in the alphabet, so
    that [decode] does not refuse it for its characters. *)
Theorem B58cencode_alphabet (payload : list byte) (prefix : Prefix) :
  Forall (fun c => In c alphabet) (B58cencode payload prefix) /\
  snd (decode (B58cencode payload prefix))
  <> Some (errors_New "character not found in alphabet").
Proof.
  unfold B58cencode.
  pose proof (encode_in_alphabet (prefix ++ payload)) as H.
  split; [exact H|].
  intros E.
  assert (Hascii : Forall (fun c => Z_of_byte c < 128) (encode (prefix ++ payload))).
  { apply Forall_forall. intros c Hc.
    apply (proj1 (Forall_forall _ _) H) in Hc.
    apply In_nth with (d := x00) in Hc as [n [_ <-]]. apply alphabet_ascii. }
  revert E. unfold decode, b58decode.
  rewrite utf8_runes_ascii by assumption.
  destruct (b58decode_loop (map Z_of_byte (encode (prefix ++ payload))) 0) as [v|] eqn:L.
  - destruct (len (big_Bytes v) <=? 4); [discriminate|].
    destruct (negb _); discriminate.
  - apply b58decode_loop_None in L. contradiction.
Qed.

(** X20.  With a prefix that is not empty and does not start with a zero byte,
    [B58cencode] maps different payloads to different texts. *)
Theorem B58cencode_injective (p1 p2 : list byte) (prefix : Prefix) :
  prefix <> [] -> no_leading_zero prefix ->
  p1 <> p2 ->
  B58cencode p1 prefix <> B58cencode p2 prefix.
Proof.
  intros Hne Hn Hp E. apply Hp.
  pose proof (B58cdecode_B58cencode p1 prefix Hne Hn) as H1.
  pose proof (B58cdecode_B58cencode p2 prefix Hne Hn) as H2.
  rewrite E in H1. congruence.
Qed.

Lemma B58cencode_injective_witness :
  B58cencode [x01] tz1prefix <> B58cencode [x02] tz1prefix.
Proof.
  apply (B58cencode_injective [x01] [x02] tz1prefix).
  - vm_compute. discriminate.
  - vm_compute. discriminate.
  - discriminate.
Defined.

(** ** [decode] after [encode]: bytes that start with zero *)






